(** * ProofCheck: the scoring engine, embedded and verified

    A shallow embedding of the repository's scoring code.  Line numbers
    in the comments are those of the file named here:
    - languageDetector.js (src/unnamed/part_003, from line 458): the
      language classifier;
    - router.js (src/src/router.js): language selection and the weighted
      code score;
    - projectAnalyzer.js (src/src/analyzers/javascriptAnalyzer.js, from
      line 373): the project hygiene score;
    - ingestion.js (src/unnamed/part_002): the pipeline, the report and
      the grades;
    - cppAnalyzer.js, javascriptAnalyzer.js, pythonAnalyzer.js
      (src/src/analyzers): the complexity buckets, the C/C++ average and
      the Python style fallback;
    - githubFetcher.js (src/unnamed/part_003, up to line 457): the file
      filter of the provider that downloads through the GitHub API.

    Numbers.  A JavaScript number is an IEEE binary64.  The quantities the
    code keeps in them are of two kinds.  Counters, percentages and scores
    are integers far below 2^53, where [+], [-] and [*] are exact: they
    are modelled by [Z].  Every expression whose value need not be an
    integer (a division, a product by 0.4, 0.15, ...) is evaluated in
    binary64 with Rocq's primitive floats, and brought back to [Z] by
    [Math_round], as the source does with [Math.round]. *)

From Stdlib Require Import ZArith Lia Bool List String Ascii Permutation.
From Stdlib Require Import Floats Uint63 DecimalString.
Import ListNotations.

#[local] Set Warnings "-inexact-float,-register-all".
#[local] Open Scope string_scope.
#[local] Open Scope Z_scope.

(* ================================================================== *)
(** * JavaScript primitives *)
(* ================================================================== *)

Module JS.

(** ** binary64 *)

(** A non-negative integer held in a number.  Exact below 2^53; every
    count, percentage and score of this program is. *)
Definition Z2f (z : Z) : float := PrimFloat.of_uint63 (Uint63.of_Z z).

(** [frshiftexp x = (m, se)] with [x = m * 2^(se - 2101)] and
    [1/2 <= |m| < 1]; [normfr_mantissa m = |m| * 2^53].  Hence
    [|x| = mant * 2^(se - 2154)]: below, [k = 2154 - se] is the number of
    fractional bits of [mant]. *)
Definition exponent_bias : int := 2154%uint63.

(** floor(|x| + 1/2) for [|x| < 2^53], from [mant] and [k >= 1]. *)
Definition round_half_up_mag (mant k : int) : int :=
  if Uint63.leb 55 k then 0%uint63
  else Uint63.lsr (Uint63.add mant (Uint63.lsl 1 (Uint63.sub k 1))) k.

(** ceil(|x| - 1/2) for [|x| < 2^53], from [mant] and [k >= 1]. *)
Definition round_half_down_mag (mant k : int) : int :=
  if Uint63.leb 55 k then 0%uint63
  else Uint63.lsr
         (Uint63.sub (Uint63.add mant (Uint63.lsl 1 (Uint63.sub k 1))) 1) k.

(** [Math.round]: the integer nearest to [x], a tie going to the one
    nearer to +infinity ([2.5 -> 3], [-2.5 -> -2]).  [Math.round] of NaN or
    of an infinity is that value itself and not an integer; [0] stands for
    it here, and no operand of this program produces one (divisors are
    tested positive before every division). *)
Definition Math_round (x : float) : Z :=
  if PrimFloat.is_nan x || PrimFloat.is_infinity x then 0
  else
    let (m, se) := PrimFloat.frshiftexp x in
    let mant := PrimFloat.normfr_mantissa m in
    let neg := PrimFloat.ltb x 0 in
    if Uint63.leb exponent_bias se then
      (* |x| >= 2^52: x is an integer *)
      let v := Z.shiftl (Uint63.to_Z mant) (Uint63.to_Z se - 2154) in
      if neg then - v else v
    else
      let k := Uint63.sub exponent_bias se in
      if neg then - Uint63.to_Z (round_half_down_mag mant k)
      else Uint63.to_Z (round_half_up_mag mant k).

(** [Math.max] and [Math.min] on integers. *)
Definition Math_max (a b : Z) : Z := Z.max a b.
Definition Math_min (a b : Z) : Z := Z.min a b.

(** The nearest integer to the rational [a / b] ([b > 0]), a tie going up:
    what [Math.round (a / b)] is in exact arithmetic. *)
Definition round_div (a b : Z) : Z := (2 * a + b) / (2 * b).

(** ** Strings

    Strings are sequences of bytes; the letters and the white space that
    matter to the code below are ASCII. *)

Definition lower_ascii (c : ascii) : ascii :=
  let n := nat_of_ascii c in
  if (Nat.leb 65 n && Nat.leb n 90)%bool then ascii_of_nat (n + 32) else c.

Fixpoint toLowerCase (s : string) : string :=
  match s with
  | EmptyString => EmptyString
  | String c r => String (lower_ascii c) (toLowerCase r)
  end.

Definition startsWith (s p : string) : bool := String.prefix p s.

Fixpoint includes (s sub : string) : bool :=
  String.prefix sub s ||
  match s with
  | EmptyString => false
  | String _ r => includes r sub
  end.

Definition endsWith (s suffix : string) : bool :=
  let ls := String.length s in
  let lf := String.length suffix in
  (Nat.leb lf ls && String.eqb (String.substring (ls - lf) lf s) suffix)%bool.

(** White space of [String.prototype.trim] (tab, line feed, vertical tab,
    form feed, carriage return, space). *)
Definition is_space (c : ascii) : bool :=
  let n := nat_of_ascii c in
  (Nat.leb 9 n && Nat.leb n 13 || Nat.eqb n 32)%bool.

Fixpoint trimStart (s : string) : string :=
  match s with
  | EmptyString => EmptyString
  | String c r => if is_space c then trimStart r else s
  end.

Fixpoint trimEnd (s : string) : string :=
  match s with
  | EmptyString => EmptyString
  | String c r =>
      let r' := trimEnd r in
      if (is_space c && String.eqb r' EmptyString)%bool then EmptyString
      else String c r'
  end.

Definition trim (s : string) : string := trimEnd (trimStart s).

(** A string is truthy when it is not empty. *)
Definition truthy (s : string) : bool := negb (String.eqb s EmptyString).

Fixpoint count_char (c : ascii) (s : string) : Z :=
  match s with
  | EmptyString => 0
  | String d r => (if Ascii.eqb d c then 1 else 0) + count_char c r
  end.

(** [s.split('\n').length] *)
Definition split_lines_length (s : string) : Z := count_char "010"%char s + 1.

(** [s.split('\n')] *)
Fixpoint split_lines (s : string) : list string :=
  match s with
  | EmptyString => [EmptyString]
  | String c r =>
      if Ascii.eqb c "010"%char then EmptyString :: split_lines r
      else match split_lines r with
           | [] => [String c EmptyString]
           | l :: ls => String c l :: ls
           end
  end.

Fixpoint has_char (c : ascii) (s : string) : bool :=
  match s with
  | EmptyString => false
  | String d r => Ascii.eqb d c || has_char c r
  end.

(** What follows the prefix [p] of [s], when [s] starts with [p]. *)
Fixpoint after (p s : string) : option string :=
  match p with
  | EmptyString => Some s
  | String a p' =>
      match s with
      | EmptyString => None
      | String b s' => if Ascii.eqb a b then after p' s' else None
      end
  end.

(** The longest prefix of [s] whose characters [ok] accepts, and what
    follows it: how a greedy character class reads [s]. *)
Fixpoint span (ok : ascii -> bool) (s : string) : string * string :=
  match s with
  | EmptyString => (EmptyString, EmptyString)
  | String c r =>
      if ok c then let (a, b) := span ok r in (String c a, b)
      else (EmptyString, s)
  end.

(** [ok] accepts every character of [s]. *)
Fixpoint every (ok : ascii -> bool) (s : string) : bool :=
  match s with
  | EmptyString => true
  | String c r => ok c && every ok r
  end.

(** ** Paths (POSIX) *)

Definition path_join (dir name : string) : string := dir ++ "/" ++ name.

(** [path.basename]: what follows the last separator. *)
Fixpoint basename (p : string) : string :=
  match p with
  | EmptyString => EmptyString
  | String c r =>
      if has_char "/"%char r then basename r
      else if Ascii.eqb c "/"%char then r else p
  end.

Fixpoint last_index (c : ascii) (s : string) (i : nat) : option nat :=
  match s with
  | EmptyString => None
  | String d r =>
      match last_index c r (S i) with
      | Some j => Some j
      | None => if Ascii.eqb d c then Some i else None
      end
  end.

(** [path.dirname] of a path without trailing separator. *)
Definition dirname (p : string) : string :=
  match last_index "/"%char p 0 with
  | None => "."
  | Some O => "/"
  | Some i => String.substring 0 i p
  end.

(** [s.split(sep)] for a one-character separator. *)
Fixpoint split_on (sep : ascii) (s : string) : list string :=
  match s with
  | EmptyString => [EmptyString]
  | String c r =>
      if Ascii.eqb c sep then EmptyString :: split_on sep r
      else match split_on sep r with
           | [] => [String c EmptyString]
           | l :: ls => String c l :: ls
           end
  end.

(** [path.extname]: from the last dot of the base name to its end; empty
    when there is no dot, when the only dot is the first character, and
    for [..]. *)
Definition extname (p : string) : string :=
  let b := basename p in
  match last_index "."%char b 0 with
  | None => EmptyString
  | Some O => EmptyString
  | Some i =>
      if String.eqb b ".." then EmptyString
      else String.substring i (String.length b - i) b
  end.

(** ** Objects used as maps

    An object with string keys, none of which reads as an array index:
    [Object.entries], [Object.keys] and [for ... in] list such keys in
    insertion order, and assigning to a present key keeps its place. *)

Definition Obj (V : Type) : Type := list (string * V).

Fixpoint obj_get {V : Type} (k : string) (o : Obj V) : option V :=
  match o with
  | [] => None
  | (k', v) :: r => if String.eqb k' k then Some v else obj_get k r
  end.

Fixpoint obj_set {V : Type} (k : string) (v : V) (o : Obj V) : Obj V :=
  match o with
  | [] => [(k, v)]
  | (k', v') :: r =>
      if String.eqb k' k then (k, v) :: r else (k', v') :: obj_set k v r
  end.

Definition obj_keys {V : Type} (o : Obj V) : list string := map fst o.

Definition mem (x : string) (l : list string) : bool :=
  existsb (String.eqb x) l.

(** ** Arrays *)

(** [Array.prototype.sort] with a comparator: stable (ECMAScript 2019). *)
Fixpoint insert_by {A : Type} (cmp : A -> A -> Z) (x : A) (l : list A)
  : list A :=
  match l with
  | [] => [x]
  | y :: r => if cmp x y <=? 0 then x :: l else y :: insert_by cmp x r
  end.

Definition sort_by {A : Type} (cmp : A -> A -> Z) (l : list A) : list A :=
  fold_right (insert_by cmp) [] l.

(** ** Exceptions: a call returns or throws. *)

Inductive Outcome (A : Type) : Type :=
| Returned (a : A)
| Thrown (message : string).

Arguments Returned {A} a.
Arguments Thrown {A} message.

End JS.

Import JS.

(* ================================================================== *)
(** * Enumeration over machine integers

    The binary64 facts the proofs need (a quotient of two small integers,
    or a 0.4/0.6 mix of two scores, rounds to the integer that exact
    arithmetic gives) are decided by running the operations on every
    operand of a finite range.  The checks below work on 63-bit machine
    integers, the operands of [PrimFloat.of_uint63]. *)
(* ================================================================== *)

Module Exhaustive.

(** [f] holds of [lo], [lo + 1], ..., [lo + n - 1]. *)
Fixpoint range_all (n : nat) (lo : int) (f : int -> bool) : bool :=
  match n with
  | O => true
  | S k => f lo && range_all k (Uint63.add lo 1) f
  end.

(** [x] is finite, not negative, below 2^53, and [Math.round x] is
    [expected]. *)
Definition rounds_to (x : float) (expected : int) : bool :=
  negb (PrimFloat.is_nan x || PrimFloat.is_infinity x)
  && negb (PrimFloat.ltb x 0)
  && (let (m, se) := PrimFloat.frshiftexp x in
      negb (Uint63.leb exponent_bias se)
      && Uint63.eqb
           (round_half_up_mag (PrimFloat.normfr_mantissa m)
              (Uint63.sub exponent_bias se))
           expected).

(** [Math.round (a / b)] is the nearest integer to the rational [a / b]. *)
Definition div_check (b a : int) : bool :=
  rounds_to (PrimFloat.div (PrimFloat.of_uint63 a) (PrimFloat.of_uint63 b))
    (Uint63.div (Uint63.add (Uint63.mul 2 a) b) (Uint63.mul 2 b)).

(** ... for every [0 <= a <= 100 * b]. *)
Definition div_check_row (b : int) : bool :=
  range_all (Z.to_nat (Uint63.to_Z (Uint63.add (Uint63.mul 100 b) 1))) 0
    (div_check b).

(** [Math.round (p * 0.4 + c * 0.6)] is the nearest integer to
    [(4 p + 6 c) / 10]. *)
Definition mix_check (p c : int) : bool :=
  rounds_to
    (PrimFloat.add (PrimFloat.mul (PrimFloat.of_uint63 p) 0.4)
                   (PrimFloat.mul (PrimFloat.of_uint63 c) 0.6))
    (Uint63.div
       (Uint63.add (Uint63.add (Uint63.mul 4 p) (Uint63.mul 6 c)) 5) 10).

(** ... for every score [0 <= c <= 100]. *)
Definition mix_check_row (p : int) : bool := range_all 101 0 (mix_check p).

(** [Math.round (q * c)], where the decimal constant [c] stands for
    [num / den], is the nearest integer to the rational [num * q / den]. *)
Definition scale_check (c : float) (num den q : int) : bool :=
  rounds_to (PrimFloat.mul (PrimFloat.of_uint63 q) c)
    (Uint63.div (Uint63.add (Uint63.mul (Uint63.mul 2 num) q) den)
       (Uint63.mul 2 den)).

End Exhaustive.

(* ================================================================== *)
(** * languageDetector.js *)
(* ================================================================== *)

Module LanguageDetector.

(** The object literal [EXTENSION_MAP].  A key looked up in it is a
    lower-cased [path.extname]: empty or starting with a dot, hence never
    a property inherited from [Object.prototype]; the key [.R] is kept
    though no lower-cased extension reaches it. *)
Definition EXTENSION_MAP : Obj string :=
  [ (".py", "Python"); (".pyw", "Python");
    (".js", "JavaScript"); (".jsx", "JavaScript");
    (".ts", "TypeScript"); (".tsx", "TypeScript");
    (".cpp", "C++"); (".cc", "C++"); (".cxx", "C++");
    (".c", "C"); (".h", "C/C++ Header"); (".hpp", "C++ Header");
    (".java", "Java"); (".go", "Go"); (".rs", "Rust"); (".rb", "Ruby");
    (".php", "PHP"); (".cs", "C#"); (".swift", "Swift"); (".kt", "Kotlin");
    (".scala", "Scala"); (".r", "R"); (".R", "R");
    (".m", "MATLAB/Objective-C"); (".sql", "SQL");
    (".sh", "Shell"); (".bash", "Shell"); (".zsh", "Shell");
    (".ps1", "PowerShell"); (".html", "HTML"); (".css", "CSS");
    (".scss", "SCSS"); (".sass", "Sass"); (".less", "Less");
    (".json", "JSON"); (".xml", "XML"); (".yaml", "YAML"); (".yml", "YAML");
    (".md", "Markdown"); (".vue", "Vue"); (".svelte", "Svelte") ].

Definition IGNORE_DIRS : list string :=
  [ "node_modules"; ".git"; "__pycache__"; ".venv"; "venv";
    "env"; ".env"; "dist"; "build"; "target"; ".idea";
    ".vscode"; "vendor"; "packages"; ".next"; ".nuxt";
    "coverage"; ".nyc_output"; "bower_components" ].

(** ** The file tree

    What [fs.readdir (dir, {withFileTypes: true})] lists, in its order.  A
    file carries what [fs.readFile (path, 'utf-8')] and [fs.stat] give, or
    [None] when either throws.  Every directory of the tree can be listed
    (a directory that cannot makes [walkDirectory] throw; that case is
    left out). *)

Record FileData : Type := { content : string; size : Z }.

Inductive Entry : Type :=
| File (name : string) (data : option FileData)
| Dir (name : string) (entries : list Entry)
| Other (name : string).   (* neither isDirectory() nor isFile() *)

Definition entry_name (e : Entry) : string :=
  match e with File n _ => n | Dir n _ => n | Other n => n end.

(** [walkDirectory (dir, callback)]: the callback's effect on the state
    [S] it closes over is passed along explicitly. *)
Fixpoint walkEntry {S : Type} (callback : string -> option FileData -> S -> S)
  (dir : string) (entry : Entry) (s : S) : S :=
  let fullPath := path_join dir (entry_name entry) in
  match entry with
  | Dir name entries =>
      if (negb (mem name IGNORE_DIRS) && negb (startsWith name "."))%bool
      then fold_left (fun s' e => walkEntry callback fullPath e s') entries s
      else s
  | File _ data => callback fullPath data s
  | Other _ => s
  end.

Definition walkDirectory {S : Type}
  (callback : string -> option FileData -> S -> S)
  (dir : string) (entries : list Entry) (s : S) : S :=
  fold_left (fun s' e => walkEntry callback dir e s') entries s.

(** ** detectLanguages *)

Record Stat : Type := { files : Z; lines : Z; bytes : Z }.

Record LanguageStat : Type :=
  { ls_files : Z; ls_lines : Z; ls_bytes : Z; percentage : Z }.

Record LanguageStats : Type :=
  { primary : option string;
    breakdown : Obj LanguageStat;
    totalFiles : Z;
    totalLines : Z }.

(** The callback given to [walkDirectory] (lines 517-542). *)
Definition onFile (filePath : string) (data : option FileData)
  (stats : Obj Stat) : Obj Stat :=
  let ext := toLowerCase (extname filePath) in
  match obj_get ext EXTENSION_MAP with
  | Some language =>
      let stats :=
        match obj_get language stats with
        | Some _ => stats
        | None => obj_set language {| files := 0; lines := 0; bytes := 0 |} stats
        end in
      match obj_get language stats with
      | Some st =>
          match data with
          | Some d =>
              obj_set language
                {| files := files st + 1;
                   lines := lines st + split_lines_length (content d);
                   bytes := bytes st + size d |} stats
          | None =>
              (* Skip binary or unreadable files *)
              obj_set language
                {| files := files st + 1; lines := lines st;
                   bytes := bytes st |} stats
          end
      | None => stats
      end
  | None => stats
  end.

(** State of the loop of lines 555-568. *)
Record PrimaryLoop : Type :=
  { pl_breakdown : Obj LanguageStat;
    pl_maxLines : Z;
    pl_primary : option string }.

Definition percentageOf (totalLines : Z) (data : Stat) : Z :=
  if totalLines >? 0
  then Math_round
         (PrimFloat.mul
            (PrimFloat.div (Z2f (lines data)) (Z2f totalLines)) 100)
  else 0.

Definition primaryStep (totalLines : Z) (st : PrimaryLoop)
  (e : string * Stat) : PrimaryLoop :=
  let (lang, data) := e in
  let b :=
    obj_set lang
      {| ls_files := files data; ls_lines := lines data;
         ls_bytes := bytes data;
         percentage := percentageOf totalLines data |}
      (pl_breakdown st) in
  if lines data >? pl_maxLines st
  then {| pl_breakdown := b; pl_maxLines := lines data;
          pl_primary := Some lang |}
  else {| pl_breakdown := b; pl_maxLines := pl_maxLines st;
          pl_primary := pl_primary st |}.

(** Lines 544-576, from the statistics the walk has gathered. *)
Definition summarize (stats : Obj Stat) : LanguageStats :=
  let totalLines := fold_left (fun sum e => sum + lines (snd e)) stats 0 in
  let totalFiles := fold_left (fun sum e => sum + files (snd e)) stats 0 in
  let final :=
    fold_left (primaryStep totalLines) stats
      {| pl_breakdown := []; pl_maxLines := 0; pl_primary := None |} in
  {| primary := pl_primary final;
     breakdown :=
       sort_by (fun a b => ls_lines (snd b) - ls_lines (snd a))
         (pl_breakdown final);
     totalFiles := totalFiles;
     totalLines := totalLines |}.

Definition collect (repoPath : string) (root : list Entry) : Obj Stat :=
  walkDirectory onFile repoPath root [].

Definition detectLanguages (repoPath : string) (root : list Entry)
  : LanguageStats :=
  summarize (collect repoPath root).

End LanguageDetector.

(* ================================================================== *)
(** * router.js *)
(* ================================================================== *)

Module Router.

Import LanguageDetector.

Inductive Analyzer : Type := analyzePython | analyzeJavaScript | analyzeCpp.

(** The object literal [ANALYZERS]: a label bound to [null] and a label
    that is not a key (the lookup gives [undefined]) are both falsy in
    [if (analyzer)], and both are [None] here. *)
Definition ANALYZERS (lang : string) : option Analyzer :=
  if String.eqb lang "Python" then Some analyzePython
  else if String.eqb lang "JavaScript" then Some analyzeJavaScript
  else if String.eqb lang "TypeScript" then Some analyzeJavaScript
  else if String.eqb lang "C++" then Some analyzeCpp
  else if String.eqb lang "C" then Some analyzeCpp
  else if String.eqb lang "C/C++ Header" then None
  else if String.eqb lang "C++ Header" then None
  else None.

Definition SUPPORTED_LANGUAGES : list string :=
  [ "Python"; "JavaScript"; "TypeScript"; "C++"; "C" ].

(** What the router and the report read of an analyzer's result: its
    [score], [complexity.average] and [issues.length].  The three
    analyzers return larger objects; the fields nothing downstream reads
    are left out. *)
Record AnalysisResult : Type :=
  { score : Z; complexityAverage : float; issuesLength : Z }.

(** A value of [results.byLanguage]: an analyzer's result, or the object
    [{score: 50, error: error.message}] written by the [catch]. *)
Inductive LanguageEntry : Type :=
| Analysis (analysis : AnalysisResult)
| Degraded (degradedScore : Z) (error : string).

Definition entryScore (e : LanguageEntry) : Z :=
  match e with
  | Analysis a => score a
  | Degraded s _ => s
  end.

Record CodeAnalysis : Type :=
  { byLanguage : Obj LanguageEntry;
    overallScore : Z;
    analyzedLanguages : list string;
    message : option string }.

(** Lines 26-30. *)
Definition languagesToAnalyze (languageStats : LanguageStats)
  : list (string * LanguageStat) :=
  firstn 3
    (filter (fun e => (mem (fst e) SUPPORTED_LANGUAGES
                       && (percentage (snd e) >=? 5))%bool)
       (breakdown languageStats)).

(** State of the loop of lines 41-63. *)
Record Loop : Type :=
  { l_byLanguage : Obj LanguageEntry;
    l_analyzedLanguages : list string;
    l_totalWeight : Z;
    l_weightedScore : Z }.

Section RunAnalyzers.

(** [run lang analyzer] is the outcome of [await analyzer (repoPath)] in
    the iteration for [lang].  An analyzer reads the file system and may
    spawn tools; indexing the outcome by the language lets the two calls
    of a shared analyzer (JavaScript and TypeScript, C and C++) differ. *)
Variable run : string -> Analyzer -> Outcome AnalysisResult.

Definition analyzeStep (st : Loop) (e : string * LanguageStat) : Loop :=
  let (lang, data) := e in
  match ANALYZERS lang with
  | Some analyzer =>
      match run lang analyzer with
      | Returned analysis =>
          (* Weight by percentage of codebase *)
          let weight := percentage data in
          {| l_byLanguage := obj_set lang (Analysis analysis) (l_byLanguage st);
             l_analyzedLanguages := (l_analyzedLanguages st ++ [lang])%list;
             l_totalWeight := l_totalWeight st + weight;
             l_weightedScore := l_weightedScore st + score analysis * weight |}
      | Thrown error_message =>
          {| l_byLanguage :=
               obj_set lang (Degraded 50 error_message) (l_byLanguage st);
             l_analyzedLanguages := l_analyzedLanguages st;
             l_totalWeight := l_totalWeight st;
             l_weightedScore := l_weightedScore st |}
      end
  | None => st
  end.

Definition runAnalyzers (languageStats : LanguageStats) : CodeAnalysis :=
  let languages := languagesToAnalyze languageStats in
  if (Z.of_nat (List.length languages) =? 0) then
    {| byLanguage := [];
       overallScore := 50;   (* Default score if no supported languages *)
       analyzedLanguages := [];
       message := Some "No supported languages found with significant code" |}
  else
    let final :=
      fold_left analyzeStep languages
        {| l_byLanguage := []; l_analyzedLanguages := [];
           l_totalWeight := 0; l_weightedScore := 0 |} in
    {| byLanguage := l_byLanguage final;
       (* Calculate weighted average score *)
       overallScore :=
         if l_totalWeight final >? 0
         then Math_round
                (PrimFloat.div (Z2f (l_weightedScore final))
                               (Z2f (l_totalWeight final)))
         else 50;
       analyzedLanguages := l_analyzedLanguages final;
       message := None |}.

End RunAnalyzers.

End Router.

(* ================================================================== *)
(** * The analyzers: the complexity buckets and what is derived from them *)
(* ================================================================== *)

(** [complexity.distribution], the same object literal in the three
    analyzers. *)
Record Distribution : Type :=
  { low : Z; medium : Z; high : Z; veryHigh : Z }.

Definition emptyDistribution : Distribution :=
  {| low := 0; medium := 0; high := 0; veryHigh := 0 |}.

(** A number inside a template literal. *)
Definition numberToString (z : Z) : string :=
  NilZero.string_of_int (Z.to_int z).

(* ------------------------------------------------------------------ *)
(** ** cppAnalyzer.js *)

Module CppAnalyzer.

(** The fields of [result] that [categorizeComplexity] and the average of
    lines 85-93 read or write. *)
Record Result : Type :=
  { average : Z;
    max : Z;
    distribution : Distribution;
    functions : Z }.           (* result.metrics.functions *)

Definition initialResult : Result :=
  {| average := 0; max := 0; distribution := emptyDistribution;
     functions := 0 |}.

(** Lines 273-280. *)
Definition categorizeComplexity (complexity : Z) (result : Result) : Result :=
  let d := distribution result in
  let d' :=
    if complexity <=? 5 then
      {| low := low d + 1; medium := medium d; high := high d;
         veryHigh := veryHigh d |}
    else if complexity <=? 10 then
      {| low := low d; medium := medium d + 1; high := high d;
         veryHigh := veryHigh d |}
    else if complexity <=? 20 then
      {| low := low d; medium := medium d; high := high d + 1;
         veryHigh := veryHigh d |}
    else
      {| low := low d; medium := medium d; high := high d;
         veryHigh := veryHigh d + 1 |} in
  {| average := average result;
     max := Math_max (max result) complexity;
     distribution := d';
     functions := functions result |}.

(** Lines 85-93 of [analyzeCpp]: "Calculate complexity average". *)
Definition complexityAverage (result : Result) : Result :=
  if functions result >? 0 then
    let d := distribution result in
    let totalComplexity :=
      low d * 3 + medium d * 7 + high d * 15 + veryHigh d * 25 in
    {| average :=
         Math_round
           (PrimFloat.div (Z2f totalComplexity) (Z2f (functions result)));
       max := max result;
       distribution := d;
       functions := functions result |}
  else result.

(** Lines 238-246 of [analyzeFile], when a line starts a function body. *)
Definition countFunction (result : Result) : Result :=
  {| average := average result; max := max result;
     distribution := distribution result;
     functions := functions result + 1 |}.

(** *** The scan of one file (lines 132-271), as far as it counts
    functions and closes them

    The two tests of lines 239-240 and the test of line 250 are regular
    expressions over the trimmed line; they are parameters here. *)

Section Scan.

Variable looksLikeFunction : string -> bool.   (* lines 239-240 *)
Variable hasBranch : string -> bool.           (* line 250 *)

Record Scan : Type :=
  { inMultiLineComment : bool;
    braceDepth : Z;
    currentFunctionComplexity : Z;
    inFunction : bool;
    result : Result }.

Definition startScan (r : Result) : Scan :=
  {| inMultiLineComment := false; braceDepth := 0;
     currentFunctionComplexity := 1; inFunction := false; result := r |}.

(** One iteration of the loop of lines 165-263. *)
Definition scanLine (st : Scan) (line : string) : Scan :=
  let trimmed := trim line in
  (* Track multi-line comments *)
  let multi1 :=
    if (includes trimmed "/*" && negb (includes trimmed "*/"))%bool
    then true else inMultiLineComment st in
  let multi := if includes trimmed "*/" then false else multi1 in
  if (startsWith trimmed "//" || startsWith trimmed "/*" || multi)%bool then
    (* commentLines++; continue *)
    {| inMultiLineComment := multi; braceDepth := braceDepth st;
       currentFunctionComplexity := currentFunctionComplexity st;
       inFunction := inFunction st; result := result st |}
  else if negb (truthy trimmed) then
    {| inMultiLineComment := multi; braceDepth := braceDepth st;
       currentFunctionComplexity := currentFunctionComplexity st;
       inFunction := inFunction st; result := result st |}
  else
    (* Count functions (simplified detection) *)
    let starts :=
      (looksLikeFunction trimmed && negb (endsWith trimmed ";"))%bool in
    let r1 := if starts then countFunction (result st) else result st in
    let inF := if starts then true else inFunction st in
    let c1 := if starts then 1 else currentFunctionComplexity st in
    (* Track complexity *)
    if inF then
      let c2 := if hasBranch trimmed then c1 + 1 else c1 in
      let depth :=
        braceDepth st + count_char "{"%char trimmed
        - count_char "}"%char trimmed in
      if ((depth =? 0) && includes trimmed "}")%bool then
        {| inMultiLineComment := multi; braceDepth := depth;
           currentFunctionComplexity := 1; inFunction := false;
           result := categorizeComplexity c2 r1 |}
      else
        {| inMultiLineComment := multi; braceDepth := depth;
           currentFunctionComplexity := c2; inFunction := true;
           result := r1 |}
    else
      {| inMultiLineComment := multi; braceDepth := braceDepth st;
         currentFunctionComplexity := c1; inFunction := false;
         result := r1 |}.

(** [analyzeFile]: [None] is a file that cannot be read ("Skip unreadable
    files"). *)
Definition analyzeFile (r : Result) (file : option string) : Result :=
  match file with
  | Some content =>
      result (fold_left scanLine (split_lines content) (startScan r))
  | None => r
  end.

(** [analyzeCpp], lines 75-93: the source files, then the headers, then
    the average. *)
Definition analyzeCpp (cppFiles headerFiles : list (option string)) : Result :=
  complexityAverage
    (fold_left analyzeFile headerFiles
       (fold_left analyzeFile cppFiles initialResult)).

End Scan.

End CppAnalyzer.

(* ------------------------------------------------------------------ *)
(** ** javascriptAnalyzer.js *)

Module JavaScriptAnalyzer.

Record Result : Type :=
  { average : Z;
    max : Z;
    distribution : Distribution;
    functions : Z;             (* result.metrics.functions *)
    arrowFunctions : Z }.      (* result.metrics.arrowFunctions *)

(** Lines 246-253. *)
Definition categorizeComplexity (complexity : Z) (result : Result) : Result :=
  let d := distribution result in
  let d' :=
    if complexity <=? 5 then
      {| low := low d + 1; medium := medium d; high := high d;
         veryHigh := veryHigh d |}
    else if complexity <=? 10 then
      {| low := low d; medium := medium d + 1; high := high d;
         veryHigh := veryHigh d |}
    else if complexity <=? 20 then
      {| low := low d; medium := medium d; high := high d + 1;
         veryHigh := veryHigh d |}
    else
      {| low := low d; medium := medium d; high := high d;
         veryHigh := veryHigh d + 1 |} in
  {| average := average result;
     max := Math_max (max result) complexity;
     distribution := d';
     functions := functions result;
     arrowFunctions := arrowFunctions result |}.

(** Lines 67-76 of [analyzeJavaScript]. *)
Definition complexityAverage (result : Result) : Result :=
  let totalFunctions := functions result + arrowFunctions result in
  if totalFunctions >? 0 then
    let d := distribution result in
    {| average :=
         Math_round
           (PrimFloat.div
              (Z2f (low d * 2 + medium d * 7 + high d * 15 + veryHigh d * 25))
              (Z2f totalFunctions));
       max := max result;
       distribution := d;
       functions := functions result;
       arrowFunctions := arrowFunctions result |}
  else result.

End JavaScriptAnalyzer.

(* ------------------------------------------------------------------ *)
(** ** pythonAnalyzer.js *)

Module PythonAnalyzer.

Record Issue : Type :=
  { issueType : string; severity : string; issueMessage : string;
    issueFile : string; issueLine : Z }.

Record StyleIssue : Type :=
  { styleType : string; styleMessage : string; styleFile : string;
    styleLine : Z; styleSymbol : string }.

(** The fields of [result] that [analyzeComplexity] and [analyzeStyle]
    read or write. *)
Record Result : Type :=
  { average : float;                       (* complexity.average *)
    max : Z;                               (* complexity.max *)
    distribution : Distribution;           (* complexity.distribution *)
    complexityError : option string;       (* complexity.error *)
    styleScore : Z;                        (* style.score *)
    styleIssues : list StyleIssue;         (* style.issues *)
    styleCounts : option (Obj Z);          (* style.counts *)
    styleError : option string;            (* style.error *)
    functions : Z;                         (* metrics.functions *)
    issues : list Issue }.

Definition initialResult : Result :=
  {| average := 0; max := 0; distribution := emptyDistribution;
     complexityError := None; styleScore := 0; styleIssues := [];
     styleCounts := None; styleError := None; functions := 0;
     issues := [] |}.

(** *** analyzeComplexity (lines 68-117) *)

(** One entry of radon's JSON. *)
Record RadonFunction : Type :=
  { complexity : Z; name : string; lineno : Z }.

(** Lines 88-92: "Categorize complexity". *)
Definition categorize (c : Z) (d : Distribution) : Distribution :=
  if c <=? 5 then
    {| low := low d + 1; medium := medium d; high := high d;
       veryHigh := veryHigh d |}
  else if c <=? 10 then
    {| low := low d; medium := medium d + 1; high := high d;
       veryHigh := veryHigh d |}
  else if c <=? 20 then
    {| low := low d; medium := medium d; high := high d + 1;
       veryHigh := veryHigh d |}
  else
    {| low := low d; medium := medium d; high := high d;
       veryHigh := veryHigh d + 1 |}.

Record ComplexityLoop : Type :=
  { totalComplexity : Z;
    functionCount : Z;
    maxComplexity : Z;
    loopDistribution : Distribution;
    loopIssues : list Issue }.

(** The body of the inner loop (lines 83-104), for a function of [file]. *)
Definition complexityStep (file : string) (st : ComplexityLoop)
  (func : RadonFunction) : ComplexityLoop :=
  let c := complexity func in
  {| totalComplexity := totalComplexity st + c;
     functionCount := functionCount st + 1;
     maxComplexity := Math_max (maxComplexity st) c;
     loopDistribution := categorize c (loopDistribution st);
     loopIssues :=
       (* Flag high complexity functions *)
       if c >? 15 then
         (loopIssues st ++
          [ {| issueType := "complexity";
               severity := if c >? 25 then "high" else "medium";
               issueMessage :=
                 "High complexity (" ++ numberToString c ++ ") in "
                 ++ name func;
               issueFile := basename file;
               issueLine := lineno func |} ])%list
       else loopIssues st |}.


(** *** analyzeStyle (lines 119-169) *)

(** How the promise of [execAsync] settles: it resolves with the two
    streams, or rejects (the command is missing, exits with a non-zero
    status, is killed by the time-out) with an error that carries what
    was captured of them, if anything. *)
Inductive Exec : Type :=
| Resolved (stdout stderr : string)
| Rejected (e_stdout e_stderr : option string).

(** One entry of pylint's JSON. *)
Record PylintIssue : Type :=
  { p_type : string; p_message : string; p_path : string; p_line : Z;
    p_symbol : string }.

(** Lines 122-125: the promise with its
    [.catch (e => ({stdout: e.stdout || '[]', stderr: e.stderr}))]. *)
Definition execCaught (r : Exec) : Outcome (string * option string) :=
  match r with
  | Resolved stdout stderr => Returned (stdout, Some stderr)
  | Rejected e_stdout e_stderr =>
      Returned
        (match e_stdout with
         | Some s => if truthy s then s else "[]"
         | None => "[]"
         end,
         e_stderr)
  end.

Definition setStyle (result : Result) (sc : Z) (si : list StyleIssue)
  (counts : option (Obj Z)) (err : option string) : Result :=
  {| average := average result; max := max result;
     distribution := distribution result;
     complexityError := complexityError result;
     styleScore := sc; styleIssues := si; styleCounts := counts;
     styleError := err;
     functions := functions result; issues := issues result |}.

Definition count (counts : Obj Z) (key : string) : Z :=
  match obj_get key counts with Some n => n | None => 0 end.

(** The body of the loop of lines 134-148. *)
Definition styleStep (st : Obj Z * list StyleIssue) (issue : PylintIssue)
  : Obj Z * list StyleIssue :=
  let (counts, kept) := st in
  let counts' := obj_set (p_type issue) (count counts (p_type issue) + 1) counts in
  (* Store first 10 significant issues *)
  if ((Z.of_nat (List.length kept) <? 10)
      && (String.eqb (p_type issue) "error"
          || String.eqb (p_type issue) "warning"))%bool
  then (counts',
        (kept ++ [ {| styleType := p_type issue;
                      styleMessage := p_message issue;
                      styleFile := basename (p_path issue);
                      styleLine := p_line issue;
                      styleSymbol := p_symbol issue |} ])%list)
  else (counts', kept).

(** Lines 150-157: "Calculate style score (start at 100, deduct points)". *)
Definition styleScoreOf (counts : Obj Z) : Z :=
  let s0 := 100%float in
  let s1 := PrimFloat.sub s0 (PrimFloat.mul (Z2f (count counts "error")) 5) in
  let s2 := PrimFloat.sub s1 (PrimFloat.mul (Z2f (count counts "warning")) 2) in
  let s3 :=
    PrimFloat.sub s2 (PrimFloat.mul (Z2f (count counts "convention")) 0.5) in
  let s4 := PrimFloat.sub s3 (PrimFloat.mul (Z2f (count counts "refactor")) 1) in
  Math_max 0 (Math_min 100 (Math_round s4)).

Section AnalyzeStyle.

(** [JSON.parse (stdout)] followed by the loop over its entries: [Thrown]
    when the text is not JSON or not a list of pylint messages. *)
Variable parseIssues : string -> Outcome (list PylintIssue).

Definition analyzeStyle (pylint : Exec) (result : Result) : Result :=
  match execCaught pylint with
  | Returned (stdout, _) =>
      if (truthy stdout && truthy (trim stdout)
          && negb (String.eqb (trim stdout) "[]"))%bool
      then
        match parseIssues stdout with
        | Returned pylintIssues =>
            let '(counts, kept) :=
              fold_left styleStep pylintIssues
                ([ ("error", 0); ("warning", 0); ("convention", 0);
                   ("refactor", 0) ],
                 styleIssues result) in
            setStyle result (styleScoreOf counts) kept (Some counts)
              (styleError result)
        | Thrown _ =>
            (* Default if parsing fails *)
            setStyle result 70 (styleIssues result) (styleCounts result)
              (styleError result)
        end
      else
        (* Good score if no issues *)
        setStyle result 85 (styleIssues result) (styleCounts result)
          (styleError result)
  | Thrown _ =>
      (* Default score *)
      setStyle result 70 (styleIssues result) (styleCounts result)
        (Some "Style analysis limited")
  end.

End AnalyzeStyle.

End PythonAnalyzer.

(* ================================================================== *)
(** * projectAnalyzer.js *)
(* ================================================================== *)

Module ProjectAnalyzer.

Import LanguageDetector.

Record ProjectMetrics : Type :=
  { hasReadme : bool;
    readmeQuality : Z;
    hasLicense : bool;
    hasTests : bool;
    hasCI : bool;
    hasDocker : bool;
    hasPackageManager : bool;
    hasDocs : bool;
    structureScore : Z;
    score : Z }.

Definition find_entry (name : string) (dir : list Entry) : option Entry :=
  find (fun e => String.eqb (entry_name e) name) dir.

Definition count_if {A : Type} (f : A -> bool) (l : list A) : Z :=
  Z.of_nat (List.length (filter f l)).

(** Lines 550-584. *)
Definition analyzeStructure (files : list string) : Z :=
  let score0 := 50 in
  (* Has source directory *)
  let srcDirs := [ "src"; "lib"; "app"; "source"; "core" ] in
  let score1 :=
    if existsb (fun f => mem (toLowerCase f) srcDirs) files
    then score0 + 15 else score0 in
  (* Has config files organized *)
  let configFiles :=
    count_if (fun f => endsWith f ".json" || endsWith f ".yml"
                       || endsWith f ".yaml" || endsWith f ".toml"
                       || endsWith f ".ini" || startsWith f ".")%bool files in
  let score2 :=
    if ((configFiles >? 0) && (configFiles <? 10))%bool
    then score1 + 10 else score1 in
  (* Not too many files in root *)
  let rootFiles := count_if (fun f => negb (startsWith f ".")) files in
  let score3 :=
    if rootFiles <=? 15 then score2 + 10
    else if rootFiles >? 30 then score2 - 15 else score2 in
  (* Has meaningful directory structure *)
  let meaningfulDirs :=
    count_if
      (fun f => mem (toLowerCase f)
                  [ "src"; "lib"; "test"; "tests"; "docs"; "scripts"; "utils";
                    "helpers"; "components"; "models"; "views";
                    "controllers" ]) files in
  let score4 := score3 + Math_min 15 (meaningfulDirs * 5) in
  Math_max 0 (Math_min 100 score4).

(** Lines 586-613. *)
Definition calculateProjectScore (hasReadme : bool) (readmeQuality : Z)
  (hasLicense hasTests hasCI hasDocker hasPackageManager : bool)
  (structureScore : Z) : Z :=
  let s0 := 0 in
  let s1 :=
    if hasReadme
    then s0 + Math_round (PrimFloat.mul (Z2f readmeQuality) 0.25) else s0 in
  let s2 := if hasLicense then s1 + 10 else s1 in
  let s3 := if hasTests then s2 + 20 else s2 in
  let s4 := if hasCI then s3 + 15 else s3 in
  let s5 := if hasDocker then s4 + 5 else s4 in
  let s6 := if hasPackageManager then s5 + 10 else s5 in
  let s7 := s6 + Math_round (PrimFloat.mul (Z2f structureScore) 0.15) in
  Math_min 100 s7.

(** The body of the [try] block of [analyzeReadme] (lines 439-478), on
    the text of a README that could be read.  The word count
    [content.split (/\s+/).length] and the two regular expressions of
    lines 452 and 476 (a title line, a link) are parameters. *)
Section ReadmePoints.

Variable wordCount : string -> Z.
Variable hasTitle : string -> bool.
Variable hasLink : string -> bool.


End ReadmePoints.

Section AnalyzeProject.

(** The score [analyzeReadme] gives to the text of a README it could
    read (lines 440-478: word count and regular expressions). *)
Variable readmeScore : string -> Z.

(** Lines 509-518 on the text of [package.json]: whether it parses and
    declares a test script or a test framework. *)
Variable packageDeclaresTests : string -> bool.

(** Lines 437-482. *)
Definition analyzeReadme (e : Entry) : Z :=
  match e with
  | File _ (Some d) => readmeScore (content d)
  | _ => 0
  end.

Definition readable (name : string) (root : list Entry) : option string :=
  match find_entry name root with
  | Some (File _ (Some d)) => Some (content d)
  | _ => None
  end.

(** Lines 484-530. *)
Definition checkForTests (root : list Entry) (files : list string) : bool :=
  let testIndicators :=
    [ "test"; "tests"; "spec"; "specs"; "__tests__"; "test.py"; "test.js" ] in
  if existsb
       (fun file =>
          existsb (fun t => includes (toLowerCase file) t) testIndicators)
       files
  then true
  else if match find_entry "src" root with
          | Some (Dir _ srcFiles) =>
              existsb (fun e => includes (toLowerCase (entry_name e)) "test")
                srcFiles
          | _ => false
          end
  then true
  else if match readable "package.json" root with
          | Some text => packageDeclaresTests text
          | None => false
          end
  then true
  else match readable "setup.py" root with
       | Some setupPy => (includes setupPy "pytest"
                          || includes setupPy "unittest")%bool
       | None => false
       end.

(** Lines 532-548. *)
Definition checkForCI (root : list Entry) (files : list string) : bool :=
  if match find_entry ".github" root with
     | Some (Dir _ es) =>
         match find_entry "workflows" es with Some _ => true | None => false end
     | _ => false
     end
  then true
  else
    let ciFiles :=
      [ ".travis.yml"; ".circleci"; "Jenkinsfile"; "azure-pipelines.yml";
        ".gitlab-ci.yml"; "bitbucket-pipelines.yml"; ".drone.yml";
        "appveyor.yml"; ".github" ] in
    existsb
      (fun f =>
         existsb (fun ci => includes (toLowerCase f) (toLowerCase ci)) ciFiles)
      files.

(** Lines 376-435; [root] is the listing of [repoPath], which exists. *)
Definition analyzeProject (root : list Entry) : ProjectMetrics :=
  let files := map entry_name root in
  let filesLower := map toLowerCase files in
  (* Check README *)
  let readmeFile :=
    find (fun e => startsWith (toLowerCase (entry_name e)) "readme") root in
  let hasReadme := match readmeFile with Some _ => true | None => false end in
  let readmeQuality :=
    match readmeFile with Some e => analyzeReadme e | None => 0 end in
  let hasLicense :=
    existsb (fun f => includes f "license" || includes f "licence"
                      || String.eqb f "copying")%bool filesLower in
  let hasTests := checkForTests root files in
  let hasCI := checkForCI root files in
  let hasDocker :=
    existsb (fun f => mem f [ "dockerfile"; "docker-compose.yml";
                              "docker-compose.yaml" ]) filesLower in
  let hasPackageManager :=
    existsb (fun f => mem f [ "package.json"; "requirements.txt";
                              "pyproject.toml"; "cargo.toml"; "go.mod";
                              "pom.xml"; "build.gradle"; "gemfile";
                              "composer.json"; "cmakelists.txt" ]) filesLower in
  let hasDocs :=
    existsb (fun f => mem (toLowerCase f) [ "docs"; "documentation" ]) files in
  let structureScore := analyzeStructure files in
  {| hasReadme := hasReadme;
     readmeQuality := readmeQuality;
     hasLicense := hasLicense;
     hasTests := hasTests;
     hasCI := hasCI;
     hasDocker := hasDocker;
     hasPackageManager := hasPackageManager;
     hasDocs := hasDocs;
     structureScore := structureScore;
     score :=
       calculateProjectScore hasReadme readmeQuality hasLicense hasTests
         hasCI hasDocker hasPackageManager structureScore |}.

End AnalyzeProject.

End ProjectAnalyzer.

(* ================================================================== *)
(** * ingestion.js *)
(* ================================================================== *)

Module Ingestion.

Import LanguageDetector.

Inductive Grade : Type :=
| A_plus | A | A_minus | B_plus | B | B_minus | C_plus | C | C_minus | D | F.

(** The string the source returns. *)
Definition gradeLabel (g : Grade) : string :=
  match g with
  | A_plus => "A+" | A => "A" | A_minus => "A-"
  | B_plus => "B+" | B => "B" | B_minus => "B-"
  | C_plus => "C+" | C => "C" | C_minus => "C-"
  | D => "D" | F => "F"
  end.

(** Lines 70-82. *)
Definition scoreToGrade (score : Z) : Grade :=
  if score >=? 90 then A_plus
  else if score >=? 85 then A
  else if score >=? 80 then A_minus
  else if score >=? 75 then B_plus
  else if score >=? 70 then B
  else if score >=? 65 then B_minus
  else if score >=? 60 then C_plus
  else if score >=? 55 then C
  else if score >=? 50 then C_minus
  else if score >=? 40 then D
  else F.

(** Lines 84-109. *)
Definition generateSummary (score : Z)
  (projectMetrics : ProjectAnalyzer.ProjectMetrics)
  (codeAnalysis : Router.CodeAnalysis) : string :=
  let s0 :=
    if score >=? 80 then
      "This repository demonstrates strong software engineering practices. "
    else if score >=? 60 then
      "This repository shows competent development skills with room for improvement. "
    else if score >=? 40 then
      "This repository meets basic standards but needs significant improvements. "
    else
      "This repository requires substantial work to meet professional standards. " in
  let s1 :=
    if ProjectAnalyzer.hasTests projectMetrics
    then s0 ++ "Test coverage is present. " else s0 in
  let s2 :=
    if (ProjectAnalyzer.hasReadme projectMetrics
        && (ProjectAnalyzer.readmeQuality projectMetrics >=? 70))%bool
    then s1 ++ "Documentation is well-maintained. " else s1 in
  let s3 :=
    if Router.overallScore codeAnalysis >=? 75
    then s2 ++ "Code quality is above average." else s2 in
  trim s3.

Definition push_if (c : bool) (x : string) (l : list string) : list string :=
  if c then (l ++ [x])%list else l.

(** Lines 111-129. *)
Definition identifyStrengths
  (projectMetrics : ProjectAnalyzer.ProjectMetrics)
  (codeAnalysis : Router.CodeAnalysis) : list string :=
  let s1 := push_if (ProjectAnalyzer.readmeQuality projectMetrics >=? 80)
              "Excellent documentation" [] in
  let s2 := push_if (ProjectAnalyzer.hasTests projectMetrics)
              "Includes test suite" s1 in
  let s3 := push_if (ProjectAnalyzer.hasCI projectMetrics)
              "CI/CD configured" s2 in
  let s4 := push_if (ProjectAnalyzer.hasLicense projectMetrics)
              "Properly licensed" s3 in
  let s5 := push_if (ProjectAnalyzer.structureScore projectMetrics >=? 80)
              "Well-organized file structure" s4 in
  let s6 := push_if (Router.overallScore codeAnalysis >=? 80)
              "High code quality" s5 in
  let strengths :=
    fold_left
      (fun acc e =>
         push_if (Router.entryScore (snd e) >=? 85)
           ("Strong " ++ fst e ++ " implementation") acc)
      (Router.byLanguage codeAnalysis) s6 in
  if Z.of_nat (List.length strengths) >? 0 then strengths
  else [ "Repository analyzed successfully" ].

(** Lines 131-153. *)
Definition identifyImprovements
  (projectMetrics : ProjectAnalyzer.ProjectMetrics)
  (codeAnalysis : Router.CodeAnalysis) : list string :=
  let i1 :=
    if negb (ProjectAnalyzer.hasReadme projectMetrics)
    then [ "Add a README file" ]
    else if ProjectAnalyzer.readmeQuality projectMetrics <? 50
         then [ "Improve README documentation" ] else [] in
  let i2 := push_if (negb (ProjectAnalyzer.hasTests projectMetrics))
              "Add unit tests" i1 in
  let i3 := push_if (negb (ProjectAnalyzer.hasLicense projectMetrics))
              "Add a license file" i2 in
  let i4 := push_if (negb (ProjectAnalyzer.hasCI projectMetrics))
              "Set up CI/CD pipeline" i3 in
  let i5 := push_if (ProjectAnalyzer.structureScore projectMetrics <? 50)
              "Improve project organization" i4 in
  let improvements :=
    fold_left
      (fun acc e =>
         match snd e with
         | Router.Analysis a =>
             let acc1 :=
               push_if (PrimFloat.ltb 15 (Router.complexityAverage a))
                 ("Reduce complexity in " ++ fst e ++ " code") acc in
             push_if (Router.issuesLength a >? 5)
               ("Address code quality issues in " ++ fst e) acc1
         | Router.Degraded _ _ => acc
         end)
      (Router.byLanguage codeAnalysis) i5 in
  firstn 5 improvements.   (* Top 5 improvements *)

Record Report : Type :=
  { repoUrl : string;
    analyzedAt : string;
    overallScore : Z;
    grade : Grade;
    summary : string;
    languages : LanguageStats;
    projectMetrics : ProjectAnalyzer.ProjectMetrics;
    codeAnalysis : Router.CodeAnalysis;
    strengths : list string;
    improvements : list string }.

(** Lines 48-68; [now] is [new Date().toISOString()]. *)
Definition compileReport (now : string) (repoUrl : string)
  (languageStats : LanguageStats)
  (projectMetrics : ProjectAnalyzer.ProjectMetrics)
  (codeAnalysis : Router.CodeAnalysis) : Report :=
  (* Calculate overall score (weighted average) *)
  let projectScore := ProjectAnalyzer.score projectMetrics in
  let codeScore := Router.overallScore codeAnalysis in
  (* Weight: 40% project quality, 60% code quality *)
  let overallScore :=
    Math_round
      (PrimFloat.add (PrimFloat.mul (Z2f projectScore) 0.4)
                     (PrimFloat.mul (Z2f codeScore) 0.6)) in
  {| repoUrl := repoUrl;
     analyzedAt := now;
     overallScore := overallScore;
     grade := scoreToGrade overallScore;
     summary := generateSummary overallScore projectMetrics codeAnalysis;
     languages := languageStats;
     projectMetrics := projectMetrics;
     codeAnalysis := codeAnalysis;
     strengths := identifyStrengths projectMetrics codeAnalysis;
     improvements := identifyImprovements projectMetrics codeAnalysis |}.

Section AnalyzeRepo.

(** The environment of one run: what [git.clone (repoUrl, clonePath,
    ['--depth', '1'])] leaves at [clonePath] (or the error it throws), the
    analyzers' outcomes there, the two text oracles of the project
    analyzer, and the clock. *)
Variable clone : string -> Outcome (list Entry).
Variable clonePath : string.
Variable run : string -> Router.Analyzer -> Outcome Router.AnalysisResult.
Variable readmeScore : string -> Z.
Variable packageDeclaresTests : string -> bool.
Variable now : string.

(** Lines 11-46.  The [finally] block removes the clone and swallows its
    own errors; it changes neither the report nor the error. *)
Definition analyzeRepo (repoUrl : string) : Outcome Report :=
  (* Step 1: Clone the repository *)
  match clone repoUrl with
  | Thrown e => Thrown e
  | Returned root =>
      (* Step 2: Detect languages *)
      let languageStats := detectLanguages clonePath root in
      (* Step 3: Analyze project-level metrics *)
      let projectMetrics :=
        ProjectAnalyzer.analyzeProject readmeScore packageDeclaresTests root in
      (* Step 4: Run language-specific analyzers *)
      let codeAnalysis := Router.runAnalyzers run languageStats in
      (* Compile final report *)
      Returned
        (compileReport now repoUrl languageStats projectMetrics codeAnalysis)
  end.

End AnalyzeRepo.

End Ingestion.

(* ================================================================== *)
(** * githubFetcher.js: the file filter of the API based provider *)
(* ================================================================== *)

Module GithubFetcher.

Definition SKIP_DIRS : list string :=
  [ "node_modules"; ".git"; "dist"; "build"; "vendor"; "__pycache__";
    ".env"; ".venv"; "venv"; "env"; ".idea"; ".vscode"; "coverage";
    ".nyc_output"; "bower_components"; ".next"; ".nuxt"; "target";
    "packages"; ".cache"; ".temp"; "tmp"; ".tmp" ].

Definition ALLOWED_EXTENSIONS : list string :=
  [ ".py"; ".js"; ".ts"; ".jsx"; ".tsx"; ".cpp"; ".c"; ".h"; ".hpp";
    ".cc"; ".cxx"; ".hxx"; ".pyw" ].

Definition CONFIG_FILES : list string :=
  [ "package.json"; "requirements.txt"; "pyproject.toml"; "setup.py";
    "cmakelists.txt"; "makefile"; "dockerfile"; "docker-compose.yml";
    "docker-compose.yaml"; ".eslintrc"; ".eslintrc.json"; ".eslintrc.js";
    ".prettierrc"; ".prettierrc.json"; "tsconfig.json"; "jest.config.js";
    ".travis.yml"; ".gitlab-ci.yml"; "readme.md"; "readme.txt"; "readme";
    "license"; "license.md"; "license.txt"; "copying" ].

Definition SKIP_EXTENSIONS : list string :=
  [ ".png"; ".jpg"; ".jpeg"; ".gif"; ".ico"; ".svg"; ".webp"; ".bmp";
    ".mp4"; ".mp3"; ".wav"; ".avi"; ".mov"; ".webm"; ".ogg";
    ".pdf"; ".doc"; ".docx"; ".xls"; ".xlsx"; ".ppt"; ".pptx";
    ".zip"; ".tar"; ".gz"; ".rar"; ".7z"; ".exe"; ".dll"; ".so";
    ".dylib"; ".bin"; ".dat"; ".db"; ".sqlite"; ".woff"; ".woff2";
    ".ttf"; ".eot"; ".otf"; ".map"; ".min.js"; ".min.css";
    ".lock"; ".log" ].

Definition MAX_FILE_SIZE : Z := 1024 * 1024.
Definition MAX_FILES : nat := 500.

(** An item of the tree the GitHub API returns. *)
Record TreeItem : Type :=
  { path : string; type : string; size : option Z }.

Definition sizeOrZero (item : TreeItem) : Z :=
  match size item with Some n => n | None => 0 end.

(** The body of the loop of lines 236-276: whether the item is kept. *)
Definition keeps (item : TreeItem) : bool :=
  (* Skip if not a file (blob) *)
  if negb (String.eqb (type item) "blob") then false
  else
    let filePath := path item in
    let fileName := toLowerCase (basename filePath) in
    let ext := toLowerCase (extname filePath) in
    let dirParts := split_on "/"%char (dirname filePath) in
    (* Skip if file is too large (GitHub API provides size) *)
    if sizeOrZero item >? MAX_FILE_SIZE then false
    (* Skip files in ignored directories *)
    else if existsb (fun dir => mem (toLowerCase dir) SKIP_DIRS) dirParts
    then false
    (* Skip binary/media files *)
    else if mem ext SKIP_EXTENSIONS then false
    (* Include config files always *)
    else if mem fileName CONFIG_FILES then true
    (* Include only allowed extensions for analysis *)
    else if mem ext ALLOWED_EXTENSIONS then true
    (* Include some other useful files (YAML configs, shell scripts) *)
    else mem ext [ ".yml"; ".yaml"; ".json"; ".md"; ".sh"; ".bash" ].

(** Lines 233-287. *)
Definition filterFiles (tree : list TreeItem) : list TreeItem :=
  let files := filter keeps tree in
  (* Sort by size (smallest first) and limit total files *)
  let sorted := sort_by (fun a b => sizeOrZero a - sizeOrZero b) files in
  if Nat.ltb MAX_FILES (List.length sorted) then firstn MAX_FILES sorted
  else sorted.

(** Lines 377-383 of [fetchRepository]: the files to download, or the
    error thrown (and rethrown by the [catch] of line 412 after the
    clean-up) when the filter leaves none. *)
Definition filesToDownload (tree : list TreeItem) : Outcome (list TreeItem) :=
  let files := filterFiles tree in
  if Z.of_nat (List.length files) =? 0
  then Thrown "No analyzable files found in repository"
  else Returned files.

(** *** parseGitHubUrl (lines 66-85) *)

(** [[^\/]] and [[^\/\?#]]. *)
Definition notSlash (c : ascii) : bool := negb (Ascii.eqb c "/").

Definition repoChar (c : ascii) : bool :=
  negb (Ascii.eqb c "/" || Ascii.eqb c "?" || Ascii.eqb c "#").

(** A match of [host ([^\/]+) \/ ([^\/\?#]+)] that starts where [s]
    starts, [host] being [github.com/] or [github.com:]: its two groups.
    The first group is greedy and must be followed by a slash, which it
    cannot hold: it is the whole run of characters up to the next slash.
    The second group ends the pattern and takes all it can. *)
Definition matchHere (host s : string) : option (string * string) :=
  match after host s with
  | Some rest =>
      let (owner, more) := span notSlash rest in
      match owner, after "/" more with
      | String _ _, Some more' =>
          let (repo, _) := span repoChar more' in
          match repo with
          | String _ _ => Some (owner, repo)
          | EmptyString => None
          end
      | _, _ => None
      end
  | None => None
  end.

(** [url.match (pattern)] without the [g] flag: the leftmost match. *)
Fixpoint matchFirst (host s : string) : option (string * string) :=
  match matchHere host s with
  | Some groups => Some groups
  | None =>
      match s with
      | EmptyString => None
      | String _ r => matchFirst host r
      end
  end.

(** [repo.replace (/\.git$/, '')]: "Remove .git suffix if present". *)
Definition stripGit (repo : string) : string :=
  if endsWith repo ".git"
  then String.substring 0 (String.length repo - 4) repo
  else repo.

Record Repository : Type := { owner : string; repo : string }.

Definition parseGitHubUrl (url : string) : Outcome Repository :=
  match matchFirst "github.com/" url with
  | Some (o, r) => Returned {| owner := o; repo := stripGit r |}
  | None =>
      match matchFirst "github.com:" url with
      | Some (o, r) => Returned {| owner := o; repo := stripGit r |}
      | None => Thrown "Invalid GitHub URL format"
      end
  end.

(** *** requestWithRetry (lines 137-184) *)

Definition MAX_RETRIES : nat := 3.
Definition BASE_RETRY_DELAY : Z := 1000.

(** What [requestWithRetry] reads of a response of [httpsRequest]: the
    status, and the two rate-limit numbers ([parseInt] of the header or
    of its default, taken here to be an integer). *)
Record Response : Type :=
  { statusCode : Z; data : string; remaining : Z; reset : Z }.

(** How the promise settles: with a response, or rejected with
    [lastError], an error of the given message or, when no error was
    ever caught, [undefined]. *)
Inductive Settled : Type :=
| Fulfilled (response : Response)
| RejectedWith (lastError : option string).

(** The requests made so far and the delays slept, in milliseconds. *)
Record Effects : Type := { requests : nat; sleeps : list Z }.

Definition slept (ms : Z) (st : Effects) : Effects :=
  {| requests := requests st; sleeps := (sleeps st ++ [ms])%list |}.

Section RequestWithRetry.

(** [httpsRequest n] is how the request of attempt [n] settles, [now n]
    what [Date.now ()] reads during that attempt, [toISOString] the
    formatting of a date. *)
Variable httpsRequest : nat -> Outcome Response.
Variable now : nat -> Z.
Variable toISOString : Z -> string.
Variable retries : nat.

(** The iterations of the loop from [attempt] on; [left] of them remain
    ([attempt <= retries] holds as long as [left] is not 0). *)
Fixpoint attempts (left attempt : nat) (lastError : option string)
  (st : Effects) : Settled * Effects :=
  match left with
  | O => (RejectedWith lastError, st)          (* throw lastError *)
  | S left' =>
      let st1 := {| requests := S (requests st); sleeps := sleeps st |} in
      (* the catch block *)
      let caught (message : string) :=
        attempts left' (S attempt) (Some message)
          (if Nat.ltb attempt retries
           then slept (BASE_RETRY_DELAY * 2 ^ Z.of_nat attempt) st1
           else st1) in
      match httpsRequest attempt with
      | Thrown message => caught message
      | Returned response =>
          (* Handle rate limiting *)
          if ((statusCode response =? 403)
              && (remaining response =? 0))%bool then
            let resetTime := reset response * 1000 in
            let waitTime := Math_max 0 (resetTime - now attempt) in
            if waitTime >? 60000 then
              caught ("GitHub API rate limit exceeded. Resets at "
                      ++ toISOString resetTime
                      ++ ". Please try again later or use a GitHub token.")
            else
              (* sleep, then continue *)
              attempts left' (S attempt) lastError (slept (waitTime + 1000) st1)
          (* Handle other errors *)
          else if statusCode response =? 404 then
            caught "Repository not found or is private"
          else if statusCode response >=? 400 then
            caught ("GitHub API error: " ++ numberToString (statusCode response))
          else (Fulfilled response, st1)
      end
  end.

Definition requestWithRetry : Settled * Effects :=
  attempts (S retries) 0 None {| requests := 0; sleeps := [] |}.

End RequestWithRetry.

(** *** downloadFilesInBatches (lines 318-347) *)

Definition BATCH_SIZE : nat := 10.

Record Progress : Type := { downloaded : Z; failed : Z }.

Section Download.

(** Whether [downloadFile] returns [true] for a file: it never throws. *)
Variable downloadFile : TreeItem -> bool.

(** The body of the function mapped over a batch.  The promises of a
    batch run interleaved; each adds one to a counter after its own
    download, so the counts do not depend on the order in which they
    end, taken here to be the order of the batch. *)
Definition settle (st : Progress) (file : TreeItem) : Progress :=
  if downloadFile file
  then {| downloaded := downloaded st + 1; failed := failed st |}
  else {| downloaded := downloaded st; failed := failed st + 1 |}.

(** The loop of lines 324-344 from index [i] on, for at most [fuel]
    iterations; [files.slice (i, i + BATCH_SIZE)] is the batch. *)
Fixpoint batches (fuel : nat) (files : list TreeItem) (i : nat)
  (st : Progress) : Progress :=
  match fuel with
  | O => st
  | S fuel' =>
      if Nat.ltb i (List.length files) then
        let batch := firstn BATCH_SIZE (skipn i files) in
        batches fuel' files (i + BATCH_SIZE) (fold_left settle batch st)
      else st
  end.

(** Every iteration moves [i] forward, so [files.length] iterations are
    enough. *)
Definition downloadFilesInBatches (files : list TreeItem) : Progress :=
  batches (List.length files) files 0 {| downloaded := 0; failed := 0 |}.

End Download.

End GithubFetcher.

(* ================================================================== *)
(** * server.js: the analysis endpoint *)
(* ================================================================== *)

Module Server.

(** [\w], [[\w-]] and [[\w.-]]. *)
Definition wordChar (c : ascii) : bool :=
  let n := nat_of_ascii c in
  (Nat.leb 48 n && Nat.leb n 57 || Nat.leb 65 n && Nat.leb n 90
   || Nat.leb 97 n && Nat.leb n 122 || Nat.eqb n 95)%bool.

Definition ownerChar (c : ascii) : bool := (wordChar c || Ascii.eqb c "-")%bool.

Definition nameChar (c : ascii) : bool :=
  (wordChar c || Ascii.eqb c "." || Ascii.eqb c "-")%bool.

(** An optional literal: it is read when it is there.  (In the pattern
    below what follows an optional part cannot start as that part does,
    so skipping a part that is there never leads to a match.) *)
Definition optional (p s : string) : string :=
  match after p s with Some r => r | None => s end.

(** [githubRegex.test (repoUrl)], for the pattern
    [^https?:\/\/(www\.)?github\.com\/[\w-]+\/[\w.-]+\/?$]. *)
Definition githubRegex (repoUrl : string) : bool :=
  match after "http" repoUrl with
  | Some r0 =>
      match after "://" (optional "s" r0) with
      | Some r1 =>
          match after "github.com/" (optional "www." r1) with
          | Some r2 =>
              let (owner, r3) := span ownerChar r2 in
              match owner, after "/" r3 with
              | String _ _, Some r4 =>
                  let (name, r5) := span nameChar r4 in
                  match name with
                  | String _ _ =>
                      (String.eqb r5 EmptyString || String.eqb r5 "/")%bool
                  | EmptyString => false
                  end
              | _, _ => false
              end
          | None => false
          end
      | None => false
      end
  | None => false
  end.



Section Analyze.

(** How [analyzeRepo (repoUrl)] settles; a rejection carries an [Error]
    and its message. *)
Variable analyzeRepo : string -> Outcome Ingestion.Report.


End Analyze.

End Server.

(* ================================================================== *)
(** * Vocabulary of the properties

    Definitions that follow the specification's words; the properties
    compare the code above with them. *)
(* ================================================================== *)

Module Spec.

Import LanguageDetector.

(** The four buckets of a complexity distribution: low (at most 5),
    medium (6 to 10), high (11 to 20), very high (above 20). *)
Inductive Bucket : Type := Low | Medium | High | VeryHigh.

Definition bucketOf (complexity : Z) : Bucket :=
  if complexity <=? 5 then Low
  else if complexity <=? 10 then Medium
  else if complexity <=? 20 then High
  else VeryHigh.

(** One more function in bucket [b]. *)
Definition increment (b : Bucket) (d : Distribution) : Distribution :=
  match b with
  | Low => {| low := low d + 1; medium := medium d; high := high d;
              veryHigh := veryHigh d |}
  | Medium => {| low := low d; medium := medium d + 1; high := high d;
                 veryHigh := veryHigh d |}
  | High => {| low := low d; medium := medium d; high := high d + 1;
               veryHigh := veryHigh d |}
  | VeryHigh => {| low := low d; medium := medium d; high := high d;
                   veryHigh := veryHigh d + 1 |}
  end.

(** The sum of the fixed representative weights 3, 7, 15 and 25 of the
    buckets. *)
Definition weightedBuckets (d : Distribution) : Z :=
  3 * low d + 7 * medium d + 15 * high d + 25 * veryHigh d.

Definition bucketsTotal (d : Distribution) : Z :=
  low d + medium d + high d + veryHigh d.

(** In a C/C++ result every bucket counts functions, and no function
    is counted twice. *)
Definition consistent (r : CppAnalyzer.Result) : Prop :=
  0 <= low (CppAnalyzer.distribution r) /\ 0 <= medium (CppAnalyzer.distribution r)
  /\ 0 <= high (CppAnalyzer.distribution r) /\ 0 <= veryHigh (CppAnalyzer.distribution r)
  /\ bucketsTotal (CppAnalyzer.distribution r) <= CppAnalyzer.functions r.

(** [k] CppAnalyzer.functions are counted in [CppAnalyzer.functions] and in no bucket yet. *)
Definition pending (k : Z) (r : CppAnalyzer.Result) : Prop :=
  0 <= low (CppAnalyzer.distribution r) /\ 0 <= medium (CppAnalyzer.distribution r)
  /\ 0 <= high (CppAnalyzer.distribution r) /\ 0 <= veryHigh (CppAnalyzer.distribution r)
  /\ bucketsTotal (CppAnalyzer.distribution r) + k <= CppAnalyzer.functions r.

(** While a file is scanned, the function being read is counted in
    [CppAnalyzer.functions] and in no bucket yet. *)
Definition scanning (st : CppAnalyzer.Scan) : Prop :=
  pending (if CppAnalyzer.inFunction st then 1 else 0) (CppAnalyzer.result st).

(** The grades from the lowest to the highest. *)
Definition gradeRank (g : Ingestion.Grade) : Z :=
  match g with
  | Ingestion.F => 0 | Ingestion.D => 1
  | Ingestion.C_minus => 2 | Ingestion.C => 3 | Ingestion.C_plus => 4
  | Ingestion.B_minus => 5 | Ingestion.B => 6 | Ingestion.B_plus => 7
  | Ingestion.A_minus => 8 | Ingestion.A => 9 | Ingestion.A_plus => 10
  end.

Definition allGrades : list Ingestion.Grade :=
  [ Ingestion.A_plus; Ingestion.A; Ingestion.A_minus;
    Ingestion.B_plus; Ingestion.B; Ingestion.B_minus;
    Ingestion.C_plus; Ingestion.C; Ingestion.C_minus;
    Ingestion.D; Ingestion.F ].

(** The threshold table: the inclusive lower bound of each grade. *)
Definition lowerBound (g : Ingestion.Grade) : option Z :=
  match g with
  | Ingestion.A_plus => Some 90 | Ingestion.A => Some 85
  | Ingestion.A_minus => Some 80 | Ingestion.B_plus => Some 75
  | Ingestion.B => Some 70 | Ingestion.B_minus => Some 65
  | Ingestion.C_plus => Some 60 | Ingestion.C => Some 55
  | Ingestion.C_minus => Some 50 | Ingestion.D => Some 40
  | Ingestion.F => None
  end.

(** [score] reaches the lower bound of [g]. *)
Definition reaches (score : Z) (g : Ingestion.Grade) : bool :=
  match lowerBound g with
  | Some bound => bound <=? score
  | None => true
  end.

(** The files the walk hands to its callback, in order. *)
Fixpoint entryFiles (dir : string) (e : Entry)
  : list (string * option FileData) :=
  let fullPath := path_join dir (entry_name e) in
  match e with
  | Dir name entries =>
      if (negb (mem name IGNORE_DIRS) && negb (startsWith name "."))%bool
      then flat_map (entryFiles fullPath) entries
      else []
  | File _ data => [(fullPath, data)]
  | Other _ => []
  end.

Definition walkFiles (dir : string) (entries : list Entry)
  : list (string * option FileData) :=
  flat_map (entryFiles dir) entries.

(** The callback applied to one visited file. *)
Definition feed {S : Type} (callback : string -> option FileData -> S -> S)
  (s : S) (f : string * option FileData) : S :=
  callback (fst f) (snd f) s.

(** The language label of a file, by its extension. *)
Definition languageOf (filePath : string) : option string :=
  obj_get (toLowerCase (extname filePath)) EXTENSION_MAP.

Fixpoint labels (files : list (string * option FileData)) : list string :=
  match files with
  | [] => []
  | f :: r =>
      match languageOf (fst f) with
      | Some l => l :: labels r
      | None => labels r
      end
  end.

(** The language labels in the order the walk meets their files (a label
    appears once per file). *)
Definition encountered (repoPath : string) (root : list Entry) : list string :=
  labels (walkFiles repoPath root).

(** The keys of an object after an assignment to [l]: a key already
    there keeps its place, a new one comes last. *)
Definition addKey (keys : list string) (l : string) : list string :=
  if mem l keys then keys else (keys ++ [l])%list.

(** [l] is met before [l']: [l] occurs in the sequence, and [l'] does not
    occur before that occurrence. *)
Definition before (l l' : string) (seen : list string) : Prop :=
  exists a b, seen = (a ++ l :: b)%list /\ ~ In l' a.

(** The total line count of a language in the language statistics. *)
Definition linesOf (languageStats : LanguageStats) (lang : string) : Z :=
  match obj_get lang (breakdown languageStats) with
  | Some d => ls_lines d
  | None => 0
  end.

(** No language has more lines than [lang]. *)
Definition maximal (languageStats : LanguageStats) (lang : string) : Prop :=
  forall l, linesOf languageStats l <= linesOf languageStats lang.

(** [lang] is met before every other language that has as many lines as
    it has. *)
Definition firstAmongMaximal (repoPath : string) (root : list Entry)
  (lang : string) : Prop :=
  let r := detectLanguages repoPath root in
  let seen := encountered repoPath root in
  forall l', l' <> lang -> In l' seen -> maximal r l' -> before lang l' seen.

(** The tie-break as the specification states it, for one file tree:
    when two or more languages share the maximum line count, the one met
    first is the primary language. *)
Definition firstMaximalIsPrimary (repoPath : string) (root : list Entry)
  : Prop :=
  let r := detectLanguages repoPath root in
  let seen := encountered repoPath root in
  forall l other,
    In l seen -> maximal r l ->
    In other seen -> other <> l -> maximal r other ->
    firstAmongMaximal repoPath root l ->
    primary r = Some l.

(** An entry of [stats] as [breakdown] holds it. *)
Definition withPercentage (totalLines : Z) (data : Stat) : LanguageStat :=
  {| ls_files := files data; ls_lines := lines data; ls_bytes := bytes data;
     percentage := percentageOf totalLines data |}.

(** The percentage of a language in the language statistics, and the
    score recorded for it in the code analysis. *)
Definition weightOf (languageStats : LanguageStats) (lang : string) : Z :=
  match obj_get lang (breakdown languageStats) with
  | Some d => percentage d
  | None => 0
  end.

Definition scoreOf (codeAnalysis : Router.CodeAnalysis) (lang : string) : Z :=
  match obj_get lang (Router.byLanguage codeAnalysis) with
  | Some e => Router.entryScore e
  | None => 0
  end.

Definition sum_over (f : string -> Z) (l : list string) : Z :=
  fold_right (fun x acc => f x + acc) 0 l.

(** The percentage-weighted mean of the analyzed languages' scores,
    rounded to the nearest integer. *)
Definition weightedMean (languageStats : LanguageStats)
  (codeAnalysis : Router.CodeAnalysis) : Z :=
  let analyzed := Router.analyzedLanguages codeAnalysis in
  round_div
    (sum_over (fun l => scoreOf codeAnalysis l * weightOf languageStats l)
       analyzed)
    (sum_over (weightOf languageStats) analyzed).

(** The same mean as the router computes it: the binary64 quotient of
    the two sums, given to [Math.round]. *)
Definition weightedMeanBinary64 (languageStats : LanguageStats)
  (codeAnalysis : Router.CodeAnalysis) : Z :=
  let analyzed := Router.analyzedLanguages codeAnalysis in
  Math_round
    (PrimFloat.div
       (Z2f (sum_over
               (fun l => scoreOf codeAnalysis l * weightOf languageStats l)
               analyzed))
       (Z2f (sum_over (weightOf languageStats) analyzed))).

(** A language is selected for analysis when it is supported and holds
    at least 5 percent of the lines. *)
Definition qualifies (e : string * LanguageStat) : bool :=
  (mem (fst e) Router.SUPPORTED_LANGUAGES && (5 <=? percentage (snd e)))%bool.

(** The result of the analyzer of a selected language, when it has one
    and it returns. *)
Definition succeeded
  (run : string -> Router.Analyzer -> Outcome Router.AnalysisResult)
  (e : string * LanguageStat) : option Router.AnalysisResult :=
  match Router.ANALYZERS (fst e) with
  | Some analyzer =>
      match run (fst e) analyzer with
      | Returned analysis => Some analysis
      | Thrown _ => None
      end
  | None => None
  end.

(** What the loop records in [byLanguage] for a selected language. *)
Definition recorded
  (run : string -> Router.Analyzer -> Outcome Router.AnalysisResult)
  (e : string * LanguageStat) : option Router.LanguageEntry :=
  match Router.ANALYZERS (fst e) with
  | Some analyzer =>
      match run (fst e) analyzer with
      | Returned analysis => Some (Router.Analysis analysis)
      | Thrown error_message => Some (Router.Degraded 50 error_message)
      end
  | None => None
  end.

Definition isSome {A : Type} (o : option A) : bool :=
  match o with Some _ => true | None => false end.

Definition returned
  (run : string -> Router.Analyzer -> Outcome Router.AnalysisResult)
  (e : string * LanguageStat) : bool :=
  isSome (succeeded run e).

(** The weights and the weighted scores of the languages whose analyzer
    returned. *)
Definition weightSum
  (run : string -> Router.Analyzer -> Outcome Router.AnalysisResult)
  (sel : list (string * LanguageStat)) : Z :=
  fold_right
    (fun e acc =>
       match succeeded run e with
       | Some _ => percentage (snd e) + acc
       | None => acc
       end) 0 sel.

Definition scoreSum
  (run : string -> Router.Analyzer -> Outcome Router.AnalysisResult)
  (sel : list (string * LanguageStat)) : Z :=
  fold_right
    (fun e acc =>
       match succeeded run e with
       | Some analysis => Router.score analysis * percentage (snd e) + acc
       | None => acc
       end) 0 sel.

End Spec.

(* ================================================================== *)
(** * Inputs of the examples *)
(* ================================================================== *)

Module Examples.

Import LanguageDetector Router.

(** A project score of 90 and a code score of 74. *)
Definition metrics_90 : ProjectAnalyzer.ProjectMetrics :=
  {| ProjectAnalyzer.hasReadme := true;
     ProjectAnalyzer.readmeQuality := 100;
     ProjectAnalyzer.hasLicense := true;
     ProjectAnalyzer.hasTests := true;
     ProjectAnalyzer.hasCI := true;
     ProjectAnalyzer.hasDocker := false;
     ProjectAnalyzer.hasPackageManager := true;
     ProjectAnalyzer.hasDocs := false;
     ProjectAnalyzer.structureScore := 70;
     ProjectAnalyzer.score := 90 |}.

Definition analysis_74 : CodeAnalysis :=
  {| byLanguage := []; overallScore := 74; analyzedLanguages := [];
     message := None |}.

(** Two functions in the low bucket and one in the high bucket. *)
Definition two_low_one_high : CppAnalyzer.Result :=
  {| CppAnalyzer.average := 0; CppAnalyzer.max := 12;
     CppAnalyzer.distribution :=
       {| low := 2; medium := 0; high := 1; veryHigh := 0 |};
     CppAnalyzer.functions := 3 |}.

Definition stat (pct : Z) : LanguageStat :=
  {| ls_files := 1; ls_lines := pct; ls_bytes := pct; percentage := pct |}.

Definition scored (s : Z) : AnalysisResult :=
  {| score := s; complexityAverage := 3; issuesLength := 0 |}.

(** Python at 70 percent scoring 80, JavaScript at 30 percent scoring
    60. *)
Definition stats_70_30 : LanguageStats :=
  {| primary := Some "Python";
     breakdown := [ ("Python", stat 70); ("JavaScript", stat 30) ];
     totalFiles := 2; totalLines := 100 |}.

Definition run_80_60 (lang : string) (a : Analyzer) : Outcome AnalysisResult :=
  match a with
  | analyzePython => Returned (scored 80)
  | analyzeJavaScript => Returned (scored 60)
  | analyzeCpp => Thrown "ENOENT"
  end.

(** Ruby at 97 percent, Python at 3 percent. *)
Definition stats_ruby : LanguageStats :=
  {| primary := Some "Ruby";
     breakdown := [ ("Ruby", stat 97); ("Python", stat 3) ];
     totalFiles := 2; totalLines := 100 |}.

(** Python at 60 percent whose analyzer throws, C++ at 40 percent scoring
    90. *)
Definition stats_60_40 : LanguageStats :=
  {| primary := Some "Python";
     breakdown := [ ("Python", stat 60); ("C++", stat 40) ];
     totalFiles := 2; totalLines := 100 |}.

Definition run_python_throws (lang : string) (a : Analyzer)
  : Outcome AnalysisResult :=
  match a with
  | analyzePython => Thrown "spawn python ENOENT"
  | analyzeJavaScript => Returned (scored 60)
  | analyzeCpp => Returned (scored 90)
  end.

(** A Python file and a JavaScript file, neither of which can be read. *)
Definition two_unreadable : list Entry :=
  [ File "a.py" None; File "b.js" None ].

(** A JavaScript file and a Python file of one line each. *)
Definition two_files : list Entry :=
  [ File "b.js" (Some {| content := "let x = 1;"; size := 10 |});
    File "a.py" (Some {| content := "x = 1"; size := 5 |}) ].

(** An empty clone, with the [.git] directory only. *)
Definition dot_git : list Entry :=
  [ Dir ".git"
      [ File "HEAD" (Some {| content := "ref: refs/heads/main"; size := 20 |});
        Dir "objects" [] ] ].

End Examples.

(* ================================================================== *)
(** * Vocabulary of the further properties *)
(* ================================================================== *)

Module Terms.

Import LanguageDetector.

(** A list whose elements come by increasing key, and one whose elements
    come by decreasing key. *)
Fixpoint ascending {A : Type} (key : A -> Z) (l : list A) : Prop :=
  match l with
  | [] => True
  | x :: r => (forall y, In y r -> key x <= key y) /\ ascending key r
  end.

Definition descending {A : Type} (key : A -> Z) (l : list A) : Prop :=
  ascending (fun x => - key x) l.

(** The sum of a field over the values of an object. *)
Definition sumOf {V : Type} (f : V -> Z) (o : Obj V) : Z :=
  fold_right (fun e acc => f (snd e) + acc) 0 o.

(** The files of a walk that the classifier counts under [lang]. *)
Definition filesOf (lang : string) (fs : list (string * option FileData))
  : list (string * option FileData) :=
  filter (fun f => match Spec.languageOf (fst f) with
                   | Some l => String.eqb l lang
                   | None => false
                   end) fs.

(** The files of a walk that the classifier counts under some language. *)
Definition classified (fs : list (string * option FileData))
  : list (string * option FileData) :=
  filter (fun f => Spec.isSome (Spec.languageOf (fst f))) fs.

Definition linesRead (fs : list (string * option FileData)) : Z :=
  fold_right
    (fun f acc => match snd f with
                  | Some d => split_lines_length (content d) + acc
                  | None => acc
                  end) 0 fs.

Definition bytesRead (fs : list (string * option FileData)) : Z :=
  fold_right
    (fun f acc => match snd f with
                  | Some d => size d + acc
                  | None => acc
                  end) 0 fs.

(** What a list of files adds up to: their number, and the lines and
    the bytes of those that can be read. *)
Definition tally (fs : list (string * option FileData)) : Stat :=
  {| files := Z.of_nat (List.length fs);
     lines := linesRead fs;
     bytes := bytesRead fs |}.

(** The statistic of a language that was not met yet, one more file in
    a statistic, and the sum of two statistics. *)
Definition zeroStat : Stat := {| files := 0; lines := 0; bytes := 0 |}.

Definition bump (data : option FileData) (st : Stat) : Stat :=
  match data with
  | Some d => {| files := files st + 1;
                 lines := lines st + split_lines_length (content d);
                 bytes := bytes st + size d |}
  | None => {| files := files st + 1; lines := lines st; bytes := bytes st |}
  end.

Definition orZero (o : option Stat) : Stat :=
  match o with Some st => st | None => zeroStat end.

Definition plus (a b : Stat) : Stat :=
  {| files := files a + files b; lines := lines a + lines b;
     bytes := bytes a + bytes b |}.

(** A tree without what the walk never enters or visits: the ignored
    directories, the directories whose name starts with a dot, and the
    entries that are neither files nor directories. *)
Fixpoint pruneEntry (e : Entry) : list Entry :=
  match e with
  | File name data => [File name data]
  | Other _ => []
  | Dir name entries =>
      if (negb (mem name IGNORE_DIRS) && negb (startsWith name "."))%bool
      then [Dir name (flat_map pruneEntry entries)]
      else []
  end.

Definition prune (entries : list Entry) : list Entry :=
  flat_map pruneEntry entries.

(** A pylint message that [analyzeStyle] may store: an error or a
    warning; and what it stores of it (lines 140-146). *)
Definition significant (issue : PythonAnalyzer.PylintIssue) : bool :=
  (String.eqb (PythonAnalyzer.p_type issue) "error"
   || String.eqb (PythonAnalyzer.p_type issue) "warning")%bool.

Definition storedIssue (issue : PythonAnalyzer.PylintIssue)
  : PythonAnalyzer.StyleIssue :=
  {| PythonAnalyzer.styleType := PythonAnalyzer.p_type issue;
     PythonAnalyzer.styleMessage := PythonAnalyzer.p_message issue;
     PythonAnalyzer.styleFile := basename (PythonAnalyzer.p_path issue);
     PythonAnalyzer.styleLine := PythonAnalyzer.p_line issue;
     PythonAnalyzer.styleSymbol := PythonAnalyzer.p_symbol issue |}.

(** The number of messages of one type. *)
Definition ofType (t : string) (l : list PythonAnalyzer.PylintIssue) : Z :=
  Z.of_nat
    (List.length
       (filter (fun issue => String.eqb (PythonAnalyzer.p_type issue) t) l)).

(** [s] is empty or starts with a character that [ok] refuses. *)
Definition stopsAt (ok : ascii -> bool) (s : string) : bool :=
  match s with
  | EmptyString => true
  | String c _ => negb (ok c)
  end.

(** An attempt that answers with a status below 400. *)
Definition accepted (o : Outcome GithubFetcher.Response) : bool :=
  match o with
  | Returned r => GithubFetcher.statusCode r <? 400
  | Thrown _ => false
  end.

(** An attempt whose answer says that the rate limit is used up, and
    the time to wait that it gives when read at time [now]. *)
Definition rateLimited (o : Outcome GithubFetcher.Response) : bool :=
  match o with
  | Returned r =>
      ((GithubFetcher.statusCode r =? 403)
       && (GithubFetcher.remaining r =? 0))%bool
  | Thrown _ => false
  end.

Definition waitTime (now : Z) (o : Outcome GithubFetcher.Response) : Z :=
  match o with
  | Returned r => Math_max 0 (GithubFetcher.reset r * 1000 - now)
  | Thrown _ => 0
  end.

(** An answer that makes [requestWithRetry] wait for the rate limit and
    go on: the time to wait is a minute at most. *)
Definition shortWait (now : Z) (o : Outcome GithubFetcher.Response) : bool :=
  (rateLimited o && negb (waitTime now o >? 60000))%bool.

(** The state after one more request. *)
Definition made (st : GithubFetcher.Effects) : GithubFetcher.Effects :=
  {| GithubFetcher.requests := S (GithubFetcher.requests st);
     GithubFetcher.sleeps := GithubFetcher.sleeps st |}.

(** The delay before the retry that follows attempt [attempt]. *)
Definition backoff (attempt : nat) : Z := 1000 * 2 ^ Z.of_nat attempt.

End Terms.
(* ================================================================== *)
(** * Properties *)
(* ================================================================== *)

Import Examples.

(** ** Sanity checks of the primitives *)

Example Math_round_ex :
  Math_round 2.5 = 3 /\ Math_round (-2.5) = -2 /\ Math_round 2.4 = 2 /\
  Math_round (-2.6) = -3 /\ Math_round 0 = 0 /\ Math_round (-0.5) = 0 /\
  Math_round 0.5 = 1 /\ Math_round 0.49999999999999994 = 0 /\
  Math_round 74 = 74 /\ Math_round 80.4 = 80 /\
  Math_round 1e21 = 1000000000000000000000 /\
  Math_round 9007199254740993 = 9007199254740992 /\
  Math_round (-1234.5) = -1234 /\ Math_round 1234.5 = 1235 /\
  Math_round 1e-320 = 0 /\
  Math_round (-3.5) = -3 /\ Math_round (-3.51) = -4 /\
  Math_round (-0.4) = 0 /\ Math_round (-0.6) = -1 /\
  Math_round (-0.5000000000000001) = -1 /\
  Math_round (-4503599627370495.5) = -4503599627370495 /\
  Math_round 4503599627370495.5 = 4503599627370496 /\
  Math_round (-1e21) = -1000000000000000000000 /\
  Math_round 10.5 = 11 /\ Math_round 33.6 = 34.
Proof. vm_compute. repeat split. Qed.

Example strings_ex :
  extname "/r/a/b.PY" = ".PY" /\ extname "/r/.bashrc" = "" /\
  extname "/r/x.tar.gz" = ".gz" /\ extname "/r/Makefile" = "" /\
  extname "/r.d/file" = "" /\ extname "/r/.." = "" /\ extname "/r/a." = "." /\
  extname "/r/..a" = ".a" /\
  toLowerCase "ReadMe.MD" = "readme.md" /\ trim "  [] 
 " = "[]" /\ includes "docker-compose.yml" "compose" = true /\
  endsWith "a.json" ".json" = true /\ endsWith "on" ".json" = false /\
  split_lines_length "" = 1 /\ split_lines_length "a
b
" = 3 /\ basename "/tmp/x/y.js" = "y.js".
Proof. vm_compute. repeat split. Qed.

(* ------------------------------------------------------------------ *)
(** ** binary64 against exact arithmetic *)

Section Enumeration.

Import Exhaustive.

Lemma range_all_sound (n : nat) :
  forall (lo : int) (f : int -> bool),
    Uint63.to_Z lo + Z.of_nat n <= Uint63.wB ->
    range_all n lo f = true ->
    forall z, Uint63.to_Z lo <= z < Uint63.to_Z lo + Z.of_nat n ->
              f (Uint63.of_Z z) = true.
Proof.
  induction n as [|k IH]; intros lo f Hb Hall z Hz.
  - simpl in Hz. lia.
  - cbn [range_all] in Hall. apply andb_true_iff in Hall as [Hlo Hrest].
    destruct (Z.eq_dec z (Uint63.to_Z lo)) as [->|Hne].
    + now rewrite Uint63.of_to_Z.
    + pose proof (Uint63.to_Z_bounded lo) as Hlob.
      assert (Hs : Uint63.to_Z (Uint63.add lo 1) = Uint63.to_Z lo + 1).
      { rewrite Uint63.add_spec, Uint63.to_Z_1. apply Z.mod_small. lia. }
      apply (IH (Uint63.add lo 1) f); rewrite ?Hs; try assumption; lia.
Qed.

Lemma rounds_to_sound (x : float) (expected : int) :
  rounds_to x expected = true -> Math_round x = Uint63.to_Z expected.
Proof.
  unfold rounds_to, Math_round. intros H.
  apply andb_true_iff in H as [H H3].
  apply andb_true_iff in H as [H1 H2].
  apply negb_true_iff in H1. apply negb_true_iff in H2.
  rewrite H1, H2.
  destruct (PrimFloat.frshiftexp x) as [m se].
  apply andb_true_iff in H3 as [H3 H4].
  apply negb_true_iff in H3. rewrite H3.
  apply Uint63.eqb_correct in H4. now rewrite H4.
Qed.

Lemma of_Z_small (z : Z) :
  0 <= z < Uint63.wB -> Uint63.to_Z (Uint63.of_Z z) = z.
Proof. intros H. rewrite Uint63.of_Z_spec. now apply Z.mod_small. Qed.

Lemma wB_value : Uint63.wB = 9223372036854775808.
Proof. reflexivity. Qed.

(** Every divisor [1 <= b <= 300] passes [div_check_row]. *)
Lemma div_check_all_true : range_all 300 1 div_check_row = true.
Proof. vm_compute. reflexivity. Qed.

(** Every score [0 <= p <= 100] passes [mix_check_row]. *)
Lemma mix_check_all_true : range_all 101 0 mix_check_row = true.
Proof. vm_compute. reflexivity. Qed.

(** [Math.round (a / b)], computed in binary64, is the nearest integer to
    the rational [a / b] (ties up) for the operands the router and the
    C/C++ analyzer can produce from bounded inputs. *)
Lemma div_round_exact (a b : Z) :
  1 <= b <= 300 -> 0 <= a <= 100 * b ->
  Math_round (PrimFloat.div (Z2f a) (Z2f b)) = round_div a b.
Proof.
  intros Hb Ha. unfold Z2f, round_div.
  pose proof div_check_all_true as Hall.
  pose proof wB_value as HwB.
  assert (H1 : Uint63.to_Z 1 = 1) by reflexivity.
  assert (H0 : Uint63.to_Z 0 = 0) by reflexivity.
  pose proof (range_all_sound 300 1 div_check_row
                ltac:(rewrite H1, HwB; lia) Hall b
                ltac:(rewrite H1; lia)) as Hin.
  unfold div_check_row in Hin.
  assert (Hbz : Uint63.to_Z (Uint63.of_Z b) = b) by (apply of_Z_small; lia).
  assert (Hcnt : Uint63.to_Z (Uint63.add (Uint63.mul 100 (Uint63.of_Z b)) 1)
                 = 100 * b + 1).
  { rewrite Uint63.add_spec, Uint63.mul_spec, Hbz.
    change (Uint63.to_Z 100) with 100. change (Uint63.to_Z 1) with 1.
    rewrite (Z.mod_small (100 * b)) by lia. apply Z.mod_small. lia. }
  rewrite Hcnt in Hin.
  pose proof (range_all_sound (Z.to_nat (100 * b + 1)) 0
                (div_check (Uint63.of_Z b))
                ltac:(rewrite H0, HwB, Z2Nat.id; lia) Hin a
                ltac:(rewrite H0, Z2Nat.id; lia)) as Hab.
  unfold div_check in Hab. apply rounds_to_sound in Hab. rewrite Hab.
  assert (Haz : Uint63.to_Z (Uint63.of_Z a) = a) by (apply of_Z_small; lia).
  rewrite Uint63.div_spec, Uint63.add_spec, !Uint63.mul_spec, Haz, Hbz.
  change (Uint63.to_Z 2) with 2.
  rewrite (Z.mod_small (2 * a)) by lia.
  rewrite (Z.mod_small (2 * b)) by lia.
  rewrite (Z.mod_small (2 * a + b)) by lia.
  reflexivity.
Qed.

(** [Math.round (p * 0.4 + c * 0.6)], computed in binary64, is the
    nearest integer to [(4 p + 6 c) / 10] for all scores in [0, 100]. *)
Lemma mix_round_exact (p c : Z) :
  0 <= p <= 100 -> 0 <= c <= 100 ->
  Math_round (PrimFloat.add (PrimFloat.mul (Z2f p) 0.4)
                            (PrimFloat.mul (Z2f c) 0.6))
  = round_div (4 * p + 6 * c) 10.
Proof.
  intros Hp Hc. unfold Z2f, round_div.
  pose proof mix_check_all_true as Hall.
  pose proof wB_value as HwB.
  assert (H0 : Uint63.to_Z 0 = 0) by reflexivity.
  pose proof (range_all_sound 101 0 mix_check_row
                ltac:(rewrite H0, HwB; lia) Hall p
                ltac:(rewrite H0; lia)) as Hin.
  unfold mix_check_row in Hin.
  pose proof (range_all_sound 101 0 (mix_check (Uint63.of_Z p))
                ltac:(rewrite H0, HwB; lia) Hin c
                ltac:(rewrite H0; lia)) as Hpc.
  unfold mix_check in Hpc. apply rounds_to_sound in Hpc. rewrite Hpc.
  assert (Hpz : Uint63.to_Z (Uint63.of_Z p) = p) by (apply of_Z_small; lia).
  assert (Hcz : Uint63.to_Z (Uint63.of_Z c) = c) by (apply of_Z_small; lia).
  rewrite Uint63.div_spec, !Uint63.add_spec, !Uint63.mul_spec, Hpz, Hcz.
  change (Uint63.to_Z 4) with 4. change (Uint63.to_Z 6) with 6.
  change (Uint63.to_Z 5) with 5. change (Uint63.to_Z 10) with 10.
  rewrite (Z.mod_small (4 * p)) by lia.
  rewrite (Z.mod_small (6 * c)) by lia.
  rewrite (Z.mod_small (4 * p + 6 * c)) by lia.
  rewrite (Z.mod_small (4 * p + 6 * c + 5)) by lia.
  replace (2 * (4 * p + 6 * c) + 10) with (2 * (4 * p + 6 * c + 5)) by lia.
  now rewrite Z.div_mul_cancel_l by lia.
Qed.

End Enumeration.

(** [round_div a b] is the integer within one half of [a / b], the upper
    one on a tie. *)
Lemma round_div_nearest (a b : Z) :
  0 < b ->
  2 * b * round_div a b - b <= 2 * a < 2 * b * round_div a b + b.
Proof.
  intros Hb. unfold round_div.
  pose proof (Z.div_mod (2 * a + b) (2 * b) ltac:(lia)) as Hdm.
  pose proof (Z.mod_pos_bound (2 * a + b) (2 * b) ltac:(lia)) as Hm.
  lia.
Qed.

Import LanguageDetector.

Example detect_ex :
  detectLanguages "/tmp/r"
    [ File "README.md" (Some {| content := "# hi"; size := 4 |});
      Dir "node_modules" [ File "x.js" (Some {| content := "a"; size := 1 |}) ];
      Dir "src"
        [ File "a.PY" (Some {| content := "x
y
z"; size := 5 |});
          File "b.js" (Some {| content := "1
2"; size := 3 |}) ];
      File "c.py" None ]
  = {| primary := Some "Python";
       breakdown :=
         [ ("Python", {| ls_files := 2; ls_lines := 3; ls_bytes := 5; percentage := 50 |});
           ("JavaScript", {| ls_files := 1; ls_lines := 2; ls_bytes := 3; percentage := 33 |});
           ("Markdown", {| ls_files := 1; ls_lines := 1; ls_bytes := 4; percentage := 17 |}) ];
       totalFiles := 4; totalLines := 6 |}.
Proof. vm_compute. reflexivity. Qed.

(* ------------------------------------------------------------------ *)
(** ** Grades (ingestion.js, scoreToGrade) *)

Section Grades.

Import Ingestion Spec.

Ltac grade_cases :=
  unfold scoreToGrade;
  repeat match goal with
         | |- context [ (?a >=? ?b) ] => destruct (Z.geb_spec a b)
         end.

Lemma scoreToGrade_monotone (s1 s2 : Z) :
  s1 <= s2 -> gradeRank (scoreToGrade s1) <= gradeRank (scoreToGrade s2).
Proof. intros H. grade_cases; simpl; lia. Qed.

(** The grade of a score is the highest grade whose lower bound the
    score reaches. *)
Lemma scoreToGrade_highest (s : Z) (g : Grade) :
  reaches s g = true <-> gradeRank g <= gradeRank (scoreToGrade s).
Proof.
  unfold reaches. destruct g; simpl lowerBound; cbv iota;
    rewrite ?Z.leb_le; grade_cases; simpl; split; intros; try lia;
    try reflexivity.
Qed.

(** C2.  [scoreToGrade] is a function of the score alone; it is monotone
    (a higher score never gets a lower grade); it follows the threshold
    table with inclusive lower bounds (the grade is the highest one whose
    bound the score reaches: 90 A+, 85 A, 80 A-, 75 B+, 70 B, 65 B-,
    60 C+, 55 C, 50 C-, 40 D, F below); it takes each of the eleven grades
    A+, A, A-, B+, B, B-, C+, C, C-, D, F; and Grade(90) = A+,
    Grade(85) = A, Grade(79) = B+, Grade(39) = F. *)
Theorem scoreToGrade_table :
  (forall s1 s2, s1 <= s2 ->
     gradeRank (scoreToGrade s1) <= gradeRank (scoreToGrade s2))
  /\ (forall s g, reaches s g = true <->
                  gradeRank g <= gradeRank (scoreToGrade s))
  /\ (forall g, exists s, scoreToGrade s = g)
  /\ (forall g, In g allGrades)
  /\ map gradeLabel allGrades
     = [ "A+"; "A"; "A-"; "B+"; "B"; "B-"; "C+"; "C"; "C-"; "D"; "F" ]
  /\ scoreToGrade 90 = A_plus /\ scoreToGrade 89 = A
  /\ scoreToGrade 85 = A /\ scoreToGrade 84 = A_minus
  /\ scoreToGrade 79 = B_plus /\ scoreToGrade 40 = D
  /\ scoreToGrade 39 = F.
Proof.
  split; [exact scoreToGrade_monotone|].
  split; [exact scoreToGrade_highest|].
  split.
  { intros g.
    exists (match lowerBound g with Some b => b | None => 0 end).
    destruct g; reflexivity. }
  split; [intros g; destruct g; simpl; tauto|].
  repeat split.
Qed.

Lemma scoreToGrade_table_witness :
  gradeRank (scoreToGrade 39) <= gradeRank (scoreToGrade 90).
Proof. apply (proj1 scoreToGrade_table 39 90). lia. Defined.

End Grades.

(* ------------------------------------------------------------------ *)
(** ** The overall score (ingestion.js, compileReport) *)

Section OverallScore.

Import Ingestion.

(** C1.  For a project score [p] and a code score [c] (integers of
    [0, 100]), the report's overall score is [round (p * 0.4 + c * 0.6)]:
    the binary64 evaluation that [compileReport] performs gives the
    integer nearest to the exact [(4 p + 6 c) / 10]; for [p = 90] and
    [c = 74] it is 80; and the report's grade is the grade of that
    score. *)
Theorem compileReport_overallScore
  (now url : string) (languageStats : LanguageDetector.LanguageStats)
  (pm : ProjectAnalyzer.ProjectMetrics) (ca : Router.CodeAnalysis) :
  let p := ProjectAnalyzer.score pm in
  let c := Router.overallScore ca in
  let report := compileReport now url languageStats pm ca in
  0 <= p <= 100 -> 0 <= c <= 100 ->
  overallScore report
  = Math_round (PrimFloat.add (PrimFloat.mul (Z2f p) 0.4)
                              (PrimFloat.mul (Z2f c) 0.6))
  /\ overallScore report = round_div (4 * p + 6 * c) 10
  /\ (p = 90 -> c = 74 -> overallScore report = 80)
  /\ grade report = scoreToGrade (overallScore report).
Proof.
  intros p c report Hp Hc.
  assert (Hexact : overallScore report = round_div (4 * p + 6 * c) 10).
  { unfold report, compileReport. cbn [overallScore].
    now apply mix_round_exact. }
  repeat split.
  - exact Hexact.
  - intros H90 H74. rewrite Hexact, H90, H74. reflexivity.
Qed.

Lemma compileReport_overallScore_witness :
  overallScore
    (compileReport "2026-01-01T00:00:00.000Z" "https://github.com/o/r"
       {| LanguageDetector.primary := None;
          LanguageDetector.breakdown := [];
          LanguageDetector.totalFiles := 0;
          LanguageDetector.totalLines := 0 |}
       metrics_90 analysis_74)
  = 80.
Proof.
  apply (compileReport_overallScore _ _ _ metrics_90 analysis_74);
    simpl; try lia; reflexivity.
Defined.

End OverallScore.

(* ------------------------------------------------------------------ *)
(** ** Complexity buckets (the three analyzers) *)

Section Buckets.

Import Spec.

(** C6.  In each of the three scanners (C/C++, JavaScript/TypeScript,
    Python) a function-like unit is counted in the bucket of its
    complexity and in no other: at most 5 low, 6 to 10 medium, 11 to 20
    high, above 20 very high.  In particular 5 is low, 6 is medium, 20 is
    high and 21 is very high. *)
Theorem categorize_buckets :
  (forall c r,
      CppAnalyzer.distribution (CppAnalyzer.categorizeComplexity c r)
      = increment (bucketOf c) (CppAnalyzer.distribution r))
  /\ (forall c r,
      JavaScriptAnalyzer.distribution
        (JavaScriptAnalyzer.categorizeComplexity c r)
      = increment (bucketOf c) (JavaScriptAnalyzer.distribution r))
  /\ (forall c d, PythonAnalyzer.categorize c d = increment (bucketOf c) d)
  /\ (forall file st f,
      PythonAnalyzer.loopDistribution (PythonAnalyzer.complexityStep file st f)
      = increment (bucketOf (PythonAnalyzer.complexity f))
          (PythonAnalyzer.loopDistribution st))
  /\ bucketOf 5 = Low /\ bucketOf 6 = Medium /\ bucketOf 10 = Medium
  /\ bucketOf 11 = High /\ bucketOf 20 = High /\ bucketOf 21 = VeryHigh
  /\ (forall c, bucketOf c = Low <-> c <= 5)
  /\ (forall c, bucketOf c = Medium <-> 6 <= c <= 10)
  /\ (forall c, bucketOf c = High <-> 11 <= c <= 20)
  /\ (forall c, bucketOf c = VeryHigh <-> 21 <= c).
Proof.
  assert (Hpy : forall c d,
             PythonAnalyzer.categorize c d = increment (bucketOf c) d).
  { intros c d. unfold PythonAnalyzer.categorize, bucketOf.
    destruct (c <=? 5); [reflexivity|].
    destruct (c <=? 10); [reflexivity|].
    destruct (c <=? 20); reflexivity. }
  repeat match goal with |- _ /\ _ => split end;
    try reflexivity; try exact Hpy.
  - intros c r. unfold CppAnalyzer.categorizeComplexity, bucketOf.
    cbn [CppAnalyzer.distribution].
    destruct (c <=? 5); [reflexivity|].
    destruct (c <=? 10); [reflexivity|].
    destruct (c <=? 20); reflexivity.
  - intros c r. unfold JavaScriptAnalyzer.categorizeComplexity, bucketOf.
    cbn [JavaScriptAnalyzer.distribution].
    destruct (c <=? 5); [reflexivity|].
    destruct (c <=? 10); [reflexivity|].
    destruct (c <=? 20); reflexivity.
  - intros file st f. unfold PythonAnalyzer.complexityStep.
    cbn [PythonAnalyzer.loopDistribution]. apply Hpy.
  - intros c. unfold bucketOf.
    destruct (Z.leb_spec c 5); [split; [lia|reflexivity]|].
    destruct (Z.leb_spec c 10); [split; [discriminate|lia]|].
    destruct (Z.leb_spec c 20); split; (discriminate || lia).
  - intros c. unfold bucketOf.
    destruct (Z.leb_spec c 5); [split; [discriminate|lia]|].
    destruct (Z.leb_spec c 10); [split; [lia|reflexivity]|].
    destruct (Z.leb_spec c 20); split; (discriminate || lia).
  - intros c. unfold bucketOf.
    destruct (Z.leb_spec c 5); [split; [discriminate|lia]|].
    destruct (Z.leb_spec c 10); [split; [discriminate|lia]|].
    destruct (Z.leb_spec c 20); split; (discriminate || lia || reflexivity).
  - intros c. unfold bucketOf.
    destruct (Z.leb_spec c 5); [split; [discriminate|lia]|].
    destruct (Z.leb_spec c 10); [split; [discriminate|lia]|].
    destruct (Z.leb_spec c 20); split; (discriminate || lia || reflexivity).
Qed.

End Buckets.

(* ------------------------------------------------------------------ *)
(** ** The C/C++ average complexity (cppAnalyzer.js) *)

Section CppAverage.

Import Spec CppAnalyzer.

Variable looksLikeFunction : string -> bool.
Variable hasBranch : string -> bool.

Lemma pending_weaken (k k' : Z) (r : Result) :
  k' <= k -> pending k r -> pending k' r.
Proof. unfold pending. lia. Qed.

Lemma pending_countFunction (k : Z) (r : Result) :
  pending k r -> pending (k + 1) (countFunction r).
Proof. unfold pending, countFunction. cbn [distribution functions]. lia. Qed.

Lemma pending_categorize (c : Z) (r : Result) :
  pending 1 r -> pending 0 (categorizeComplexity c r).
Proof.
  unfold pending, categorizeComplexity, bucketsTotal.
  cbn [distribution functions].
  destruct (c <=? 5); [cbn; lia|].
  destruct (c <=? 10); [cbn; lia|].
  destruct (c <=? 20); cbn; lia.
Qed.

Lemma scanLine_scanning (st : Scan) (line : string) :
  scanning st -> scanning (scanLine looksLikeFunction hasBranch st line).
Proof.
  unfold scanning, scanLine. intros H.
  set (trimmed := trim line).
  destruct (startsWith trimmed "//" || startsWith trimmed "/*" || _)%bool;
    [exact H|].
  destruct (negb (truthy trimmed)); [exact H|].
  destruct (looksLikeFunction trimmed && negb (endsWith trimmed ";"))%bool.
  - (* a function starts on this line *)
    assert (H1 : pending 1 (countFunction (result st))).
    { apply (pending_countFunction 0).
      revert H. apply pending_weaken. destruct (inFunction st); lia. }
    destruct ((_ =? 0) && includes trimmed "}")%bool; cbn [result inFunction].
    + now apply pending_categorize.
    + exact H1.
  - destruct (inFunction st) eqn:Hin.
    + destruct ((_ =? 0) && includes trimmed "}")%bool;
        cbn [result inFunction].
      * now apply pending_categorize.
      * exact H.
    + cbn [result inFunction]. exact H.
Qed.

Lemma consistent_pending (r : Result) : consistent r <-> pending 0 r.
Proof. unfold consistent, pending. rewrite Z.add_0_r. tauto. Qed.

Lemma analyzeFile_consistent (r : Result) (file : option string) :
  consistent r -> consistent (analyzeFile looksLikeFunction hasBranch r file).
Proof.
  intros H. destruct file as [content|]; [|exact H]. unfold analyzeFile.
  assert (Hgen : forall ls st, scanning st ->
             scanning (fold_left (scanLine looksLikeFunction hasBranch) ls st)).
  { induction ls as [|l ls IH]; intros st Hst; [exact Hst|].
    cbn [fold_left]. apply IH. now apply scanLine_scanning. }
  specialize (Hgen (split_lines content) (startScan r)).
  apply consistent_pending.
  assert (Hstart : scanning (startScan r)).
  { unfold scanning, startScan. cbn [result inFunction].
    now apply consistent_pending. }
  specialize (Hgen Hstart). unfold scanning in Hgen.
  revert Hgen. apply pending_weaken.
  destruct (inFunction _); lia.
Qed.

Lemma analyzeFiles_consistent (files : list (option string)) :
  forall r, consistent r ->
            consistent (fold_left (analyzeFile looksLikeFunction hasBranch)
                          files r).
Proof.
  induction files as [|f fs IH]; intros r H; [exact H|].
  cbn [fold_left]. apply IH. now apply analyzeFile_consistent.
Qed.

Lemma weightedBuckets_bound (r : Result) :
  consistent r ->
  0 <= weightedBuckets (distribution r) <= 25 * functions r.
Proof. unfold consistent, weightedBuckets, bucketsTotal. lia. Qed.

End CppAverage.


(** The average of lines 85-93 changes no other field. *)
Lemma complexityAverage_frame (r : CppAnalyzer.Result) :
  CppAnalyzer.distribution (CppAnalyzer.complexityAverage r)
  = CppAnalyzer.distribution r
  /\ CppAnalyzer.functions (CppAnalyzer.complexityAverage r)
     = CppAnalyzer.functions r
  /\ CppAnalyzer.max (CppAnalyzer.complexityAverage r) = CppAnalyzer.max r.
Proof.
  unfold CppAnalyzer.complexityAverage.
  destruct (CppAnalyzer.functions r >? 0); repeat split.
Qed.

Lemma complexityAverage_counted (r : CppAnalyzer.Result) :
  0 < CppAnalyzer.functions r ->
  CppAnalyzer.average (CppAnalyzer.complexityAverage r)
  = Math_round
      (PrimFloat.div
         (Z2f (Spec.weightedBuckets (CppAnalyzer.distribution r)))
         (Z2f (CppAnalyzer.functions r))).
Proof.
  intros Hf. unfold CppAnalyzer.complexityAverage.
  destruct (Z.gtb_spec (CppAnalyzer.functions r) 0) as [_|Hle]; [|lia].
  cbn [CppAnalyzer.average]. do 2 f_equal.
  unfold Spec.weightedBuckets. f_equal. lia.
Qed.

Lemma complexityAverage_none (r : CppAnalyzer.Result) :
  CppAnalyzer.functions r <= 0 -> CppAnalyzer.complexityAverage r = r.
Proof.
  intros Hf. unfold CppAnalyzer.complexityAverage.
  destruct (Z.gtb_spec (CppAnalyzer.functions r) 0) as [Hgt|_];
    [lia|reflexivity].
Qed.

(** C7.  In the C/C++ analyzer, when at least one function was counted,
    the reported average complexity is
    [round ((3 low + 7 medium + 15 high + 25 veryHigh) / functions)],
    computed from the bucket counts with the fixed weights and not from
    the functions' own complexities: one function of complexity 1 is
    reported with average 3.  The rounding is [Math.round] of the
    binary64 quotient, which is the integer nearest to the exact quotient
    (shown for up to 300 counted functions, none of them counted in two
    buckets).  With no function counted the average is left as it
    was. *)
Theorem cpp_complexityAverage (r : CppAnalyzer.Result) :
  let d := CppAnalyzer.distribution r in
  let r' := CppAnalyzer.complexityAverage r in
  (0 < CppAnalyzer.functions r ->
     CppAnalyzer.average r'
     = Math_round (PrimFloat.div (Z2f (Spec.weightedBuckets d))
                                 (Z2f (CppAnalyzer.functions r)))
     /\ CppAnalyzer.distribution r' = d
     /\ CppAnalyzer.functions r' = CppAnalyzer.functions r
     /\ CppAnalyzer.max r' = CppAnalyzer.max r
     /\ (Spec.consistent r -> CppAnalyzer.functions r <= 300 ->
         CppAnalyzer.average r'
         = round_div (Spec.weightedBuckets d) (CppAnalyzer.functions r)))
  /\ (CppAnalyzer.functions r <= 0 -> r' = r)
  /\ (let one :=
        CppAnalyzer.categorizeComplexity 1
          (CppAnalyzer.countFunction CppAnalyzer.initialResult) in
      CppAnalyzer.max one = 1
      /\ CppAnalyzer.average (CppAnalyzer.complexityAverage one) = 3).
Proof.
  intros d r'. split; [|split].
  - intros Hf. unfold r', d.
    destruct (complexityAverage_frame r) as (Hd & Hfun & Hmax).
    rewrite (complexityAverage_counted r Hf). repeat split; try assumption.
    intros Hc H300.
    pose proof (weightedBuckets_bound r Hc) as Hb.
    apply div_round_exact; lia.
  - apply complexityAverage_none.
  - split; vm_compute; reflexivity.
Qed.

Lemma cpp_complexityAverage_witness :
  CppAnalyzer.average (CppAnalyzer.complexityAverage two_low_one_high) = 7.
Proof.
  destruct (proj1 (cpp_complexityAverage two_low_one_high)
              ltac:(simpl; lia)) as (_ & _ & _ & _ & Hexact).
  rewrite Hexact.
  - reflexivity.
  - unfold Spec.consistent, Spec.bucketsTotal. simpl. lia.
  - simpl. lia.
Defined.

(** X21.  The results of [analyzeCpp] are consistent: for any files, and any
    outcome of the two regular expressions, the buckets count at most
    the functions counted, so that the average lies in [0, 25] and is
    the exact rounding when no more than 300 functions are found. *)
Lemma analyzeCpp_average (looksLikeFunction hasBranch : string -> bool)
  (cppFiles headerFiles : list (option string)) :
  let r := CppAnalyzer.analyzeCpp looksLikeFunction hasBranch
             cppFiles headerFiles in
  Spec.consistent r
  /\ (0 < CppAnalyzer.functions r <= 300 ->
      CppAnalyzer.average r
      = round_div (Spec.weightedBuckets (CppAnalyzer.distribution r))
          (CppAnalyzer.functions r)
      /\ 0 <= CppAnalyzer.average r <= 25).
Proof.
  intros r. unfold r, CppAnalyzer.analyzeCpp.
  set (scanned := fold_left _ headerFiles _).
  assert (Hs : Spec.consistent scanned).
  { unfold scanned. apply analyzeFiles_consistent.
    apply analyzeFiles_consistent.
    unfold Spec.consistent, Spec.bucketsTotal. simpl. lia. }
  destruct (complexityAverage_frame scanned) as (Hd & Hf & _).
  split.
  - unfold Spec.consistent. rewrite Hd, Hf. exact Hs.
  - rewrite Hd, Hf. intros [Hpos H300].
    rewrite (complexityAverage_counted scanned Hpos).
    pose proof (weightedBuckets_bound scanned Hs) as Hb.
    assert (Hexact :
              Math_round
                (PrimFloat.div
                   (Z2f (Spec.weightedBuckets (CppAnalyzer.distribution scanned)))
                   (Z2f (CppAnalyzer.functions scanned)))
              = round_div
                  (Spec.weightedBuckets (CppAnalyzer.distribution scanned))
                  (CppAnalyzer.functions scanned))
      by (apply div_round_exact; lia).
    rewrite Hexact. split; [reflexivity|].
    pose proof (round_div_nearest
                  (Spec.weightedBuckets (CppAnalyzer.distribution scanned))
                  (CppAnalyzer.functions scanned) Hpos) as Hn.
    nia.
Qed.

(* ------------------------------------------------------------------ *)
(** ** Objects *)

Section Objects.

Context {V : Type}.

Lemma obj_get_set_same (k : string) (v : V) (o : Obj V) :
  obj_get k (obj_set k v o) = Some v.
Proof.
  induction o as [|[k' v'] r IH]; cbn [obj_set obj_get].
  - now rewrite String.eqb_refl.
  - destruct (String.eqb k' k) eqn:E; cbn [obj_get].
    + now rewrite String.eqb_refl.
    + now rewrite E.
Qed.

Lemma obj_get_set_other (k k' : string) (v : V) (o : Obj V) :
  k' <> k -> obj_get k (obj_set k' v o) = obj_get k o.
Proof.
  intros Hne. induction o as [|[k0 v0] r IH]; cbn [obj_set obj_get].
  - apply String.eqb_neq in Hne. now rewrite Hne.
  - destruct (String.eqb k0 k') eqn:E; cbn [obj_get].
    + apply String.eqb_eq in E. subst k0.
      apply String.eqb_neq in Hne. now rewrite Hne.
    + destruct (String.eqb k0 k); [reflexivity|exact IH].
Qed.

Lemma obj_get_None (k : string) (o : Obj V) :
  obj_get k o = None <-> ~ In k (obj_keys o).
Proof.
  unfold obj_keys. induction o as [|[k' v'] r IH]; cbn [obj_get map In fst].
  - tauto.
  - destruct (String.eqb k' k) eqn:E.
    + apply String.eqb_eq in E. split; [discriminate|]. intros H. tauto.
    + apply String.eqb_neq in E. rewrite IH. tauto.
Qed.

Lemma obj_get_In (k : string) (v : V) (o : Obj V) :
  NoDup (obj_keys o) -> In (k, v) o -> obj_get k o = Some v.
Proof.
  unfold obj_keys. induction o as [|[k' v'] r IH]; intros Hnd Hin;
    [contradiction|].
  cbn [map fst] in Hnd. inversion Hnd as [|? ? Hnotin Hnd']; subst.
  cbn [obj_get]. destruct Hin as [Heq|Hin].
  - inversion Heq; subst. now rewrite String.eqb_refl.
  - destruct (String.eqb k' k) eqn:E.
    + apply String.eqb_eq in E. subst k'. exfalso. apply Hnotin.
      change k with (fst (k, v)). now apply in_map.
    + now apply IH.
Qed.

(** Assigning to a key keeps the keys already there, in their order, and
    puts a new key last. *)
Lemma obj_keys_set (k : string) (v : V) (o : Obj V) :
  obj_keys (obj_set k v o)
  = if mem k (obj_keys o) then obj_keys o else (obj_keys o ++ [k])%list.
Proof.
  unfold obj_keys, mem. induction o as [|[k' v'] r IH];
    cbn [obj_set map fst existsb app]; [reflexivity|].
  rewrite (String.eqb_sym k k').
  destruct (String.eqb k' k) eqn:E; cbn [map fst orb].
  - apply String.eqb_eq in E. now subst.
  - now rewrite IH; destruct (existsb _ _).
Qed.

End Objects.

Lemma mem_In (x : string) (l : list string) : mem x l = true <-> In x l.
Proof.
  unfold mem. rewrite existsb_exists. split.
  - intros (y & Hy & E). apply String.eqb_eq in E. now subst.
  - intros H. exists x. split; [exact H|apply String.eqb_refl].
Qed.

(** Filtering the entries of an object keeps its keys distinct. *)
Lemma obj_filter_distinct {V : Type} (keep : string * V -> bool) (o : Obj V) :
  NoDup (obj_keys o) -> NoDup (obj_keys (filter keep o)).
Proof.
  unfold obj_keys. induction o as [|entry o IH]; cbn [map filter]; intros H;
    [constructor|].
  inversion H as [|? ? Hfresh Hrest]; subst.
  destruct (keep entry); cbn [map]; [|now apply IH].
  constructor; [|now apply IH].
  intros Hin. apply Hfresh. apply in_map_iff in Hin as (y & Hy & Hiny).
  apply filter_In in Hiny as [Hiny _]. rewrite <- Hy. now apply in_map.
Qed.

Lemma In_firstn {A : Type} (n : nat) (x : A) :
  forall l, In x (firstn n l) -> In x l.
Proof.
  induction n as [|n IH]; intros [|y l] H; cbn [firstn In] in *;
    try contradiction.
  destruct H as [H|H]; [now left|right; now apply IH].
Qed.

(** So does keeping its first entries. *)
Lemma obj_firstn_distinct {V : Type} (n : nat) :
  forall o : Obj V, NoDup (obj_keys o) -> NoDup (obj_keys (firstn n o)).
Proof.
  unfold obj_keys. induction n as [|n IH]; intros o H; [constructor|].
  destruct o as [|entry o]; [constructor|]. cbn [firstn map] in *.
  inversion H as [|? ? Hfresh Hrest]; subst.
  constructor; [|now apply IH].
  intros Hin. apply Hfresh. apply in_map_iff in Hin as (y & Hy & Hiny).
  apply In_firstn in Hiny. rewrite <- Hy. now apply in_map.
Qed.

(* ------------------------------------------------------------------ *)
(** ** The router (router.js, runAnalyzers) *)

Section RouterLoop.

Import LanguageDetector Router Spec.

Variable run : string -> Analyzer -> Outcome AnalysisResult.

(** The loop adds the weight and the weighted score of the languages
    whose analyzer returns, and lists them in order. *)
Lemma fold_analyzeStep_totals (sel : list (string * LanguageStat)) :
  forall st,
    let st' := fold_left (analyzeStep run) sel st in
    l_totalWeight st' = l_totalWeight st + weightSum run sel
    /\ l_weightedScore st' = l_weightedScore st + scoreSum run sel
    /\ l_analyzedLanguages st'
       = (l_analyzedLanguages st ++ map fst (filter (returned run) sel))%list.
Proof.
  induction sel as [|[lang data] sel IH]; intros st; cbn [fold_left].
  - unfold weightSum, scoreSum. cbn [fold_right filter map].
    rewrite app_nil_r. repeat split; lia.
  - cbn zeta in IH. specialize (IH (analyzeStep run st (lang, data))).
    destruct IH as (Hw & Hs & Ha). rewrite Hw, Hs, Ha.
    unfold weightSum, scoreSum. cbn [fold_right filter].
    fold (weightSum run sel). fold (scoreSum run sel).
    unfold returned at 2. unfold succeeded, analyzeStep. cbn [fst snd].
    destruct (ANALYZERS lang) as [a|];
      [|cbn [isSome]; repeat split; lia].
    destruct (run lang a) as [analysis|msg];
      cbn [l_totalWeight l_weightedScore l_analyzedLanguages isSome map fst].
    + rewrite <- app_assoc. cbn [app]. repeat split; lia.
    + repeat split; lia.
Qed.

(** What the loop leaves in [byLanguage] under a key. *)
Lemma fold_analyzeStep_byLanguage (sel : list (string * LanguageStat)) :
  forall st k,
    NoDup (map fst sel) ->
    obj_get k (l_byLanguage (fold_left (analyzeStep run) sel st))
    = match find (fun e => String.eqb (fst e) k) sel with
      | Some e =>
          match recorded run e with
          | Some v => Some v
          | None => obj_get k (l_byLanguage st)
          end
      | None => obj_get k (l_byLanguage st)
      end.
Proof.
  induction sel as [|[lang data] sel IH]; intros st k Hnd;
    cbn [fold_left find]; [reflexivity|].
  cbn [map fst] in Hnd. inversion Hnd as [|? ? Hnotin Hnd']; subst.
  rewrite (IH _ k Hnd'). cbn [fst].
  destruct (String.eqb lang k) eqn:E.
  - apply String.eqb_eq in E. subst k.
    assert (Hfind : find (fun e => String.eqb (fst e) lang) sel = None).
    { destruct (find _ sel) as [e|] eqn:F; [|reflexivity].
      apply find_some in F as [Hin He]. apply String.eqb_eq in He.
      exfalso. apply Hnotin. rewrite <- He. now apply in_map. }
    rewrite Hfind. unfold recorded, analyzeStep. cbn [fst].
    destruct (ANALYZERS lang) as [a|]; [|reflexivity].
    destruct (run lang a); cbn [l_byLanguage]; apply obj_get_set_same.
  - apply String.eqb_neq in E.
    assert (Hsame : obj_get k (l_byLanguage (analyzeStep run st (lang, data)))
                    = obj_get k (l_byLanguage st)).
    { unfold analyzeStep. destruct (ANALYZERS lang) as [a|]; [|reflexivity].
      destruct (run lang a); cbn [l_byLanguage];
        now apply obj_get_set_other. }
    rewrite Hsame. reflexivity.
Qed.

Lemma selected_In (languageStats : LanguageStats) (e : string * LanguageStat) :
  In e (languagesToAnalyze languageStats) ->
  In e (breakdown languageStats) /\ qualifies e = true.
Proof.
  unfold languagesToAnalyze, qualifies. intros H.
  apply In_firstn in H. apply filter_In in H as [Hin Hq]. split; [exact Hin|].
  apply andb_true_iff in Hq as [Hm Hp]. rewrite Hm. cbn [andb].
  apply Z.leb_le. apply Z.geb_le in Hp. exact Hp.
Qed.

Lemma selected_NoDup (languageStats : LanguageStats) :
  NoDup (obj_keys (breakdown languageStats)) ->
  NoDup (map fst (languagesToAnalyze languageStats)).
Proof.
  intros H. unfold languagesToAnalyze.
  apply obj_firstn_distinct. now apply obj_filter_distinct.
Qed.

Lemma selected_length (languageStats : LanguageStats) :
  (List.length (languagesToAnalyze languageStats) <= 3)%nat.
Proof. unfold languagesToAnalyze. apply firstn_le_length. Qed.

(** Every supported language has an analyzer. *)
Lemma supported_has_analyzer (lang : string) :
  mem lang SUPPORTED_LANGUAGES = true -> exists a, ANALYZERS lang = Some a.
Proof.
  intros H. apply mem_In in H. cbn [SUPPORTED_LANGUAGES In] in H.
  destruct H as [H|[H|[H|[H|[H|[]]]]]]; subst lang; eexists; reflexivity.
Qed.

(** The shape of the result of [runAnalyzers]. *)
Lemma runAnalyzers_shape (languageStats : LanguageStats) :
  let sel := languagesToAnalyze languageStats in
  let ca := runAnalyzers run languageStats in
  analyzedLanguages ca = map fst (filter (returned run) sel)
  /\ overallScore ca
     = (if weightSum run sel >? 0
        then Math_round (PrimFloat.div (Z2f (scoreSum run sel))
                                       (Z2f (weightSum run sel)))
        else 50)
  /\ (NoDup (obj_keys (breakdown languageStats)) ->
      forall e, In e sel ->
                obj_get (fst e) (byLanguage ca) = recorded run e).
Proof.
  intros sel ca. unfold ca, runAnalyzers. fold sel.
  destruct sel as [|e0 sel0] eqn:Hsel.
  - cbn. repeat split. intros _ e [].
  - rewrite <- Hsel.
    replace (Z.of_nat (List.length sel) =? 0) with false
      by (rewrite Hsel; reflexivity).
    pose proof (fold_analyzeStep_totals sel
                  {| l_byLanguage := []; l_analyzedLanguages := [];
                     l_totalWeight := 0; l_weightedScore := 0 |})
      as (Hw & Hs & Ha).
    cbn [l_totalWeight l_weightedScore l_analyzedLanguages app] in Hw, Hs, Ha.
    cbn [analyzedLanguages overallScore byLanguage].
    rewrite Hw, Hs, Ha. cbn [Z.add]. repeat split.
    intros Hnd e Hin.
    pose proof (selected_NoDup languageStats Hnd) as Hnd'. fold sel in Hnd'.
    rewrite fold_analyzeStep_byLanguage by exact Hnd'.
    cbn [l_byLanguage obj_get].
    assert (Hfind : find (fun e' => String.eqb (fst e') (fst e)) sel = Some e).
    { clear - Hnd' Hin. induction sel as [|x sel IH]; [contradiction|].
      cbn [map] in Hnd'. inversion Hnd' as [|? ? Hnotin Hnd'']; subst.
      cbn [find]. destruct Hin as [->|Hin].
      - now rewrite String.eqb_refl.
      - destruct (String.eqb (fst x) (fst e)) eqn:E; [|now apply IH].
        apply String.eqb_eq in E. exfalso. apply Hnotin. rewrite E.
        now apply in_map. }
    rewrite Hfind.
    destruct (selected_In languageStats e Hin) as [_ Hq].
    unfold qualifies in Hq. apply andb_true_iff in Hq as [Hm _].
    destruct (supported_has_analyzer _ Hm) as [a Ha'].
    unfold recorded. rewrite Ha'. now destruct (run (fst e) a).
Qed.

End RouterLoop.

Section RouterSums.

Import LanguageDetector Router Spec.

Variable run : string -> Analyzer -> Outcome AnalysisResult.

Lemma weightSum_none (sel : list (string * LanguageStat)) :
  filter (returned run) sel = [] -> weightSum run sel = 0.
Proof.
  unfold weightSum, returned.
  induction sel as [|e sel IH]; cbn [filter fold_right]; [reflexivity|].
  destruct (succeeded run e); cbn [isSome]; [discriminate|exact IH].
Qed.

Lemma sums_bounds (sel : list (string * LanguageStat)) :
  (forall e, In e sel -> 5 <= percentage (snd e) <= 100) ->
  (forall e r, In e sel -> succeeded run e = Some r -> 0 <= score r <= 100) ->
  0 <= weightSum run sel <= 100 * Z.of_nat (List.length sel)
  /\ 0 <= scoreSum run sel <= 100 * weightSum run sel
  /\ (filter (returned run) sel <> [] -> 5 <= weightSum run sel).
Proof.
  unfold weightSum, scoreSum, returned.
  induction sel as [|e sel IH]; intros Hp Hs.
  - cbn. repeat split; try lia. intros H. now contradiction H.
  - destruct IH as (Hw & Hsc & Hne).
    { intros e' H. apply Hp. now right. }
    { intros e' r H. apply Hs. now right. }
    cbn [fold_right filter List.length].
    specialize (Hp e (or_introl eq_refl)).
    specialize (Hs e).
    destruct (succeeded run e) as [r|]; cbn [isSome].
    + specialize (Hs r (or_introl eq_refl) eq_refl).
      repeat split; try nia.
    + repeat split; try lia. exact Hne.
Qed.

(** A key of an object with distinct keys has one entry. *)
Lemma NoDup_fst_eq {A B : Type} (l : list (A * B)) (e e' : A * B) :
  NoDup (map fst l) -> In e l -> In e' l -> fst e = fst e' -> e = e'.
Proof.
  induction l as [|x l IH]; intros Hnd He He' Hk; [contradiction|].
  cbn [map] in Hnd. inversion Hnd as [|? ? Hnotin Hnd']; subst.
  destruct He as [->|He], He' as [->|He'].
  - reflexivity.
  - exfalso. apply Hnotin. rewrite Hk. now apply in_map.
  - exfalso. apply Hnotin. rewrite <- Hk. now apply in_map.
  - now apply IH.
Qed.

(** The sums over [analyzedLanguages], read from the report and from the
    language statistics, are the sums the loop accumulates. *)
Lemma sums_lookup (languageStats : LanguageStats) :
  NoDup (obj_keys (breakdown languageStats)) ->
  let sel := languagesToAnalyze languageStats in
  let ca := runAnalyzers run languageStats in
  sum_over (weightOf languageStats) (analyzedLanguages ca)
  = weightSum run sel
  /\ sum_over (fun l => scoreOf ca l * weightOf languageStats l)
       (analyzedLanguages ca)
     = scoreSum run sel.
Proof.
  intros Hnd sel ca.
  destruct (runAnalyzers_shape run languageStats) as (Ha & _ & Hby).
  fold sel ca in Ha, Hby. specialize (Hby Hnd). rewrite Ha.
  assert (Hw : forall e, In e sel ->
                 weightOf languageStats (fst e) = percentage (snd e)).
  { intros [l d] Hin. unfold weightOf. cbn [fst snd].
    destruct (selected_In languageStats _ Hin) as [Hin' _].
    now rewrite (obj_get_In l d _ Hnd Hin'). }
  assert (Hs : forall e r, In e sel -> succeeded run e = Some r ->
                 scoreOf ca (fst e) = score r).
  { intros e r Hin Hr. unfold scoreOf. rewrite (Hby e Hin).
    unfold succeeded in Hr. unfold recorded.
    destruct (ANALYZERS (fst e)) as [a|]; [|discriminate].
    destruct (run (fst e) a); [|discriminate].
    now inversion Hr. }
  clear Ha Hby. revert Hw Hs. generalize sel as l. clear sel.
  unfold weightSum, scoreSum, sum_over, returned.
  induction l as [|e l IH]; intros Hw Hs; [split; reflexivity|].
  destruct IH as (IHw & IHs).
  { intros e' H. apply Hw. now right. }
  { intros e' r H. apply Hs. now right. }
  cbn [filter fold_right].
  specialize (Hw e (or_introl eq_refl)). specialize (Hs e).
  destruct (succeeded run e) as [r|]; cbn [isSome map fold_right].
  - specialize (Hs r (or_introl eq_refl) eq_refl).
    rewrite IHw, IHs, Hw, Hs. split; reflexivity.
  - split; assumption.
Qed.

Lemma weightSum_positive (sel : list (string * LanguageStat)) :
  (forall e, In e sel -> 5 <= percentage (snd e)) ->
  0 <= weightSum run sel
  /\ (filter (returned run) sel <> [] -> 5 <= weightSum run sel).
Proof.
  unfold weightSum, returned.
  induction sel as [|e sel IH]; intros Hp.
  - cbn. split; [lia|]. intros H. now contradiction H.
  - destruct IH as (Hw & Hne).
    { intros e' H. apply Hp. now right. }
    cbn [fold_right filter]. specialize (Hp e (or_introl eq_refl)).
    destruct (succeeded run e); cbn [isSome]; split; try lia. exact Hne.
Qed.

(** With at least one analyzed language, the code score is
    [Math.round (weightedScore / totalWeight)], the two sums taken over
    the analyzed languages. *)
Lemma runAnalyzers_mean_binary64 (languageStats : LanguageStats) :
  NoDup (obj_keys (breakdown languageStats)) ->
  let ca := runAnalyzers run languageStats in
  analyzedLanguages ca <> [] ->
  overallScore ca = weightedMeanBinary64 languageStats ca.
Proof.
  intros Hnd ca Hne.
  destruct (runAnalyzers_shape run languageStats) as (Ha & Ho & _).
  destruct (sums_lookup languageStats Hnd) as (Hlw & Hls).
  cbn zeta in Ha, Ho, Hlw, Hls. fold ca in Ha, Ho, Hlw, Hls.
  set (sel := languagesToAnalyze languageStats) in *.
  destruct (weightSum_positive sel) as (_ & Hpos).
  { intros e Hin. destruct (selected_In languageStats _ Hin) as [_ Hq].
    unfold qualifies in Hq. apply andb_true_iff in Hq as [_ Hq].
    now apply Z.leb_le in Hq. }
  assert (Hne' : filter (returned run) sel <> []).
  { intros H. apply Hne. now rewrite Ha, H. }
  specialize (Hpos Hne').
  rewrite Ho. destruct (Z.gtb_spec (weightSum run sel) 0); [|lia].
  unfold weightedMeanBinary64. now rewrite Hlw, Hls.
Qed.

(** The code score is the rounded weighted mean over the analyzed
    languages, and 50 when there is none. *)
Lemma runAnalyzers_mean (languageStats : LanguageStats) :
  NoDup (obj_keys (breakdown languageStats)) ->
  (forall l d, In (l, d) (breakdown languageStats) -> percentage d <= 100) ->
  (forall l a r, run l a = Returned r -> 0 <= score r <= 100) ->
  let ca := runAnalyzers run languageStats in
  (analyzedLanguages ca <> [] -> overallScore ca = weightedMean languageStats ca)
  /\ (analyzedLanguages ca = [] -> overallScore ca = 50).
Proof.
  intros Hnd Hpct Hscore ca.
  destruct (runAnalyzers_shape run languageStats) as (Ha & Ho & _).
  destruct (sums_lookup languageStats Hnd) as (Hlw & Hls).
  cbn zeta in Ha, Ho, Hlw, Hls. fold ca in Ha, Ho, Hlw, Hls.
  set (sel := languagesToAnalyze languageStats) in *.
  destruct (sums_bounds sel) as (Hw & Hs & Hpos).
  { intros [l d] Hin. destruct (selected_In languageStats _ Hin) as [Hb Hq].
    unfold qualifies in Hq. apply andb_true_iff in Hq as [_ Hq].
    apply Z.leb_le in Hq. cbn [snd] in *. specialize (Hpct l d Hb). lia. }
  { intros e r _ Hr. unfold succeeded in Hr.
    destruct (ANALYZERS (fst e)) as [a|]; [|discriminate].
    destruct (run (fst e) a) as [r'|] eqn:E; [|discriminate].
    inversion Hr; subst. exact (Hscore _ _ _ E). }
  pose proof (selected_length languageStats) as Hlen. fold sel in Hlen.
  split.
  - intros Hne. rewrite Ha in Hne.
    assert (Hne' : filter (returned run) sel <> []).
    { intros H. apply Hne. now rewrite H. }
    specialize (Hpos Hne').
    rewrite Ho. destruct (Z.gtb_spec (weightSum run sel) 0); [|lia].
    unfold weightedMean. rewrite Hlw, Hls.
    apply div_round_exact; lia.
  - intros He. rewrite Ha in He. apply map_eq_nil in He.
    rewrite Ho, (weightSum_none sel He). reflexivity.
Qed.

(** The code score is an integer of [0, 100]. *)
Lemma runAnalyzers_score_range (languageStats : LanguageStats) :
  NoDup (obj_keys (breakdown languageStats)) ->
  (forall l d, In (l, d) (breakdown languageStats) -> percentage d <= 100) ->
  (forall l a r, run l a = Returned r -> 0 <= score r <= 100) ->
  0 <= overallScore (runAnalyzers run languageStats) <= 100.
Proof.
  intros Hnd Hpct Hscore.
  destruct (runAnalyzers_mean languageStats Hnd Hpct Hscore) as (Hmean & Hnone).
  destruct (runAnalyzers_shape run languageStats) as (Ha & _ & _).
  destruct (sums_lookup languageStats Hnd) as (Hlw & Hls).
  cbn zeta in Hmean, Hnone, Ha, Hlw, Hls.
  set (ca := runAnalyzers run languageStats) in *.
  set (sel := languagesToAnalyze languageStats) in *.
  destruct (analyzedLanguages ca) as [|l0 ls] eqn:E.
  - rewrite (Hnone eq_refl). lia.
  - rewrite Hmean by discriminate. unfold weightedMean.
    rewrite E, Hlw, Hls.
    destruct (sums_bounds sel) as (Hw & Hs & Hpos).
    { intros [l d] Hin. destruct (selected_In languageStats _ Hin) as [Hb Hq].
      unfold qualifies in Hq. apply andb_true_iff in Hq as [_ Hq].
      apply Z.leb_le in Hq. cbn [snd] in *. specialize (Hpct l d Hb). lia. }
    { intros e r _ Hr. unfold succeeded in Hr.
      destruct (ANALYZERS (fst e)) as [a|]; [|discriminate].
      destruct (run (fst e) a) as [r'|] eqn:Er; [|discriminate].
      inversion Hr; subst. exact (Hscore _ _ _ Er). }
    assert (Hne : filter (returned run) sel <> []).
    { intros H. rewrite H in Ha. discriminate Ha. }
    specialize (Hpos Hne).
    pose proof (round_div_nearest (scoreSum run sel) (weightSum run sel)
                  ltac:(lia)) as Hn.
    nia.
Qed.

End RouterSums.

(* ------------------------------------------------------------------ *)
(** ** The code score *)

Section CodeScore.

Import LanguageDetector Router Spec.

(** C3.  With at least one analyzed language,
    [codeAnalysis.overallScore] is the percentage-weighted mean of the
    analyzed languages' scores, rounded to an integer: the sum, over
    [analyzedLanguages], of [byLanguage[l].score] times the language's
    [percentage], divided by the sum of these percentages and given to
    [Math.round].  The binary64 quotient rounds to the integer nearest
    to the exact mean (percentages at most 100, scores in [0, 100]).
    With Python at 70 percent scoring 80 and JavaScript at 30 percent
    scoring 60 the score is 74. *)
Theorem runAnalyzers_weighted_mean :
  (forall run languageStats,
      NoDup (obj_keys (breakdown languageStats)) ->
      analyzedLanguages (runAnalyzers run languageStats) <> [] ->
      overallScore (runAnalyzers run languageStats)
      = weightedMeanBinary64 languageStats (runAnalyzers run languageStats))
  /\ (forall run languageStats,
      NoDup (obj_keys (breakdown languageStats)) ->
      (forall l d, In (l, d) (breakdown languageStats) -> percentage d <= 100) ->
      (forall l a r, run l a = Returned r -> 0 <= score r <= 100) ->
      analyzedLanguages (runAnalyzers run languageStats) <> [] ->
      overallScore (runAnalyzers run languageStats)
      = weightedMean languageStats (runAnalyzers run languageStats))
  /\ (forall run languageStats python javaScript r1 r2,
      breakdown languageStats
      = [ ("Python", python); ("JavaScript", javaScript) ] ->
      percentage python = 70 -> percentage javaScript = 30 ->
      run "Python" analyzePython = Returned r1 -> score r1 = 80 ->
      run "JavaScript" analyzeJavaScript = Returned r2 -> score r2 = 60 ->
      overallScore (runAnalyzers run languageStats) = 74
      /\ analyzedLanguages (runAnalyzers run languageStats)
         = [ "Python"; "JavaScript" ]).
Proof.
  split; [|split].
  - intros run languageStats Hnd Hne.
    now apply runAnalyzers_mean_binary64.
  - intros run languageStats Hnd Hpct Hscore Hne.
    now apply (proj1 (runAnalyzers_mean run languageStats Hnd Hpct Hscore)).
  - intros run languageStats python javaScript r1 r2 Hb Hp Hj H1 Hs1 H2 Hs2.
    unfold runAnalyzers, languagesToAnalyze. rewrite Hb.
    cbn [filter fst snd mem existsb SUPPORTED_LANGUAGES].
    rewrite Hp, Hj.
    cbn -[Math_round PrimFloat.div Z2f Z.mul Z.add].
    rewrite H1, H2.
    cbn -[Math_round PrimFloat.div Z2f Z.mul Z.add].
    rewrite Hs1, Hs2, Hp, Hj. split; reflexivity.
Qed.

Lemma runAnalyzers_weighted_mean_witness :
  overallScore (runAnalyzers run_80_60 stats_70_30)
  = weightedMean stats_70_30 (runAnalyzers run_80_60 stats_70_30)
  /\ overallScore (runAnalyzers run_80_60 stats_70_30) = 74.
Proof.
  split.
  - apply (proj1 (proj2 runAnalyzers_weighted_mean) run_80_60 stats_70_30).
    + repeat constructor; simpl; intuition discriminate.
    + intros l d [H|[H|[]]]; inversion H; subst; simpl; lia.
    + intros l a r. destruct a; simpl; intros H; inversion H; simpl; lia.
    + discriminate.
  - reflexivity.
Defined.

(** C5.  When no language of the statistics is both supported and at 5
    percent or more, [runAnalyzers] calls no analyzer and returns the
    code analysis with [overallScore] 50, an empty [byLanguage], no
    analyzed language and the message of line 34.  A repository of Ruby
    files only is such a case. *)
Theorem runAnalyzers_no_language :
  (forall run languageStats,
      (forall e, In e (breakdown languageStats) -> qualifies e = false) ->
      runAnalyzers run languageStats
      = {| byLanguage := [];
           overallScore := 50;
           analyzedLanguages := [];
           message :=
             Some "No supported languages found with significant code" |})
  /\ (forall run,
      let ruby :=
        detectLanguages "/tmp/repo"
          [ Dir "lib"
              [ File "app.rb"
                  (Some {| content := "puts 1"; size := 6 |}) ];
            File "tasks.rb" None ] in
      obj_keys (breakdown ruby) = [ "Ruby" ]
      /\ overallScore (runAnalyzers run ruby) = 50
      /\ byLanguage (runAnalyzers run ruby) = []).
Proof.
  assert (Hgen : forall run languageStats,
      (forall e, In e (breakdown languageStats) -> qualifies e = false) ->
      runAnalyzers run languageStats
      = {| byLanguage := [];
           overallScore := 50;
           analyzedLanguages := [];
           message :=
             Some "No supported languages found with significant code" |}).
  { intros run languageStats Hnone. unfold runAnalyzers, languagesToAnalyze.
    assert (Hf : filter
                   (fun e => (mem (fst e) SUPPORTED_LANGUAGES
                              && (percentage (snd e) >=? 5))%bool)
                   (breakdown languageStats) = []).
    { induction (breakdown languageStats) as [|e l IH]; [reflexivity|].
      cbn [filter].
      pose proof (Hnone e (or_introl eq_refl)) as He. unfold qualifies in He.
      rewrite Z.geb_leb, He. apply IH. intros e' H. apply Hnone. now right. }
    rewrite Hf. reflexivity. }
  split; [exact Hgen|].
  intros run ruby.
  assert (Hk : obj_keys (breakdown ruby) = [ "Ruby" ])
    by (vm_compute; reflexivity).
  assert (Hr : runAnalyzers run ruby
               = {| byLanguage := []; overallScore := 50;
                    analyzedLanguages := [];
                    message :=
                      Some "No supported languages found with significant code" |}).
  { apply Hgen. intros [l d] Hin.
    assert (Hl : In l (obj_keys (breakdown ruby)))
      by (change l with (fst (l, d)); now apply in_map).
    rewrite Hk in Hl. destruct Hl as [<-|[]]. reflexivity. }
  rewrite Hr. split; [exact Hk|split; reflexivity].
Qed.

Lemma runAnalyzers_no_language_witness :
  overallScore (runAnalyzers run_80_60 stats_ruby) = 50
  /\ byLanguage (runAnalyzers run_80_60 stats_ruby) = [].
Proof.
  rewrite (proj1 runAnalyzers_no_language run_80_60 stats_ruby).
  - split; reflexivity.
  - intros e [<-|[<-|[]]]; reflexivity.
Defined.

End CodeScore.

(* ------------------------------------------------------------------ *)
(** ** An analyzer that throws *)

Section FailedAnalyzer.

Import LanguageDetector Router Spec.

(** C10.  When the analyzer of a selected language throws, the router
    records [{score: 50, error: message}] for it in [byLanguage], leaves
    it out of [analyzedLanguages], and gives it no part in
    [overallScore]: the analyzed languages are those whose analyzer
    returned, the score is [Math.round] of the weighted mean over them
    alone (the integer nearest to the exact mean, for percentages at
    most 100 and scores in [0, 100]), and it is 50 when none is left, in
    particular when every selected analyzer throws. *)
Theorem runAnalyzers_failed_analyzer
  (run : string -> Analyzer -> Outcome AnalysisResult)
  (languageStats : LanguageStats) (e : string * LanguageStat)
  (analyzer : Analyzer) (error_message : string) :
  let sel := languagesToAnalyze languageStats in
  let ca := runAnalyzers run languageStats in
  NoDup (obj_keys (breakdown languageStats)) ->
  In e sel ->
  ANALYZERS (fst e) = Some analyzer ->
  run (fst e) analyzer = Thrown error_message ->
  obj_get (fst e) (byLanguage ca) = Some (Degraded 50 error_message)
  /\ ~ In (fst e) (analyzedLanguages ca)
  /\ analyzedLanguages ca = map fst (filter (returned run) sel)
  /\ (analyzedLanguages ca <> [] ->
      overallScore ca = weightedMeanBinary64 languageStats ca)
  /\ ((forall l d, In (l, d) (breakdown languageStats) -> percentage d <= 100) ->
      (forall l a r, run l a = Returned r -> 0 <= score r <= 100) ->
      analyzedLanguages ca <> [] ->
      overallScore ca = weightedMean languageStats ca)
  /\ (analyzedLanguages ca = [] -> overallScore ca = 50)
  /\ ((forall e', In e' sel -> succeeded run e' = None) ->
      analyzedLanguages ca = [] /\ overallScore ca = 50).
Proof.
  intros sel ca Hnd Hin Han Hrun.
  destruct (runAnalyzers_shape run languageStats) as (Ha & Ho & Hby).
  fold sel ca in Ha, Ho, Hby.
  assert (Hzero : analyzedLanguages ca = [] -> overallScore ca = 50).
  { intros He. rewrite Ha in He. apply map_eq_nil in He.
    rewrite Ho, (weightSum_none run sel He). reflexivity. }
  split; [|split; [|split; [exact Ha|split;
    [now apply runAnalyzers_mean_binary64|split; [|split; [exact Hzero|]]]]]].
  - rewrite (Hby Hnd e Hin). unfold recorded. now rewrite Han, Hrun.
  - rewrite Ha. intros Hmem.
    apply in_map_iff in Hmem as (e' & Hk & Hin').
    apply filter_In in Hin' as [Hin' Hret].
    assert (e' = e).
    { apply (NoDup_fst_eq sel); try assumption.
      now apply selected_NoDup. }
    subst e'. unfold returned, succeeded in Hret.
    rewrite Han, Hrun in Hret. discriminate.
  - intros Hpct Hscore Hne.
    now apply (proj1 (runAnalyzers_mean run languageStats Hnd Hpct Hscore)).
  - intros Hall.
    assert (He : analyzedLanguages ca = []).
    { rewrite Ha. clear - Hall. induction sel as [|x l IH]; [reflexivity|].
      cbn [filter]. unfold returned at 1.
      rewrite (Hall x (or_introl eq_refl)). cbn [isSome].
      apply IH. intros e' H. apply Hall. now right. }
    split; [exact He|now apply Hzero].
Qed.

Lemma runAnalyzers_failed_analyzer_witness :
  obj_get "Python" (byLanguage (runAnalyzers run_python_throws stats_60_40))
  = Some (Degraded 50 "spawn python ENOENT")
  /\ analyzedLanguages (runAnalyzers run_python_throws stats_60_40) = [ "C++" ]
  /\ overallScore (runAnalyzers run_python_throws stats_60_40) = 90.
Proof.
  destruct (runAnalyzers_failed_analyzer run_python_throws stats_60_40
              ("Python", stat 60) analyzePython "spawn python ENOENT")
    as (Hdeg & _ & _ & _ & _ & _ & _).
  - repeat constructor; simpl; intuition discriminate.
  - simpl. now left.
  - reflexivity.
  - reflexivity.
  - split; [exact Hdeg|split; reflexivity].
Defined.

End FailedAnalyzer.

(* ------------------------------------------------------------------ *)
(** ** The language classifier (languageDetector.js) *)

Section EntryInduction.

Import LanguageDetector.

Variable P : Entry -> Prop.
Hypothesis P_File : forall name data, P (File name data).
Hypothesis P_Other : forall name, P (Other name).
Hypothesis P_Dir :
  forall name entries, (forall e, In e entries -> P e) -> P (Dir name entries).

(** Induction on a file tree, with the property known of every entry of
    a directory. *)
Fixpoint Entry_nested_ind (e : Entry) : P e :=
  match e with
  | File name data => P_File name data
  | Other name => P_Other name
  | Dir name entries =>
      P_Dir name entries
        ((fix all (l : list Entry) : forall x, In x l -> P x :=
            match l with
            | [] => fun x H => match H with end
            | y :: r =>
                fun x H =>
                  match H with
                  | or_introl E => eq_ind y P (Entry_nested_ind y) x E
                  | or_intror H' => all r x H'
                  end
            end) entries)
  end.

End EntryInduction.

Section Walk.

Import LanguageDetector Spec.

Context {S : Type}.
Variable callback : string -> option FileData -> S -> S.

Lemma fold_left_flat_map {A B : Type} (g : S -> B -> S) (h : A -> list B)
  (step : S -> A -> S) (l : list A) :
  (forall a s, In a l -> step s a = fold_left g (h a) s) ->
  forall s, fold_left step l s = fold_left g (flat_map h l) s.
Proof.
  induction l as [|a l IH]; intros H s; [reflexivity|].
  cbn [fold_left flat_map]. rewrite fold_left_app, (H a s (or_introl eq_refl)).
  apply IH. intros a' s' Hin. apply H. now right.
Qed.

(** The walk calls the callback on [entryFiles], in that order. *)
Lemma walkEntry_files (e : Entry) :
  forall dir s,
    walkEntry callback dir e s = fold_left (feed callback) (entryFiles dir e) s.
Proof.
  induction e as [name data|name|name entries IH] using Entry_nested_ind;
    intros dir s; cbn [walkEntry entryFiles entry_name]; try reflexivity.
  destruct (negb (mem name IGNORE_DIRS) && negb (startsWith name "."))%bool;
    [|reflexivity].
  apply fold_left_flat_map. intros a s' Hin. now apply IH.
Qed.

Lemma walkDirectory_files (dir : string) (entries : list Entry) (s : S) :
  walkDirectory callback dir entries s
  = fold_left (feed callback) (walkFiles dir entries) s.
Proof.
  unfold walkDirectory, walkFiles. apply fold_left_flat_map.
  intros a s' _. apply walkEntry_files.
Qed.

End Walk.

Section Sorting.

Context {V : Type}.
Variable cmp : string * V -> string * V -> Z.

Lemma insert_by_In (x y : string * V) (l : list (string * V)) :
  In y (insert_by cmp x l) <-> y = x \/ In y l.
Proof.
  induction l as [|z r IH]; cbn [insert_by In].
  - intuition congruence.
  - destruct (cmp x z <=? 0); cbn [In]; [intuition congruence|].
    rewrite IH. intuition congruence.
Qed.

Lemma sort_by_In (y : string * V) (l : list (string * V)) :
  In y (sort_by cmp l) <-> In y l.
Proof.
  unfold sort_by. induction l as [|x r IH]; cbn [fold_right In]; [tauto|].
  rewrite insert_by_In, IH. intuition congruence.
Qed.

Lemma insert_by_get (k : string) (x : string * V) (o : Obj V) :
  ~ In (fst x) (obj_keys o) ->
  obj_get k (insert_by cmp x o)
  = if String.eqb (fst x) k then Some (snd x) else obj_get k o.
Proof.
  destruct x as [kx vx]. unfold obj_keys. cbn [fst snd].
  induction o as [|[ky vy] r IH]; intros Hfresh; cbn [insert_by].
  - reflexivity.
  - destruct (cmp (kx, vx) (ky, vy) <=? 0); [reflexivity|].
    cbn [obj_get]. cbn [map fst In] in Hfresh.
    rewrite IH by tauto.
    destruct (String.eqb ky k) eqn:Ey; [|reflexivity].
    destruct (String.eqb kx k) eqn:Ex; [|reflexivity].
    apply String.eqb_eq in Ey, Ex. subst. tauto.
Qed.

Lemma insert_by_perm (x : string * V) (l : list (string * V)) :
  Permutation (insert_by cmp x l) (x :: l).
Proof.
  induction l as [|y r IH]; cbn [insert_by]; [reflexivity|].
  destruct (cmp x y <=? 0); [reflexivity|].
  rewrite IH. apply perm_swap.
Qed.

(** Sorting permutes the entries. *)
Lemma sort_by_perm (l : list (string * V)) : Permutation (sort_by cmp l) l.
Proof.
  unfold sort_by. induction l as [|x r IH]; cbn [fold_right]; [reflexivity|].
  rewrite insert_by_perm. now constructor.
Qed.

(** Sorting an object's entries changes no lookup. *)
Lemma sort_by_get (k : string) (o : Obj V) :
  NoDup (obj_keys o) -> obj_get k (sort_by cmp o) = obj_get k o.
Proof.
  induction o as [|[kx vx] r IH]; intros Hnd; [reflexivity|].
  unfold obj_keys in Hnd. cbn [map fst] in Hnd.
  inversion Hnd as [|? ? Hfresh Hrest]; subst.
  change (sort_by cmp ((kx, vx) :: r))
    with (insert_by cmp (kx, vx) (sort_by cmp r)).
  rewrite insert_by_get.
  - cbn [fst snd obj_get]. now rewrite IH.
  - cbn [fst]. unfold obj_keys. intros Hin. apply Hfresh.
    apply in_map_iff in Hin as (y & Hy & Hiny).
    rewrite sort_by_In in Hiny. rewrite <- Hy. now apply in_map.
Qed.

End Sorting.

Lemma obj_get_mem {V : Type} (k : string) (o : Obj V) :
  mem k (obj_keys o) = Spec.isSome (obj_get k o).
Proof.
  unfold Spec.isSome.
  destruct (obj_get k o) eqn:E.
  - apply mem_In. destruct (in_dec string_dec k (obj_keys o)) as [H|H];
      [exact H|]. apply obj_get_None in H. congruence.
  - apply obj_get_None in E. destruct (mem k (obj_keys o)) eqn:M;
      [|reflexivity]. apply mem_In in M. contradiction.
Qed.

Section Collect.

Import LanguageDetector Spec.

Lemma onFile_keys (filePath : string) (data : option FileData)
  (stats : Obj Stat) :
  obj_keys (onFile filePath data stats)
  = match languageOf filePath with
    | Some l => addKey (obj_keys stats) l
    | None => obj_keys stats
    end.
Proof.
  unfold onFile, languageOf, addKey.
  destruct (obj_get (toLowerCase (extname filePath)) EXTENSION_MAP)
    as [language|]; [|reflexivity].
  rewrite obj_get_mem.
  destruct (obj_get language stats) as [st|] eqn:E; cbn [isSome].
  - rewrite E. destruct data; rewrite obj_keys_set, obj_get_mem, E;
      reflexivity.
  - rewrite obj_get_set_same.
    destruct data; rewrite obj_keys_set, obj_get_mem, obj_get_set_same;
      cbn [isSome]; rewrite obj_keys_set, obj_get_mem, E; reflexivity.
Qed.

Lemma feed_onFile_keys (files : list (string * option FileData)) :
  forall stats,
    obj_keys (fold_left (feed onFile) files stats)
    = fold_left addKey (labels files) (obj_keys stats).
Proof.
  induction files as [|f files IH]; intros stats; cbn [fold_left labels];
    [reflexivity|].
  rewrite IH. unfold feed. rewrite onFile_keys.
  destruct (languageOf (fst f)); reflexivity.
Qed.

(** The keys of the statistics are the labels met by the walk, each at
    its first occurrence. *)
Lemma collect_keys (repoPath : string) (root : list Entry) :
  obj_keys (collect repoPath root)
  = fold_left addKey (encountered repoPath root) [].
Proof.
  unfold collect, encountered.
  now rewrite walkDirectory_files, feed_onFile_keys.
Qed.

Lemma before_app_r (l l' : string) (xs ys : list string) :
  before l l' xs -> before l l' (xs ++ ys).
Proof.
  intros (a & b & -> & Hno). exists a, (b ++ ys)%list.
  split; [|exact Hno]. now rewrite <- app_assoc.
Qed.

(** How a list that ends with [x] splits around an element. *)
Lemma snoc_split (keys a b : list string) (x l : string) :
  (keys ++ [x] = a ++ l :: b)%list ->
  (b = [] /\ a = keys /\ l = x)
  \/ (exists b', b = (b' ++ [x])%list /\ keys = (a ++ l :: b')%list).
Proof.
  intros H. induction b as [|z b' _] using rev_ind.
  - left. apply app_inj_tail in H as [-> ->]. tauto.
  - right. exists b'.
    replace (a ++ l :: b' ++ [z])%list with ((a ++ l :: b') ++ [z])%list in H
      by (rewrite <- app_assoc; reflexivity).
    apply app_inj_tail in H as [-> ->]. tauto.
Qed.

Lemma addKey_fold (seen : list string) :
  let keys := fold_left addKey seen [] in
  NoDup keys
  /\ (forall l, In l keys <-> In l seen)
  /\ (forall l l', before l l' keys -> before l l' seen).
Proof.
  induction seen as [|x seen IH] using rev_ind.
  - cbn. split; [constructor|]. split; [tauto|].
    intros l l' (a & b & H & _). now destruct a.
  - cbn zeta in *. rewrite fold_left_app. cbn [fold_left].
    set (keys := fold_left addKey seen []) in *.
    destruct IH as (Hnd & Hmem & Hbef).
    unfold addKey. destruct (mem x keys) eqn:M.
    + apply mem_In in M. split; [exact Hnd|]. split.
      * intros l. rewrite in_app_iff, Hmem. cbn [In].
        split; [tauto|]. intros [H|[<-|[]]]; [exact H|]. now apply Hmem.
      * intros l l' H. apply before_app_r. now apply Hbef.
    + assert (Hx : ~ In x keys).
      { intros H. apply mem_In in H. congruence. }
      split; [|split].
      * apply NoDup_app; [exact Hnd|repeat constructor; tauto|].
        intros y Hy [<-|[]]. contradiction.
      * intros l. rewrite !in_app_iff, Hmem. tauto.
      * intros l l' (a & b & Hsplit & Hno).
        apply snoc_split in Hsplit
            as [(-> & -> & ->)|(b' & -> & Hkeys)].
        -- exists seen, []. split; [reflexivity|].
           intros H. apply Hno. now apply Hmem.
        -- apply before_app_r. apply Hbef. exists a, b'. tauto.
Qed.

End Collect.

Section Summarize.

Import LanguageDetector Spec.

Variable totalLines : Z.

Lemma primaryStep_breakdown (st : PrimaryLoop) (l : string) (d : Stat) :
  pl_breakdown (primaryStep totalLines st (l, d))
  = obj_set l (withPercentage totalLines d) (pl_breakdown st).
Proof.
  unfold primaryStep. now destruct (lines d >? pl_maxLines st).
Qed.

Lemma obj_set_distinct {V : Type} (k : string) (v : V) (o : Obj V) :
  NoDup (obj_keys o) -> NoDup (obj_keys (obj_set k v o)).
Proof.
  intros H. rewrite obj_keys_set. destruct (mem k (obj_keys o)) eqn:M;
    [exact H|].
  apply NoDup_app; [exact H|repeat constructor; tauto|].
  intros y Hy [<-|[]]. apply mem_In in Hy. congruence.
Qed.

Lemma primaryStep_fold_distinct (es : list (string * Stat)) :
  forall st, NoDup (obj_keys (pl_breakdown st)) ->
             NoDup (obj_keys
                      (pl_breakdown (fold_left (primaryStep totalLines) es st))).
Proof.
  induction es as [|[l d] es IH]; intros st H; cbn [fold_left]; [exact H|].
  apply IH. rewrite primaryStep_breakdown. now apply obj_set_distinct.
Qed.

(** The loop copies every entry of [stats] to [breakdown]. *)
Lemma primaryStep_fold_get (es : Obj Stat) :
  forall st k,
    NoDup (obj_keys es) ->
    obj_get k (pl_breakdown (fold_left (primaryStep totalLines) es st))
    = match obj_get k es with
      | Some d => Some (withPercentage totalLines d)
      | None => obj_get k (pl_breakdown st)
      end.
Proof.
  unfold obj_keys.
  induction es as [|[l d] es IH]; intros st k Hnd; cbn [fold_left obj_get];
    [reflexivity|].
  cbn [map fst] in Hnd. inversion Hnd as [|? ? Hfresh Hrest]; subst.
  rewrite (IH _ k Hrest), primaryStep_breakdown.
  destruct (String.eqb l k) eqn:E.
  - apply String.eqb_eq in E. subst k.
    assert (Hn : obj_get l es = None) by now apply obj_get_None.
    rewrite Hn. apply obj_get_set_same.
  - apply String.eqb_neq in E. rewrite obj_get_set_other by exact E.
    reflexivity.
Qed.

(** The loop keeps the first entry that holds the maximum, provided the
    maximum exceeds the initial [maxLines]. *)
Lemma primaryStep_fold_primary (es : Obj Stat) :
  forall st,
    let st' := fold_left (primaryStep totalLines) es st in
    pl_maxLines st <= pl_maxLines st'
    /\ (forall e, In e es -> lines (snd e) <= pl_maxLines st')
    /\ ((pl_primary st' = pl_primary st /\ pl_maxLines st' = pl_maxLines st)
        \/ exists es1 e es2,
            es = (es1 ++ e :: es2)%list
            /\ pl_primary st' = Some (fst e)
            /\ lines (snd e) = pl_maxLines st'
            /\ pl_maxLines st < lines (snd e)
            /\ forall e', In e' es1 -> lines (snd e') < lines (snd e)).
Proof.
  induction es as [|[l d] es IH]; intros st; cbn [fold_left].
  - cbn zeta. split; [lia|]. split; [intros e []|]. left. tauto.
  - cbn zeta in *. specialize (IH (primaryStep totalLines st (l, d))).
    destruct IH as (Hmax & Hall & Hprim).
    set (st' := fold_left (primaryStep totalLines) es _) in *.
    assert (Hstep :
              (lines d > pl_maxLines st
               /\ pl_maxLines (primaryStep totalLines st (l, d)) = lines d
               /\ pl_primary (primaryStep totalLines st (l, d)) = Some l)
              \/ (lines d <= pl_maxLines st
                  /\ pl_maxLines (primaryStep totalLines st (l, d))
                     = pl_maxLines st
                  /\ pl_primary (primaryStep totalLines st (l, d))
                     = pl_primary st)).
    { unfold primaryStep.
      destruct (Z.gtb_spec (lines d) (pl_maxLines st));
        cbn [pl_maxLines pl_primary]; [left|right]; repeat split; lia. }
    split; [|split].
    + destruct Hstep as [(H1 & H2 & _)|(H1 & H2 & _)]; lia.
    + intros e [<-|Hin]; [|now apply Hall]. cbn [snd].
      destruct Hstep as [(H1 & H2 & _)|(H1 & H2 & _)]; lia.
    + destruct Hprim as [(Hp & Hm)|(es1 & e & es2 & -> & Hp & Hl & Hgt & Hlt)].
      * destruct Hstep as [(H1 & H2 & H3)|(H1 & H2 & H3)].
        -- right. exists [], (l, d), es. cbn [app fst snd].
           repeat split; try congruence; try lia. intros e' [].
        -- left. split; congruence.
      * right. exists ((l, d) :: es1), e, es2. cbn [app].
        repeat split; try assumption.
        -- destruct Hstep as [(H1 & H2 & _)|(H1 & H2 & _)]; lia.
        -- intros e' [<-|Hin]; [|now apply Hlt]. cbn [snd].
           destruct Hstep as [(H1 & H2 & _)|(H1 & H2 & _)]; lia.
Qed.

End Summarize.

Section PrimaryLanguage.

Import LanguageDetector Spec.

Lemma collect_distinct (repoPath : string) (root : list Entry) :
  NoDup (obj_keys (collect repoPath root)).
Proof. rewrite collect_keys. apply addKey_fold. Qed.

Lemma summarize_lines (stats : Obj Stat) (l : string) :
  NoDup (obj_keys stats) ->
  linesOf (summarize stats) l
  = match obj_get l stats with Some d => lines d | None => 0 end.
Proof.
  intros Hnd. unfold linesOf, summarize. cbn [breakdown].
  rewrite sort_by_get
    by (apply primaryStep_fold_distinct; cbn; constructor).
  rewrite primaryStep_fold_get by exact Hnd.
  cbn [pl_breakdown obj_get]. now destruct (obj_get l stats).
Qed.

(** The breakdown of [detectLanguages] holds each language once. *)
Lemma detectLanguages_distinct (repoPath : string) (root : list Entry) :
  NoDup (obj_keys (breakdown (detectLanguages repoPath root))).
Proof.
  unfold detectLanguages, summarize, obj_keys. cbn [breakdown].
  eapply Permutation_NoDup.
  - apply Permutation_map. symmetry. apply sort_by_perm.
  - apply primaryStep_fold_distinct. cbn. constructor.
Qed.

Lemma obj_get_Some_In {V : Type} (k : string) (v : V) (o : Obj V) :
  obj_get k o = Some v -> In (k, v) o.
Proof.
  induction o as [|[k' v'] r IH]; cbn [obj_get]; [discriminate|].
  destruct (String.eqb k' k) eqn:E.
  - apply String.eqb_eq in E. intros H. inversion H; subst. now left.
  - intros H. right. now apply IH.
Qed.

Lemma split_compare (x y : string) (a1 b1 a2 b2 : list string) :
  (a1 ++ x :: b1 = a2 ++ y :: b2)%list ->
  (a1 = a2 /\ x = y) \/ In x a2 \/ In y a1.
Proof.
  revert a2. induction a1 as [|h a1 IH]; intros [|h' a2] H; cbn [app] in H;
    inversion H; subst.
  - left. tauto.
  - right. left. now left.
  - right. right. now left.
  - destruct (IH a2 ltac:(assumption)) as [[-> ->]|[Hin|Hin]].
    + left. tauto.
    + right. left. now right.
    + right. right. now right.
Qed.

Lemma before_antisym (l l' : string) (seen : list string) :
  before l l' seen -> before l' l seen -> l = l'.
Proof.
  intros (a1 & b1 & H1 & Hno1) (a2 & b2 & H2 & Hno2). rewrite H1 in H2.
  destruct (split_compare _ _ _ _ _ _ H2) as [[_ E]|[Hin|Hin]];
    [exact E|contradiction|contradiction].
Qed.

(** C8, as amended.  The primary language is the language with the most
    lines, and among several with that maximum the one the file walk met
    first (the comparison is strict, so a later language with as many
    lines does not displace it), provided the maximum is positive.  When
    no language has a line (no language was met, or none of their files
    could be read), there is no primary language: [primary] stays
    [null].  [detectLanguages] is a function of the tree, so a tree that
    has not changed gives the same answer. *)
Theorem primary_language (repoPath : string) (root : list Entry) :
  let r := detectLanguages repoPath root in
  let seen := encountered repoPath root in
  (forall l, primary r = Some l ->
     0 < linesOf r l
     /\ In l seen
     /\ maximal r l
     /\ (forall l', l' <> l -> In l' seen -> linesOf r l' = linesOf r l ->
                    before l l' seen))
  /\ (forall l, 0 < linesOf r l -> In l seen -> maximal r l ->
                firstAmongMaximal repoPath root l ->
                primary r = Some l)
  /\ (primary r = None <-> forall l, linesOf r l <= 0).
Proof.
  intros r seen.
  pose proof (collect_distinct repoPath root) as Hnd.
  pose proof (collect_keys repoPath root) as Hkeys. fold seen in Hkeys.
  destruct (addKey_fold seen) as (_ & Hmem & Hbef). cbn zeta in Hmem, Hbef.
  rewrite <- Hkeys in Hmem, Hbef.
  set (stats := collect repoPath root) in *.
  assert (Hlines : forall l,
             linesOf r l
             = match obj_get l stats with Some d => lines d | None => 0 end).
  { intros l. now apply summarize_lines. }
  set (total := fold_left (fun sum e => sum + lines (snd e)) stats 0).
  destruct (primaryStep_fold_primary total stats
              {| pl_breakdown := []; pl_maxLines := 0; pl_primary := None |})
    as (Hmax & Hall & Hprim).
  cbn [pl_maxLines pl_primary] in Hmax, Hall, Hprim.
  assert (Hprimary : primary r
                     = pl_primary
                         (fold_left (primaryStep total) stats
                            {| pl_breakdown := []; pl_maxLines := 0;
                               pl_primary := None |})) by reflexivity.
  set (final := fold_left (primaryStep total) stats _) in *.
  assert (Hle : forall l, linesOf r l <= pl_maxLines final).
  { intros l. rewrite Hlines. destruct (obj_get l stats) as [d|] eqn:E; [|lia].
    apply obj_get_Some_In in E. exact (Hall _ E). }
  assert (Hsome : forall l, primary r = Some l ->
     0 < linesOf r l
     /\ In l seen
     /\ maximal r l
     /\ (forall l', l' <> l -> In l' seen -> linesOf r l' = linesOf r l ->
                    before l l' seen)).
  { intros l Hl. rewrite Hprimary in Hl.
    destruct Hprim
      as [(Hp & _)|(es1 & [k d] & es2 & Hsplit & Hp & Hm & Hgt & Hlt)];
      [congruence|].
    cbn [fst snd] in *. assert (k = l) by congruence. subst k.
    assert (Hin : In (l, d) stats)
      by (rewrite Hsplit; apply in_elt).
    assert (Hget : obj_get l stats = Some d) by now apply obj_get_In.
    assert (Hld : linesOf r l = lines d) by now rewrite Hlines, Hget.
    split; [lia|]. split.
    { apply Hmem. change l with (fst (l, d)). now apply in_map. }
    split.
    { intros l'. rewrite Hld, Hm. apply Hle. }
    intros l' Hne Hseen Heq. apply Hbef.
    exists (obj_keys es1), (obj_keys es2). split.
    { unfold obj_keys. rewrite Hsplit, map_app. reflexivity. }
    intros Hin1. unfold obj_keys in Hin1.
    apply in_map_iff in Hin1 as ([k' d'] & Hk & Hin1). cbn [fst] in Hk.
    subst k'. specialize (Hlt _ Hin1). cbn [snd] in Hlt.
    assert (Hin' : In (l', d') stats).
    { rewrite Hsplit. apply in_or_app. now left. }
    rewrite Hlines, (obj_get_In l' d' stats Hnd Hin'), Hld in Heq. lia. }
  assert (Hnone : primary r = None <-> forall l, linesOf r l <= 0).
  { split.
    - intros Hn l. rewrite Hprimary in Hn.
      destruct Hprim as [(_ & Hm)|(es1 & e & es2 & _ & Hp & _)];
        [|congruence].
      rewrite <- Hm. apply Hle.
    - intros Hzero. destruct (primary r) as [l|] eqn:E; [|reflexivity].
      destruct (Hsome l eq_refl) as (Hpos & _). specialize (Hzero l). lia. }
  split; [exact Hsome|]. split; [|exact Hnone].
  intros l Hpos Hl Hmaxl Hfirst.
  destruct (primary r) as [p|] eqn:E.
  - destruct (Hsome p eq_refl) as (_ & Hp & Hmaxp & Hfirstp).
    destruct (string_dec p l) as [->|Hpl]; [reflexivity|].
    exfalso. apply Hpl.
    apply (before_antisym p l seen).
    + apply Hfirstp; [congruence|exact Hl|].
      pose proof (Hmaxl p). pose proof (Hmaxp l). lia.
    + now apply Hfirst.
  - pose proof (proj1 Hnone eq_refl l). lia.
Qed.

(** Two languages whose files cannot be read share the maximum, zero
    lines; Python is met first, and there is no primary language. *)
Lemma primary_language_counterexample :
  encountered "/tmp/r" two_unreadable = [ "Python"; "JavaScript" ]
  /\ breakdown (detectLanguages "/tmp/r" two_unreadable)
     = [ ("Python",
          {| ls_files := 1; ls_lines := 0; ls_bytes := 0; percentage := 0 |});
         ("JavaScript",
          {| ls_files := 1; ls_lines := 0; ls_bytes := 0; percentage := 0 |}) ]
  /\ primary (detectLanguages "/tmp/r" two_unreadable) = None
  /\ ~ firstMaximalIsPrimary "/tmp/r" two_unreadable.
Proof.
  split; [reflexivity|]. split; [reflexivity|]. split; [reflexivity|].
  intros H.
  assert (Hmax : forall l, maximal (detectLanguages "/tmp/r" two_unreadable) l).
  { intros l l'. unfold linesOf.
    change (breakdown (detectLanguages "/tmp/r" two_unreadable))
      with [ ("Python",
              {| ls_files := 1; ls_lines := 0; ls_bytes := 0;
                 percentage := 0 |});
             ("JavaScript",
              {| ls_files := 1; ls_lines := 0; ls_bytes := 0;
                 percentage := 0 |}) ].
    cbn [obj_get].
    destruct (String.eqb "Python" l'), (String.eqb "JavaScript" l'),
      (String.eqb "Python" l), (String.eqb "JavaScript" l);
      cbn [ls_lines]; lia. }
  specialize (H "Python" "JavaScript").
  assert (Hp : primary (detectLanguages "/tmp/r" two_unreadable)
               = Some "Python").
  { apply H.
    - now left.
    - apply Hmax.
    - right. now left.
    - discriminate.
    - apply Hmax.
    - intros l' Hne Hin _.
      change (encountered "/tmp/r" two_unreadable)
        with [ "Python"; "JavaScript" ] in *.
      exists [], [ "JavaScript" ]. split; [reflexivity|]. intros []. }
  discriminate Hp.
Qed.

Lemma primary_language_witness :
  primary (detectLanguages "/tmp/r" two_files) = Some "JavaScript".
Proof.
  apply (proj1 (proj2 (primary_language "/tmp/r" two_files)) "JavaScript").
  - vm_compute. reflexivity.
  - vm_compute. now left.
  - intros l. unfold linesOf.
    change (breakdown (detectLanguages "/tmp/r" two_files))
      with [ ("JavaScript",
              {| ls_files := 1; ls_lines := 1; ls_bytes := 10;
                 percentage := 50 |});
             ("Python",
              {| ls_files := 1; ls_lines := 1; ls_bytes := 5;
                 percentage := 50 |}) ].
    cbn [obj_get].
    destruct (String.eqb "JavaScript" l), (String.eqb "Python" l);
      cbn [ls_lines String.eqb Ascii.eqb]; simpl; lia.
  - intros l' Hne Hin _.
    change (encountered "/tmp/r" two_files)
      with [ "JavaScript"; "Python" ] in *.
    exists [], [ "Python" ]. split; [reflexivity|]. intros [].
Defined.

End PrimaryLanguage.

(* ------------------------------------------------------------------ *)
(** ** The Python style fallback (pythonAnalyzer.js) *)

Section StyleFallback.

Import PythonAnalyzer.

Variable parseIssues : string -> Outcome (list PylintIssue).

(** The promise-level [.catch] of line 125 turns every rejection into a
    result, so the [catch] block of lines 165-168 is never entered. *)
Lemma execCaught_returns (pylint : Exec) :
  exists stdout stderr, execCaught pylint = Returned (stdout, stderr).
Proof. destruct pylint; eexists; eexists; reflexivity. Qed.

Lemma analyzeStyle_error_untouched (pylint : Exec) (result : Result) :
  styleError (analyzeStyle parseIssues pylint result) = styleError result.
Proof.
  unfold analyzeStyle.
  destruct (execCaught_returns pylint) as (stdout & stderr & ->).
  destruct (truthy stdout && truthy (trim stdout)
            && negb (String.eqb (trim stdout) "[]"))%bool; [|reflexivity].
  destruct (parseIssues stdout) as [l|]; [|reflexivity].
  destruct (fold_left styleStep l _). reflexivity.
Qed.

(** C9 (what the code does).  When pylint is unavailable or fails
    without output (the promise rejects with an empty or absent
    [stdout]), [analyzeStyle] gives the style score 85 and records no
    error: the result is the one of a run that reported no issue, so the
    two cases cannot be told apart.  The score 70 is given only when a
    non-blank output other than [[]] cannot be parsed. *)
Theorem analyzeStyle_unavailable_is_85 (result : Result)
  (stderr : option string) :
  styleScore (analyzeStyle parseIssues (Rejected (Some "") stderr) result) = 85
  /\ styleScore (analyzeStyle parseIssues (Rejected None stderr) result) = 85
  /\ analyzeStyle parseIssues (Rejected (Some "") stderr) result
     = analyzeStyle parseIssues (Resolved "[]" "") result
  /\ analyzeStyle parseIssues (Rejected None stderr) result
     = analyzeStyle parseIssues (Resolved "[]" "") result
  /\ (forall pylint,
        styleError (analyzeStyle parseIssues pylint result)
        = styleError result)
  /\ (forall stdout err message,
        truthy (trim stdout) = true -> trim stdout <> "[]" ->
        parseIssues stdout = Thrown message ->
        styleScore (analyzeStyle parseIssues (Resolved stdout err) result) = 70
        /\ styleScore
             (analyzeStyle parseIssues (Rejected (Some stdout) stderr) result)
           = 70).
Proof.
  split; [reflexivity|]. split; [reflexivity|]. split; [reflexivity|].
  split; [reflexivity|].
  split; [intros pylint; apply analyzeStyle_error_untouched|].
  intros stdout err message Htrim Hne Hparse.
  assert (Ht : truthy stdout = true).
  { destruct stdout; [discriminate Htrim|reflexivity]. }
  apply String.eqb_neq in Hne.
  split; unfold analyzeStyle, execCaught; rewrite ?Ht;
    rewrite ?Ht, Htrim, Hne, Hparse; reflexivity.
Qed.

End StyleFallback.

(** The style score of a run that reports issues: one error, two
    warnings and three conventions give [round (100 - 5 - 4 - 1.5)]. *)
Example styleScoreOf_ex :
  PythonAnalyzer.styleScoreOf
    [ ("error", 1); ("warning", 2); ("convention", 3); ("refactor", 0) ] = 90
  /\ PythonAnalyzer.styleScoreOf
       [ ("error", 30); ("warning", 0); ("convention", 0); ("refactor", 0) ]
     = 0
  /\ PythonAnalyzer.styleScoreOf
       [ ("error", 0); ("warning", 0); ("convention", 1); ("refactor", 0) ]
     = 100.
Proof. vm_compute. repeat split. Qed.

(* ------------------------------------------------------------------ *)
(** ** A repository without files (ingestion.js, analyzeRepo) *)

Section EmptyRepository.

Import LanguageDetector Ingestion.

Variable clonePath : string.
Variable run : string -> Router.Analyzer -> Outcome Router.AnalysisResult.
Variable readmeScore : string -> Z.
Variable packageDeclaresTests : string -> bool.
Variable now : string.

(** [analyzeRepo] throws only when the clone does. *)
Lemma analyzeRepo_returns (clone : string -> Outcome (list Entry))
  (url : string) (root : list Entry) :
  clone url = Returned root ->
  exists report,
    analyzeRepo clone clonePath run readmeScore packageDeclaresTests now url
    = Returned report.
Proof. intros H. unfold analyzeRepo. rewrite H. eexists. reflexivity. Qed.

(** C4 (what the code does).  For a repository without any file (the
    clone holds nothing, or nothing but the [.git] directory)
    [analyzeRepo] returns a report: no language, the neutral code score
    50 with an empty [byLanguage], overall score 34, grade F.  The other
    provider of the repository, the GitHub API fetcher, throws
    [No analyzable files found in repository] when its file list is
    empty. *)
Theorem analyzeRepo_empty_repository (url : string) :
  let report_of root :=
    analyzeRepo (fun _ => Returned root) clonePath run readmeScore
      packageDeclaresTests now url in
  (exists report,
      report_of [] = Returned report
      /\ breakdown (languages report) = []
      /\ totalFiles (languages report) = 0
      /\ Router.overallScore (codeAnalysis report) = 50
      /\ Router.byLanguage (codeAnalysis report) = []
      /\ ProjectAnalyzer.score (projectMetrics report) = 9
      /\ overallScore report = 34
      /\ grade report = F)
  /\ (exists report,
      report_of dot_git = Returned report
      /\ breakdown (languages report) = []
      /\ Router.overallScore (codeAnalysis report) = 50
      /\ Router.byLanguage (codeAnalysis report) = []
      /\ ProjectAnalyzer.score (projectMetrics report) = 11
      /\ overallScore report = 34
      /\ grade report = F)
  /\ GithubFetcher.filesToDownload []
     = Thrown "No analyzable files found in repository"
  /\ GithubFetcher.filesToDownload
       [ {| GithubFetcher.path := "src"; GithubFetcher.type := "tree";
            GithubFetcher.size := None |} ]
     = Thrown "No analyzable files found in repository".
Proof.
  cbn zeta. split; [|split; [|split]].
  - eexists. split; [reflexivity|]. vm_compute. repeat split.
  - eexists. split; [reflexivity|]. vm_compute. repeat split.
  - reflexivity.
  - reflexivity.
Qed.

End EmptyRepository.

(* ================================================================== *)
(** * Further properties of the code *)
(* ================================================================== *)

(* ------------------------------------------------------------------ *)
(** ** Sorting with a comparator that compares keys *)

Section SortingByKey.

Import Terms.

Context {A : Type}.
Variable key : A -> Z.
Variable cmp : A -> A -> Z.
Hypothesis cmp_key : forall a b, cmp a b <= 0 <-> key a <= key b.

Lemma insert_by_elem (x y : A) (l : list A) :
  In y (insert_by cmp x l) <-> y = x \/ In y l.
Proof.
  induction l as [|z r IH]; cbn [insert_by In].
  - intuition congruence.
  - destruct (cmp x z <=? 0); cbn [In]; [intuition congruence|].
    rewrite IH. intuition congruence.
Qed.

Lemma sort_by_elem (y : A) (l : list A) : In y (sort_by cmp l) <-> In y l.
Proof.
  unfold sort_by. induction l as [|x r IH]; cbn [fold_right In]; [tauto|].
  rewrite insert_by_elem, IH. intuition congruence.
Qed.

Lemma insert_by_permutation (x : A) (l : list A) :
  Permutation (insert_by cmp x l) (x :: l).
Proof.
  induction l as [|y r IH]; cbn [insert_by]; [reflexivity|].
  destruct (cmp x y <=? 0); [reflexivity|].
  rewrite IH. apply perm_swap.
Qed.

Lemma sort_by_permutation (l : list A) : Permutation (sort_by cmp l) l.
Proof.
  unfold sort_by. induction l as [|x r IH]; cbn [fold_right]; [reflexivity|].
  rewrite insert_by_permutation. now constructor.
Qed.

Lemma sort_by_length (l : list A) : List.length (sort_by cmp l) = List.length l.
Proof. apply Permutation_length, sort_by_permutation. Qed.

Lemma insert_by_ascending (x : A) (l : list A) :
  ascending key l -> ascending key (insert_by cmp x l).
Proof.
  induction l as [|y r IH]; cbn [insert_by ascending]; intros H.
  - split; [intros y []|exact I].
  - destruct H as [Hy Hr]. destruct (Z.leb_spec (cmp x y) 0) as [Hle|Hgt].
    + apply cmp_key in Hle. cbn [ascending]. split; [|split; assumption].
      intros z [<-|Hz]; [exact Hle|]. specialize (Hy z Hz). lia.
    + cbn [ascending]. split; [|now apply IH].
      intros z Hz. apply insert_by_elem in Hz as [->|Hz]; [|now apply Hy].
      destruct (Z.le_gt_cases (key x) (key y)) as [H|H]; [|lia].
      apply cmp_key in H. lia.
Qed.

Lemma sort_by_ascending (l : list A) : ascending key (sort_by cmp l).
Proof.
  unfold sort_by. induction l as [|x r IH]; cbn [fold_right]; [exact I|].
  now apply insert_by_ascending.
Qed.

(** The sort is stable: the elements of one key keep their order. *)
Lemma insert_by_same_key (k : Z) (x : A) (l : list A) :
  filter (fun y => key y =? k) (insert_by cmp x l)
  = filter (fun y => key y =? k) (x :: l).
Proof.
  induction l as [|y r IH]; cbn [insert_by]; [reflexivity|].
  destruct (Z.leb_spec (cmp x y) 0) as [Hle|Hgt]; [reflexivity|].
  cbn [filter] in *. rewrite IH.
  assert (Hlt : key y < key x).
  { destruct (Z.le_gt_cases (key x) (key y)) as [H|H]; [|lia].
    apply cmp_key in H. lia. }
  destruct (Z.eqb_spec (key y) k), (Z.eqb_spec (key x) k);
    try reflexivity. lia.
Qed.

Lemma sort_by_stable (k : Z) (l : list A) :
  filter (fun y => key y =? k) (sort_by cmp l)
  = filter (fun y => key y =? k) l.
Proof.
  unfold sort_by. induction l as [|x r IH]; cbn [fold_right]; [reflexivity|].
  rewrite insert_by_same_key. cbn [filter]. now rewrite IH.
Qed.

Lemma ascending_app (l1 l2 : list A) :
  ascending key (l1 ++ l2) ->
  ascending key l1 /\ ascending key l2
  /\ forall x y, In x l1 -> In y l2 -> key x <= key y.
Proof.
  induction l1 as [|a l1 IH]; cbn [app ascending].
  - intros H. repeat split; [exact H|]. intros x y [].
  - intros [Ha Hr]. destruct (IH Hr) as (H1 & H2 & H12).
    repeat split; try assumption.
    + intros y Hy. apply Ha. apply in_or_app. now left.
    + intros x y [<-|Hx] Hy; [|now apply H12].
      apply Ha. apply in_or_app. now right.
Qed.

End SortingByKey.

(* ------------------------------------------------------------------ *)
(** ** The file filter of the GitHub API provider (githubFetcher.js) *)

Section FilterFiles.

Import GithubFetcher Terms.

Lemma size_order (a b : TreeItem) :
  sizeOrZero a - sizeOrZero b <= 0 <-> sizeOrZero a <= sizeOrZero b.
Proof. lia. Qed.

Lemma filterFiles_prefix (tree : list TreeItem) :
  exists rest,
    sort_by (fun a b => sizeOrZero a - sizeOrZero b) (filter keeps tree)
    = (filterFiles tree ++ rest)%list
    /\ (rest <> [] -> List.length (filterFiles tree) = MAX_FILES).
Proof.
  unfold filterFiles.
  set (sorted := sort_by _ (filter keeps tree)).
  destruct (Nat.ltb_spec MAX_FILES (List.length sorted)) as [Hlt|Hge].
  - exists (skipn MAX_FILES sorted). split.
    + symmetry. apply firstn_skipn.
    + intros _. apply firstn_length_le. lia.
  - exists []. split; [now rewrite app_nil_r|]. intros H. now contradiction H.
Qed.

(** What [keeps] accepts. *)
Lemma keeps_true (item : TreeItem) :
  keeps item = true ->
  type item = "blob"
  /\ sizeOrZero item <= MAX_FILE_SIZE
  /\ (forall dir, In dir (split_on "/"%char (dirname (path item))) ->
                  mem (toLowerCase dir) SKIP_DIRS = false)
  /\ mem (toLowerCase (extname (path item))) SKIP_EXTENSIONS = false.
Proof.
  unfold keeps.
  destruct (String.eqb_spec (type item) "blob") as [Hb|Hb];
    cbn [negb]; [|discriminate].
  destruct (Z.gtb_spec (sizeOrZero item) MAX_FILE_SIZE) as [Hs|Hs];
    [discriminate|].
  destruct (existsb _ (split_on "/"%char (dirname (path item)))) eqn:Hd;
    [discriminate|].
  destruct (mem (toLowerCase (extname (path item))) SKIP_EXTENSIONS) eqn:He;
    [discriminate|].
  intros _. repeat split; try assumption.
  intros dir Hin. destruct (mem (toLowerCase dir) SKIP_DIRS) eqn:E;
    [|reflexivity].
  assert (Hex : existsb (fun dir => mem (toLowerCase dir) SKIP_DIRS)
                  (split_on "/"%char (dirname (path item))) = true)
    by (apply existsb_exists; now exists dir).
  congruence.
Qed.

(** X1.  Every file [filterFiles] returns is an item of the tree that
    the filter accepts: a blob of at most [MAX_FILE_SIZE] bytes, outside
    the directories of [SKIP_DIRS], whose extension is not one of
    [SKIP_EXTENSIONS]; and it returns at most [MAX_FILES] files, never
    more than the tree has items. *)
Theorem filterFiles_sound (tree : list GithubFetcher.TreeItem) :
  (forall item, In item (filterFiles tree) ->
     In item tree
     /\ keeps item = true
     /\ type item = "blob"
     /\ sizeOrZero item <= MAX_FILE_SIZE
     /\ (forall dir, In dir (split_on "/"%char (dirname (path item))) ->
                     mem (toLowerCase dir) SKIP_DIRS = false)
     /\ mem (toLowerCase (extname (path item))) SKIP_EXTENSIONS = false)
  /\ (List.length (filterFiles tree) <= MAX_FILES)%nat
  /\ (List.length (filterFiles tree) <= List.length tree)%nat.
Proof.
  destruct (filterFiles_prefix tree) as (rest & Hsplit & Hfull).
  assert (Hin : forall item, In item (filterFiles tree) ->
                             In item tree /\ keeps item = true).
  { intros item H.
    assert (H' : In item (sort_by (fun a b => sizeOrZero a - sizeOrZero b)
                            (filter keeps tree)))
      by (rewrite Hsplit; apply in_or_app; now left).
    rewrite sort_by_elem in H'.
    now apply filter_In in H'. }
  split; [|split].
  - intros item H. destruct (Hin item H) as [Ht Hk].
    split; [exact Ht|]. split; [exact Hk|]. now apply keeps_true.
  - unfold filterFiles.
    destruct (Nat.ltb_spec MAX_FILES
                (List.length (sort_by (fun a b => sizeOrZero a - sizeOrZero b)
                                (filter keeps tree)))) as [Hlt|Hge].
    + apply firstn_le_length.
    + exact Hge.
  - assert (Hlen : (List.length (filterFiles tree ++ rest)
                    <= List.length tree)%nat).
    { rewrite <- Hsplit, sort_by_length. apply filter_length_le. }
    rewrite length_app in Hlen. lia.
Qed.

(** X2.  [filterFiles] returns the accepted files by increasing size,
    files of one size in the order of the tree (the sort is stable); the
    files it leaves out, when more than [MAX_FILES] are accepted, are
    accepted files at least as large as every file returned: together
    with the returned ones they are the accepted files, each as often as
    the tree lists it. *)
Theorem filterFiles_smallest_first (tree : list GithubFetcher.TreeItem) :
  ascending sizeOrZero (filterFiles tree)
  /\ exists rest,
       Permutation (filter keeps tree) (filterFiles tree ++ rest)
       /\ (forall x y, In x (filterFiles tree) -> In y rest ->
                       sizeOrZero x <= sizeOrZero y)
       /\ (rest <> [] -> List.length (filterFiles tree) = MAX_FILES)
       /\ (forall k,
             filter (fun y => sizeOrZero y =? k) (filterFiles tree ++ rest)
             = filter (fun y => sizeOrZero y =? k) (filter keeps tree)).
Proof.
  destruct (filterFiles_prefix tree) as (rest & Hsplit & Hfull).
  pose proof (sort_by_ascending sizeOrZero _ size_order (filter keeps tree))
    as Hasc.
  rewrite Hsplit in Hasc. apply ascending_app in Hasc as (H1 & _ & H12).
  split; [exact H1|]. exists rest. split; [|split; [exact H12|split]].
  - rewrite <- Hsplit. symmetry. apply sort_by_permutation.
  - exact Hfull.
  - intros k. rewrite <- Hsplit.
    apply (sort_by_stable sizeOrZero _ size_order).
Qed.

(** X3.  [fetchRepository] throws [No analyzable files found in
    repository] exactly when the filter accepts no item of the tree
    (an empty tree, directories only, or only files it skips); otherwise
    it goes on with the non-empty list of [filterFiles]. *)
Theorem filesToDownload_throws_iff (tree : list GithubFetcher.TreeItem) :
  (filesToDownload tree = Thrown "No analyzable files found in repository"
   <-> forall item, In item tree -> keeps item = false)
  /\ ((exists item, In item tree /\ keeps item = true)
      <-> filesToDownload tree = Returned (filterFiles tree)
          /\ filterFiles tree <> []).
Proof.
  destruct (filterFiles_prefix tree) as (rest & Hsplit & Hfull).
  assert (Hnil : filterFiles tree = [] <-> filter keeps tree = []).
  { split; intros H.
    - destruct rest as [|r rest].
      + rewrite H in Hsplit. cbn [app] in Hsplit.
        pose proof (sort_by_permutation
                      (fun a b => sizeOrZero a - sizeOrZero b)
                      (filter keeps tree)) as P.
        rewrite Hsplit in P. now apply Permutation_nil in P.
      + specialize (Hfull ltac:(discriminate)). rewrite H in Hfull.
        discriminate Hfull.
    - unfold filterFiles. rewrite H. reflexivity. }
  assert (Hnone : filter keeps tree = []
                  <-> forall item, In item tree -> keeps item = false).
  { split.
    - intros H item Hin. destruct (keeps item) eqn:E; [|reflexivity].
      assert (Hf : In item (filter keeps tree)) by (apply filter_In; tauto).
      rewrite H in Hf. contradiction.
    - clear. intros H. induction tree as [|x tree IH]; [reflexivity|].
      cbn [filter]. rewrite (H x (or_introl eq_refl)).
      apply IH. intros item Hin. apply H. now right. }
  unfold filesToDownload.
  destruct (filterFiles tree) as [|f fs] eqn:E.
  - cbn [List.length Z.of_nat Z.eqb].
    pose proof (proj1 Hnone (proj1 Hnil eq_refl)) as Hall.
    split; [tauto|]. split.
    + intros (item & Hin & Hk). rewrite (Hall item Hin) in Hk. discriminate.
    + intros [_ H]. now contradiction H.
  - replace (Z.of_nat (List.length (f :: fs)) =? 0) with false
      by (cbn [List.length]; symmetry; apply Z.eqb_neq; lia).
    split.
    + split; [discriminate|]. intros Hall.
      apply (proj2 Hnone) in Hall. apply (proj2 Hnil) in Hall. discriminate.
    + split; [intros _; split; [reflexivity|discriminate]|].
      intros _. destruct (filter keeps tree) as [|x l] eqn:F.
      * discriminate (proj2 Hnil eq_refl).
      * exists x. apply filter_In. rewrite F. now left.
Qed.

End FilterFiles.

(* ------------------------------------------------------------------ *)
(** ** Strings and paths *)

Section Strings.

Lemma has_char_append (c : ascii) (a b : string) :
  has_char c (a ++ b) = (has_char c a || has_char c b)%bool.
Proof.
  induction a as [|d a IH]; cbn [append has_char]; [reflexivity|].
  now rewrite IH, orb_assoc.
Qed.

Lemma append_assoc (a b c : string) : (a ++ b) ++ c = a ++ (b ++ c).
Proof. induction a as [|d a IH]; cbn; [reflexivity|now rewrite IH]. Qed.

Lemma length_append (a b : string) :
  String.length (a ++ b) = (String.length a + String.length b)%nat.
Proof. induction a as [|d a IH]; cbn; [reflexivity|now rewrite IH]. Qed.

Lemma substring_whole (s : string) :
  String.substring 0 (String.length s) s = s.
Proof. induction s as [|d s IH]; cbn; [reflexivity|now rewrite IH]. Qed.

Lemma substring_append (a s : string) :
  String.substring (String.length a) (String.length s) (a ++ s) = s.
Proof.
  induction a as [|d a IH]; cbn [append String.length String.substring].
  - apply substring_whole.
  - exact IH.
Qed.

Lemma basename_plain (s : string) : has_char "/" s = false -> basename s = s.
Proof.
  destruct s as [|c r]; [reflexivity|]. cbn [has_char basename].
  intros H. apply orb_false_iff in H as [Hc Hr]. now rewrite Hr, Hc.
Qed.

Lemma basename_append (q s : string) :
  has_char "/" s = false -> basename (q ++ s) = basename q ++ s.
Proof.
  intros Hs. induction q as [|c r IH]; cbn [append].
  - now apply basename_plain.
  - cbn [basename]. rewrite has_char_append, Hs, orb_false_r.
    destruct (has_char "/" r); [exact IH|].
    destruct (Ascii.eqb c "/"); reflexivity.
Qed.

Lemma basename_no_slash (p : string) : has_char "/" (basename p) = false.
Proof.
  induction p as [|c r IH]; [reflexivity|]. cbn [basename].
  destruct (has_char "/" r) eqn:Hr; [exact IH|].
  destruct (Ascii.eqb c "/") eqn:Hc; [exact Hr|].
  cbn [has_char]. now rewrite Hc, Hr.
Qed.

Lemma last_index_absent (c : ascii) (s : string) :
  forall k, has_char c s = false -> last_index c s k = None.
Proof.
  induction s as [|d s IH]; intros k H; [reflexivity|].
  cbn [has_char] in H. apply orb_false_iff in H as [Hd Hs].
  cbn [last_index]. now rewrite (IH _ Hs), Hd.
Qed.

Lemma last_index_append (c : ascii) (a b : string) :
  forall k, has_char c b = false ->
            last_index c (a ++ String c b) k = Some (k + String.length a)%nat.
Proof.
  induction a as [|d a IH]; intros k Hb; cbn [append last_index String.length].
  - rewrite (last_index_absent c b _ Hb), Ascii.eqb_refl.
    now rewrite Nat.add_0_r.
  - rewrite (IH (S k) Hb). f_equal. lia.
Qed.

Lemma last_index_found (c : ascii) (s : string) :
  forall k j, last_index c s k = Some j ->
              exists a b, s = a ++ String c b
                          /\ j = (k + String.length a)%nat
                          /\ has_char c b = false.
Proof.
  induction s as [|d s IH]; intros k j H; [discriminate|].
  cbn [last_index] in H.
  destruct (last_index c s (S k)) as [j'|] eqn:E.
  - inversion H; subst j'. destruct (IH _ _ E) as (a & b & -> & -> & Hb).
    exists (String d a), b. cbn [append String.length].
    repeat split; [lia|exact Hb].
  - destruct (Ascii.eqb_spec d c) as [->|Hne]; [|discriminate].
    inversion H; subst j. exists EmptyString, s. cbn [append String.length].
    repeat split; [lia|].
    destruct (has_char c s) eqn:Hc; [|reflexivity].
    exfalso. clear - E Hc. revert E. generalize (S k).
    induction s as [|e s IH]; intros n E; [discriminate|].
    cbn [last_index] in E. cbn [has_char] in Hc.
    destruct (last_index c s (S n)) eqn:E'; [discriminate|].
    destruct (Ascii.eqb e c); [discriminate|]. cbn [orb] in Hc.
    exact (IH Hc _ E').
Qed.

(** An extension is empty or a dot followed by characters other than
    the dot and the separator. *)
Lemma extname_shape (p : string) :
  extname p = EmptyString
  \/ exists e, extname p = String "." e
               /\ has_char "." e = false /\ has_char "/" e = false.
Proof.
  unfold extname.
  destruct (last_index "." (basename p) 0) as [[|n]|] eqn:E;
    [now left| |now left].
  destruct (String.eqb (basename p) ".."); [now left|].
  right. destruct (last_index_found _ _ _ _ E) as (a & b & Hb & Hn & Hdot).
  cbn [Nat.add] in Hn. exists b. rewrite Hb, Hn, length_append.
  replace (String.length a + String.length (String "." b) - String.length a)%nat
    with (String.length (String "." b)) by lia.
  rewrite substring_append. repeat split; [exact Hdot|].
  pose proof (basename_no_slash p) as Hs.
  rewrite Hb, has_char_append in Hs. apply orb_false_iff in Hs as [_ Hs].
  cbn [has_char] in Hs. now apply orb_false_iff in Hs as [_ Hs].
Qed.

(** The extension of a path that ends with a dot and a plain word, and
    whose base name does not start with that dot. *)
Lemma extname_append (q e : string) :
  has_char "/" e = false -> has_char "." e = false -> e <> EmptyString ->
  basename q <> EmptyString ->
  extname (q ++ String "." e) = String "." e.
Proof.
  intros Hs Hd He Hq. unfold extname.
  assert (Hsl : has_char "/" (String "." e) = false)
    by (cbn [has_char]; now rewrite Hs).
  rewrite (basename_append q _ Hsl), (last_index_append _ _ _ 0 Hd).
  cbn [Nat.add].
  destruct (String.length (basename q)) as [|n] eqn:El.
  - destruct (basename q); [now contradiction Hq|discriminate El].
  - replace (String.eqb (basename q ++ String "." e) "..") with false.
    + rewrite <- El, length_append.
      replace (String.length (basename q) + String.length (String "." e)
               - String.length (basename q))%nat
        with (String.length (String "." e)) by lia.
      apply substring_append.
    + symmetry. apply String.eqb_neq. intros H.
      assert (Hlen : String.length (basename q ++ String "." e) = 2%nat)
        by now rewrite H.
      rewrite length_append, El in Hlen. cbn [String.length] in Hlen.
      destruct e; [now contradiction He|cbn [String.length] in Hlen; lia].
Qed.

Lemma lower_ascii_dot (d : ascii) :
  Ascii.eqb (lower_ascii d) "." = Ascii.eqb d ".".
Proof. destruct d as [[] [] [] [] [] [] [] []]; reflexivity. Qed.

Lemma has_dot_toLowerCase (s : string) :
  has_char "." (toLowerCase s) = has_char "." s.
Proof.
  induction s as [|d s IH]; [reflexivity|]. cbn [toLowerCase has_char].
  now rewrite lower_ascii_dot, IH.
Qed.

Lemma toLowerCase_append (a b : string) :
  toLowerCase (a ++ b) = toLowerCase a ++ toLowerCase b.
Proof.
  induction a as [|d a IH]; cbn [append toLowerCase]; [reflexivity|].
  now rewrite IH.
Qed.

End Strings.

(* ------------------------------------------------------------------ *)
(** ** Extensions and the file filter *)

Section Extensions.

Import GithubFetcher.

(** X4.  [path.extname] gives the last dot-segment only, so the entries
    [.min.js] and [.min.css] of [SKIP_EXTENSIONS] match no file: a
    minified script [x.min.js] has the extension [.js] and is kept like
    any other script (a blob of accepted size outside the skipped
    directories). *)
Theorem minified_scripts_are_kept :
  (forall p, toLowerCase (extname p) <> ".min.js"
             /\ toLowerCase (extname p) <> ".min.css")
  /\ (forall item stem,
        path item = stem ++ ".min.js" ->
        extname (path item) = ".js"
        /\ (type item = "blob" ->
            sizeOrZero item <= MAX_FILE_SIZE ->
            (forall dir, In dir (split_on "/"%char (dirname (path item))) ->
                         mem (toLowerCase dir) SKIP_DIRS = false) ->
            keeps item = true)).
Proof.
  split.
  - intros p.
    destruct (extname_shape p) as [->|(e & -> & Hdot & _)];
      [split; discriminate|].
    cbn [toLowerCase]. split; intros H; injection H as He;
      rewrite <- has_dot_toLowerCase, He in Hdot; discriminate Hdot.
  - intros item stem Hp.
    assert (Hext : extname (path item) = ".js").
    { rewrite Hp.
      change (stem ++ ".min.js") with (stem ++ (".min" ++ String "." "js")).
      rewrite <- append_assoc. apply extname_append; try reflexivity.
      - discriminate.
      - rewrite basename_append by reflexivity.
        destruct (basename stem); discriminate. }
    split; [exact Hext|]. intros Hb Hs Hd. unfold keeps.
    rewrite Hb, Hext. cbn [String.eqb Ascii.eqb Bool.eqb negb].
    destruct (Z.gtb_spec (sizeOrZero item) MAX_FILE_SIZE) as [Hgt|_]; [lia|].
    replace (existsb (fun dir => mem (toLowerCase dir) SKIP_DIRS)
               (split_on "/"%char (dirname (path item)))) with false.
    + change (mem (toLowerCase ".js") SKIP_EXTENSIONS) with false.
      change (mem (toLowerCase ".js") ALLOWED_EXTENSIONS) with true.
      destruct (mem _ CONFIG_FILES); reflexivity.
    + symmetry. apply not_true_is_false. intros H.
      apply existsb_exists in H as (dir & Hin & Hm).
      rewrite (Hd dir Hin) in Hm. discriminate.
Qed.

End Extensions.

(* ------------------------------------------------------------------ *)
(** ** The extension tables of the classifier, the router and the
    fetcher *)

Section Tables.

Import GithubFetcher.

(** An extension that the classifier maps to a language the router
    analyzes is an extension the fetcher downloads. *)
Lemma supported_extension (ext lang : string) :
  obj_get ext EXTENSION_MAP = Some lang ->
  mem lang Router.SUPPORTED_LANGUAGES = true ->
  mem ext SKIP_EXTENSIONS = false /\ mem ext ALLOWED_EXTENSIONS = true.
Proof.
  intros Hlang Hsup. cbn [obj_get EXTENSION_MAP] in Hlang.
  repeat match type of Hlang with
         | context [String.eqb ?k ext] =>
             destruct (String.eqb_spec k ext) as [<-|_];
             [injection Hlang as <-;
              first [discriminate Hsup | split; reflexivity]|]
         end.
  discriminate Hlang.
Qed.

(** X5.  The fetcher downloads every file the pipeline can analyze: a
    blob of accepted size outside the skipped directories, which the
    classifier counts under a language the router supports (Python,
    JavaScript, TypeScript, C++ or C), is kept by the filter. *)
Theorem analyzable_files_are_kept
  (item : GithubFetcher.TreeItem) (lang : string) :
  type item = "blob" ->
  sizeOrZero item <= MAX_FILE_SIZE ->
  (forall dir, In dir (split_on "/"%char (dirname (path item))) ->
               mem (toLowerCase dir) SKIP_DIRS = false) ->
  Spec.languageOf (path item) = Some lang ->
  mem lang Router.SUPPORTED_LANGUAGES = true ->
  keeps item = true.
Proof.
  intros Hb Hs Hd Hlang Hsup. unfold Spec.languageOf in Hlang.
  destruct (supported_extension _ _ Hlang Hsup) as [Hskip Hallow].
  unfold keeps. rewrite Hb, Hskip, Hallow.
  cbn [String.eqb Ascii.eqb Bool.eqb negb].
  destruct (Z.gtb_spec (sizeOrZero item) MAX_FILE_SIZE) as [Hgt|_]; [lia|].
  replace (existsb (fun dir => mem (toLowerCase dir) SKIP_DIRS)
             (split_on "/"%char (dirname (path item)))) with false.
  - destruct (mem _ CONFIG_FILES); reflexivity.
  - symmetry. apply not_true_is_false. intros H.
    apply existsb_exists in H as (dir & Hin & Hm).
    rewrite (Hd dir Hin) in Hm. discriminate.
Qed.

Lemma analyzable_files_are_kept_witness :
  keeps {| path := "src/core/App.TSX"; type := "blob"; size := Some 2048 |}
  = true.
Proof.
  apply (analyzable_files_are_kept _ "TypeScript").
  - reflexivity.
  - vm_compute. discriminate.
  - intros dir Hin. vm_compute in Hin.
    destruct Hin as [<-|[<-|[]]]; reflexivity.
  - reflexivity.
  - reflexivity.
Defined.

End Tables.

(* ------------------------------------------------------------------ *)
(** ** binary64 products by a decimal constant *)

Section Scaling.

Import Exhaustive.

Lemma quarter_check_true : range_all 101 0 (scale_check 0.25 1 4) = true.
Proof. vm_compute. reflexivity. Qed.

Lemma fifteen_check_true : range_all 101 0 (scale_check 0.15 3 20) = true.
Proof. vm_compute. reflexivity. Qed.

(** [Math.round (q * c)] for a score [q] of [0, 100] and a constant [c]
    that passes the check against [num / den]. *)
Lemma scale_round_exact (c : float) (num den : int) (q : Z) :
  range_all 101 0 (scale_check c num den) = true ->
  0 <= Uint63.to_Z num <= 1000 -> 0 < Uint63.to_Z den <= 1000 ->
  0 <= q <= 100 ->
  Math_round (PrimFloat.mul (Z2f q) c)
  = round_div (Uint63.to_Z num * q) (Uint63.to_Z den).
Proof.
  intros Hall Hnum Hden Hq. unfold Z2f, round_div.
  pose proof wB_value as HwB.
  assert (H0 : Uint63.to_Z 0 = 0) by reflexivity.
  pose proof (range_all_sound 101 0 (scale_check c num den)
                ltac:(rewrite H0, HwB; lia) Hall q
                ltac:(rewrite H0; lia)) as Hin.
  unfold scale_check in Hin. apply rounds_to_sound in Hin. rewrite Hin.
  assert (Hqz : Uint63.to_Z (Uint63.of_Z q) = q) by (apply of_Z_small; lia).
  rewrite Uint63.div_spec, Uint63.add_spec, !Uint63.mul_spec, Hqz.
  change (Uint63.to_Z 2) with 2.
  rewrite (Z.mod_small (2 * Uint63.to_Z num)) by lia.
  rewrite (Z.mod_small (2 * Uint63.to_Z num * q)) by nia.
  rewrite (Z.mod_small (2 * Uint63.to_Z den)) by lia.
  rewrite (Z.mod_small (2 * Uint63.to_Z num * q + Uint63.to_Z den)) by nia.
  f_equal. lia.
Qed.

Lemma quarter_round_exact (q : Z) :
  0 <= q <= 100 -> Math_round (PrimFloat.mul (Z2f q) 0.25) = round_div q 4.
Proof.
  intros Hq.
  rewrite (scale_round_exact 0.25 1 4 q quarter_check_true)
    by (try exact Hq; cbn; lia).
  change (Uint63.to_Z 1) with 1. change (Uint63.to_Z 4) with 4.
  now rewrite Z.mul_1_l.
Qed.

Lemma fifteen_round_exact (s : Z) :
  0 <= s <= 100 ->
  Math_round (PrimFloat.mul (Z2f s) 0.15) = round_div (3 * s) 20.
Proof.
  intros Hs.
  now rewrite (scale_round_exact 0.15 3 20 s fifteen_check_true)
    by (try exact Hs; cbn; lia).
Qed.

Lemma round_div_bounds (a b lo hi : Z) :
  0 < b -> 2 * b * lo - b <= 2 * a < 2 * b * hi + b ->
  lo <= round_div a b <= hi.
Proof.
  intros Hb H. pose proof (round_div_nearest a b Hb) as Hn. nia.
Qed.

End Scaling.

(* ------------------------------------------------------------------ *)
(** ** The project score (projectAnalyzer.js) *)

Section ProjectScore.

Import ProjectAnalyzer.

Lemma count_if_nonneg {A : Type} (f : A -> bool) (l : list A) :
  0 <= count_if f l.
Proof. unfold count_if. lia. Qed.

Lemma analyzeStructure_bounds (files : list string) :
  35 <= analyzeStructure files <= 100.
Proof.
  unfold analyzeStructure, Math_min, Math_max.
  pose proof (count_if_nonneg
                (fun f => mem (toLowerCase f)
                            [ "src"; "lib"; "test"; "tests"; "docs"; "scripts";
                              "utils"; "helpers"; "components"; "models";
                              "views"; "controllers" ]) files) as Hm.
  set (meaningful := count_if _ files) in *.
  set (rootFiles := count_if (fun f => negb (startsWith f ".")) files).
  set (configFiles := count_if _ files).
  destruct (existsb _ files);
    destruct ((configFiles >? 0) && (configFiles <? 10))%bool;
    destruct (Z.leb_spec rootFiles 15);
    destruct (Z.gtb_spec rootFiles 30); lia.
Qed.


Lemma calculateProjectScore_sum
  (hasReadme hasLicense hasTests hasCI hasDocker hasPackageManager : bool)
  (readmeQuality structureScore : Z) :
  0 <= readmeQuality <= 100 -> 0 <= structureScore <= 100 ->
  calculateProjectScore hasReadme readmeQuality hasLicense hasTests hasCI
    hasDocker hasPackageManager structureScore
  = (if hasReadme then round_div readmeQuality 4 else 0)
    + (if hasLicense then 10 else 0) + (if hasTests then 20 else 0)
    + (if hasCI then 15 else 0) + (if hasDocker then 5 else 0)
    + (if hasPackageManager then 10 else 0)
    + round_div (3 * structureScore) 20
  /\ 0 <= round_div readmeQuality 4 <= 25
  /\ 0 <= round_div (3 * structureScore) 20 <= 15.
Proof.
  intros Hq Hs.
  pose proof (round_div_bounds readmeQuality 4 0 25 ltac:(lia) ltac:(lia))
    as Hrq.
  pose proof (round_div_bounds (3 * structureScore) 20 0 15
                ltac:(lia) ltac:(lia)) as Hrs.
  split; [|split; assumption].
  unfold calculateProjectScore, Math_min.
  rewrite (quarter_round_exact _ Hq), (fifteen_round_exact _ Hs).
  destruct hasReadme, hasLicense, hasTests, hasCI, hasDocker,
    hasPackageManager; lia.
Qed.

(** X7.  For a README quality and a structure score of [0, 100],
    [calculateProjectScore] is the sum of the points of its table: the
    quality divided by 4 and the structure score times 3/20, each
    rounded to the nearest integer (the binary64 products round as the
    exact ones), 10 for a license, 20 for tests, 15 for CI, 5 for
    Docker, 10 for a package manager.  The sum is at most 100, so
    [Math.min (100, score)] changes nothing, and no flag that is set
    lowers the score. *)
Theorem calculateProjectScore_points
  (hasReadme hasLicense hasTests hasCI hasDocker hasPackageManager : bool)
  (readmeQuality structureScore : Z) :
  0 <= readmeQuality <= 100 -> 0 <= structureScore <= 100 ->
  let points (flag : bool) (n : Z) := if flag then n else 0 in
  let score :=
    calculateProjectScore hasReadme readmeQuality hasLicense hasTests hasCI
      hasDocker hasPackageManager structureScore in
  score
  = points hasReadme (round_div readmeQuality 4)
    + points hasLicense 10 + points hasTests 20 + points hasCI 15
    + points hasDocker 5 + points hasPackageManager 10
    + round_div (3 * structureScore) 20
  /\ 0 <= score <= 100
  /\ calculateProjectScore false readmeQuality false false false false false
       structureScore <= score.
Proof.
  intros Hq Hs points score.
  destruct (calculateProjectScore_sum hasReadme hasLicense hasTests hasCI
              hasDocker hasPackageManager readmeQuality structureScore Hq Hs)
    as (Hsum & Hrq & Hrs).
  destruct (calculateProjectScore_sum false false false false false false
              readmeQuality structureScore Hq Hs) as (Hbase & _ & _).
  fold score in Hsum. rewrite Hbase, Hsum. unfold points.
  destruct hasReadme, hasLicense, hasTests, hasCI, hasDocker,
    hasPackageManager; repeat split; lia.
Qed.

Lemma calculateProjectScore_points_witness :
  calculateProjectScore true 70 true false true false true 60 = 62.
Proof.
  destruct (calculateProjectScore_points true true false true false true
              70 60 ltac:(lia) ltac:(lia)) as (H & _).
  rewrite H. reflexivity.
Defined.

End ProjectScore.

(* ------------------------------------------------------------------ *)
(** ** Substrings *)

Section Substrings.

Lemma prefix_append (a t : string) : String.prefix a (a ++ t) = true.
Proof.
  induction a as [|c a IH]; cbn [append String.prefix].
  - now destruct t.
  - destruct (ascii_dec c c) as [_|Hne]; [exact IH|now contradiction Hne].
Qed.

Lemma prefix_split (a s : string) :
  String.prefix a s = true -> exists t, s = a ++ t.
Proof.
  revert s. induction a as [|c a IH]; intros s H.
  - now exists s.
  - destruct s as [|d s]; cbn [String.prefix] in H; [discriminate|].
    destruct (ascii_dec c d) as [->|]; [|discriminate].
    destruct (IH s H) as (t & ->). now exists t.
Qed.

(** [s.includes (sub)]: [sub] occurs in [s]. *)
Lemma includes_occurs (s sub : string) :
  includes s sub = true <-> exists a b, s = a ++ sub ++ b.
Proof.
  split.
  - induction s as [|c s IH]; cbn [includes]; intros H.
    + rewrite orb_false_r in H. apply prefix_split in H as (t & Ht).
      now exists EmptyString, t.
    + apply orb_true_iff in H as [H|H].
      * apply prefix_split in H as (t & Ht). now exists EmptyString, t.
      * destruct (IH H) as (a & b & ->). now exists (String c a), b.
  - intros (a & b & ->). induction a as [|c a IH]; cbn [append].
    + destruct (sub ++ b) eqn:E; cbn [includes]; rewrite <- E, prefix_append;
        reflexivity.
    + cbn [includes]. rewrite IH. apply orb_true_r.
Qed.

Lemma includes_trans (s mid sub : string) :
  includes s mid = true -> includes mid sub = true -> includes s sub = true.
Proof.
  rewrite !includes_occurs.
  intros (a & b & ->) (u & v & ->). exists (a ++ u), (v ++ b).
  now rewrite !append_assoc.
Qed.

End Substrings.

(* ------------------------------------------------------------------ *)
(** ** The project flags (projectAnalyzer.js) *)

Section ProjectFlags.

Import ProjectAnalyzer.

Variable readmeScore : string -> Z.
Variable packageDeclaresTests : string -> bool.

Lemma find_entry_named (name : string) (dir : list Entry) (e : Entry) :
  find_entry name dir = Some e -> In e dir /\ entry_name e = name.
Proof.
  unfold find_entry. intros H. apply find_some in H as [Hin He].
  split; [exact Hin|]. now apply String.eqb_eq.
Qed.

(** X8.  [checkForCI] is decided by the names of the root entries: the
    probe for [.github/workflows] never changes the answer, because a
    root that has a [.github] entry is already accepted by the list of
    names.  In particular a repository with a [.github] directory counts
    as having CI, with or without workflows in it. *)
Theorem checkForCI_by_names (root : list Entry) :
  let files := map entry_name root in
  checkForCI root files
  = existsb
      (fun f =>
         existsb (fun ci => includes (toLowerCase f) (toLowerCase ci))
           [ ".travis.yml"; ".circleci"; "Jenkinsfile"; "azure-pipelines.yml";
             ".gitlab-ci.yml"; "bitbucket-pipelines.yml"; ".drone.yml";
             "appveyor.yml"; ".github" ])
      files
  /\ (forall e, In e root -> entry_name e = ".github" ->
                checkForCI root files = true).
Proof.
  intros files.
  assert (Hgh : forall e, In e root -> entry_name e = ".github" ->
            existsb
              (fun f =>
                 existsb (fun ci => includes (toLowerCase f) (toLowerCase ci))
                   [ ".travis.yml"; ".circleci"; "Jenkinsfile";
                     "azure-pipelines.yml"; ".gitlab-ci.yml";
                     "bitbucket-pipelines.yml"; ".drone.yml"; "appveyor.yml";
                     ".github" ])
              files = true).
  { intros e Hin Hname. apply existsb_exists. exists ".github". split.
    - unfold files. rewrite <- Hname. now apply in_map.
    - reflexivity. }
  assert (Heq : checkForCI root files
                = existsb
                    (fun f =>
                       existsb
                         (fun ci => includes (toLowerCase f) (toLowerCase ci))
                         [ ".travis.yml"; ".circleci"; "Jenkinsfile";
                           "azure-pipelines.yml"; ".gitlab-ci.yml";
                           "bitbucket-pipelines.yml"; ".drone.yml";
                           "appveyor.yml"; ".github" ])
                    files).
  { unfold checkForCI.
    destruct (find_entry ".github" root) as [[| |]|] eqn:E; try reflexivity.
    destruct (find_entry "workflows" entries); [|reflexivity].
    apply find_entry_named in E as [Hin Hname]. symmetry.
    exact (Hgh _ Hin Hname). }
  split; [exact Heq|]. intros e Hin Hname. rewrite Heq. exact (Hgh e Hin Hname).
Qed.


(** X10.  Whatever the tree, the project score is an integer of
    [0, 100], given that the README score is one (it is the minimum of
    100 and a sum of points): the structure score lies in [35, 100];
    without a README the quality is 0; and the score is
    [calculateProjectScore] of the flags, among which [hasDocs] is not. *)
Theorem analyzeProject_score_range (root : list Entry) :
  (forall text, 0 <= readmeScore text <= 100) ->
  let metrics := analyzeProject readmeScore packageDeclaresTests root in
  0 <= score metrics <= 100
  /\ 35 <= structureScore metrics <= 100
  /\ 0 <= readmeQuality metrics <= 100
  /\ (hasReadme metrics = false -> readmeQuality metrics = 0)
  /\ score metrics
     = calculateProjectScore (hasReadme metrics) (readmeQuality metrics)
         (hasLicense metrics) (hasTests metrics) (hasCI metrics)
         (hasDocker metrics) (hasPackageManager metrics)
         (structureScore metrics).
Proof.
  intros Hreadme metrics.
  assert (Hs : 35 <= structureScore metrics <= 100)
    by apply analyzeStructure_bounds.
  assert (Hq : 0 <= readmeQuality metrics <= 100).
  { unfold metrics, analyzeProject. cbn [readmeQuality].
    destruct (find _ root) as [e|]; [|lia]. unfold analyzeReadme.
    destruct e as [n [d|]| |]; try lia. apply Hreadme. }
  assert (Hscore : score metrics
     = calculateProjectScore (hasReadme metrics) (readmeQuality metrics)
         (hasLicense metrics) (hasTests metrics) (hasCI metrics)
         (hasDocker metrics) (hasPackageManager metrics)
         (structureScore metrics)) by reflexivity.
  split; [|split; [exact Hs|split; [exact Hq|split; [|exact Hscore]]]].
  - rewrite Hscore.
    destruct (calculateProjectScore_sum (hasReadme metrics)
                (hasLicense metrics) (hasTests metrics) (hasCI metrics)
                (hasDocker metrics) (hasPackageManager metrics)
                (readmeQuality metrics) (structureScore metrics)
                Hq ltac:(lia)) as (Hsum & Hrq & Hrs).
    rewrite Hsum.
    destruct (hasReadme metrics), (hasLicense metrics), (hasTests metrics),
      (hasCI metrics), (hasDocker metrics), (hasPackageManager metrics); lia.
  - unfold metrics, analyzeProject. cbn [hasReadme readmeQuality].
    destruct (find _ root); [discriminate|reflexivity].
Qed.

End ProjectFlags.

Lemma analyzeProject_score_range_witness :
  0 <= ProjectAnalyzer.score
         (ProjectAnalyzer.analyzeProject (fun _ => 80) (fun _ => false)
            [ File "README.md" (Some {| content := "# demo"; size := 6 |});
              Dir "src" [ File "test_app.py" None ];
              File "LICENSE" None ]) <= 100.
Proof.
  exact (proj1 (analyzeProject_score_range (fun _ => 80) (fun _ => false)
                  [ File "README.md" (Some {| content := "# demo"; size := 6 |});
                    Dir "src" [ File "test_app.py" None ];
                    File "LICENSE" None ]
                  ltac:(intros text; lia))).
Defined.

(* ------------------------------------------------------------------ *)
(** ** What the classifier counts (languageDetector.js) *)

Section Tallies.

Import Spec Terms.

Lemma onFile_get (l filePath : string) (data : option FileData)
  (stats : Obj Stat) :
  obj_get l (onFile filePath data stats)
  = match languageOf filePath with
    | Some l' =>
        if String.eqb l' l then Some (bump data (orZero (obj_get l stats)))
        else obj_get l stats
    | None => obj_get l stats
    end.
Proof.
  unfold onFile, languageOf.
  destruct (obj_get (toLowerCase (extname filePath)) EXTENSION_MAP)
    as [language|]; [|reflexivity].
  destruct (String.eqb_spec language l) as [->|Hne].
  - destruct (obj_get l stats) as [st|] eqn:E.
    + rewrite E. destruct data; now rewrite obj_get_set_same.
    + rewrite obj_get_set_same. destruct data; now rewrite obj_get_set_same.
  - destruct (obj_get language stats) as [st|] eqn:E.
    + rewrite E. destruct data; now rewrite obj_get_set_other.
    + rewrite obj_get_set_same.
      destruct data; now rewrite !obj_get_set_other.
Qed.

Lemma sumOf_set {V : Type} (f : V -> Z) (k : string) (v : V) (o : Obj V) :
  sumOf f (obj_set k v o)
  = sumOf f o + f v - match obj_get k o with Some v0 => f v0 | None => 0 end.
Proof.
  unfold sumOf. induction o as [|[k' v'] r IH];
    cbn [obj_set obj_get fold_right snd]; [lia|].
  destruct (String.eqb k' k); cbn [fold_right snd]; lia.
Qed.

Lemma onFile_sum (f : Stat -> Z) (filePath : string)
  (data : option FileData) (stats : Obj Stat) :
  f zeroStat = 0 ->
  sumOf f (onFile filePath data stats)
  = sumOf f stats
    + match languageOf filePath with
      | Some l => f (bump data (orZero (obj_get l stats)))
                  - f (orZero (obj_get l stats))
      | None => 0
      end.
Proof.
  intros Hzero. unfold onFile, languageOf.
  destruct (obj_get (toLowerCase (extname filePath)) EXTENSION_MAP)
    as [language|]; [|lia].
  destruct (obj_get language stats) as [st|] eqn:E; cbn [orZero].
  - rewrite E. destruct data; rewrite sumOf_set, E; cbn [bump]; lia.
  - rewrite obj_get_set_same. unfold zeroStat in *.
    destruct data; rewrite !sumOf_set, obj_get_set_same, E, Hzero;
      cbn [bump]; lia.
Qed.

Lemma tally_cons (f : string * option FileData)
  (fs : list (string * option FileData)) (st : Stat) :
  plus (bump (snd f) st) (tally fs) = plus st (tally (f :: fs)).
Proof.
  unfold plus, tally, bump, linesRead, bytesRead.
  cbn [List.length fold_right files lines bytes].
  destruct (snd f); cbn [files lines bytes]; f_equal; lia.
Qed.

(** After the walk, a language that was met holds the tally of its
    files added to what it held before; another language is as it was. *)
Lemma feed_onFile_get (l : string) (fs : list (string * option FileData)) :
  forall stats,
    obj_get l (fold_left (feed onFile) fs stats)
    = match filesOf l fs with
      | [] => obj_get l stats
      | _ :: _ => Some (plus (orZero (obj_get l stats)) (tally (filesOf l fs)))
      end.
Proof.
  unfold filesOf. induction fs as [|f fs IH]; intros stats;
    cbn [fold_left filter]; [reflexivity|].
  rewrite IH.
  change (feed onFile stats f) with (onFile (fst f) (snd f) stats).
  rewrite onFile_get.
  destruct (languageOf (fst f)) as [l'|]; [|reflexivity].
  destruct (String.eqb l' l); [|reflexivity].
  cbn [orZero]. set (mine := filter _ fs).
  rewrite <- tally_cons. destruct mine as [|g mine]; [|reflexivity].
  f_equal. unfold plus, tally, linesRead, bytesRead.
  cbn [List.length fold_right files lines bytes Z.of_nat].
  destruct (bump (snd f) _). cbn [files lines bytes]. f_equal; lia.
Qed.

Lemma plus_zero (st : Stat) : plus zeroStat st = st.
Proof. destruct st. unfold plus. reflexivity. Qed.

Lemma feed_onFile_sums (fs : list (string * option FileData)) :
  forall stats,
    let stats' := fold_left (feed onFile) fs stats in
    sumOf files stats' = sumOf files stats + Z.of_nat (List.length (classified fs))
    /\ sumOf lines stats' = sumOf lines stats + linesRead (classified fs)
    /\ sumOf bytes stats' = sumOf bytes stats + bytesRead (classified fs).
Proof.
  unfold classified. induction fs as [|f fs IH]; intros stats;
    cbn [fold_left filter].
  - cbn. lia.
  - cbn zeta in IH. destruct (IH (feed onFile stats f)) as (Hf & Hl & Hb).
    cbn zeta. rewrite Hf, Hl, Hb. unfold feed.
    rewrite !onFile_sum by reflexivity.
    destruct (languageOf (fst f)) as [l|]; cbn [isSome].
    + unfold linesRead, bytesRead. cbn [List.length fold_right].
      destruct (snd f); cbn [bump files lines bytes]; lia.
    + lia.
Qed.

(** Assigning to a key that is not there appends the entry. *)
Lemma obj_set_fresh {V : Type} (k : string) (v : V) (o : Obj V) :
  obj_get k o = None -> obj_set k v o = (o ++ [(k, v)])%list.
Proof.
  induction o as [|[k' v'] r IH]; cbn [obj_set obj_get app]; [reflexivity|].
  destruct (String.eqb k' k); [discriminate|].
  intros H. now rewrite IH.
Qed.

(** The loop of lines 557-568 copies the statistics in their order. *)
Lemma primaryStep_fold_map (total : Z) (es : Obj Stat) :
  forall st,
    NoDup (obj_keys (pl_breakdown st) ++ obj_keys es)%list ->
    pl_breakdown (fold_left (primaryStep total) es st)
    = (pl_breakdown st
       ++ map (fun e => (fst e, withPercentage total (snd e))) es)%list.
Proof.
  induction es as [|[l d] es IH]; intros st Hnd; cbn [fold_left map].
  - now rewrite app_nil_r.
  - assert (Hfresh : obj_get l (pl_breakdown st) = None).
    { apply obj_get_None. unfold obj_keys in *.
      cbn [map fst] in Hnd. apply NoDup_remove_2 in Hnd.
      intros Hin. apply Hnd. apply in_or_app. now left. }
    rewrite IH; rewrite primaryStep_breakdown, (obj_set_fresh _ _ _ Hfresh).
    + rewrite <- app_assoc. reflexivity.
    + unfold obj_keys in *. rewrite map_app. cbn [map fst app] in *.
      rewrite <- app_assoc. exact Hnd.
Qed.

Lemma sumOf_permutation {V : Type} (f : V -> Z) (o o' : Obj V) :
  Permutation o o' -> sumOf f o = sumOf f o'.
Proof.
  unfold sumOf. induction 1; cbn [fold_right]; lia.
Qed.

Lemma sumOf_map {V W : Type} (f : W -> Z) (g : V -> W) (o : Obj V) :
  sumOf f (map (fun e => (fst e, g (snd e))) o) = sumOf (fun v => f (g v)) o.
Proof.
  unfold sumOf. induction o as [|e o IH]; cbn [map fold_right snd];
    [reflexivity|]. now rewrite IH.
Qed.

Lemma fold_left_sum {V : Type} (f : V -> Z) (o : Obj V) :
  forall a, fold_left (fun sum e => sum + f (snd e)) o a = a + sumOf f o.
Proof.
  unfold sumOf. induction o as [|e o IH]; intros a; cbn [fold_left fold_right].
  - lia.
  - rewrite IH. lia.
Qed.

Lemma breakdown_entries (stats : Obj Stat) :
  NoDup (obj_keys stats) ->
  Permutation (breakdown (summarize stats))
    (map (fun e => (fst e, withPercentage (totalLines (summarize stats))
                             (snd e))) stats).
Proof.
  intros Hnd. unfold summarize. cbn [breakdown totalLines].
  rewrite sort_by_perm. rewrite primaryStep_fold_map by exact Hnd.
  reflexivity.
Qed.

(** X11.  [detectLanguages] counts every file the walk visits whose
    extension [EXTENSION_MAP] knows, once, under the language of that
    extension: the entry of a language holds the number of its files and
    the lines and bytes of those that could be read (an unreadable file
    counts as a file and adds no line or byte); a language is listed
    exactly when a file of it was met, and once; [totalFiles] and
    [totalLines] are the sums over the entries, that is the number of
    classified files and the lines read from them. *)
Theorem detectLanguages_counts (repoPath : string) (root : list Entry) :
  let r := detectLanguages repoPath root in
  let visited := walkFiles repoPath root in
  (forall l,
      obj_get l (breakdown r)
      = match filesOf l visited with
        | [] => None
        | mine =>
            Some {| ls_files := Z.of_nat (List.length mine);
                    ls_lines := linesRead mine;
                    ls_bytes := bytesRead mine;
                    percentage :=
                      percentageOf (totalLines r) (tally mine) |}
        end)
  /\ NoDup (obj_keys (breakdown r))
  /\ totalFiles r = Z.of_nat (List.length (classified visited))
  /\ totalLines r = linesRead (classified visited)
  /\ sumOf ls_files (breakdown r) = totalFiles r
  /\ sumOf ls_lines (breakdown r) = totalLines r.
Proof.
  intros r visited.
  pose proof (collect_distinct repoPath root) as Hnd.
  pose proof (detectLanguages_distinct repoPath root) as Hnd'.
  assert (Hcollect : collect repoPath root
                     = fold_left (feed onFile) visited [])
    by (unfold collect; apply walkDirectory_files).
  destruct (feed_onFile_sums visited []) as (Hf & Hl & _).
  cbn zeta in Hf, Hl. rewrite <- Hcollect in Hf, Hl.
  change (sumOf files []) with 0 in Hf. change (sumOf lines []) with 0 in Hl.
  assert (HtotalF : totalFiles r = sumOf files (collect repoPath root)).
  { unfold r, detectLanguages, summarize. cbn [totalFiles].
    now rewrite fold_left_sum. }
  assert (HtotalL : totalLines r = sumOf lines (collect repoPath root)).
  { unfold r, detectLanguages, summarize. cbn [totalLines].
    now rewrite fold_left_sum. }
  pose proof (breakdown_entries (collect repoPath root) Hnd) as Hperm.
  fold (detectLanguages repoPath root) in Hperm. fold r in Hperm.
  split; [|split; [exact Hnd'|split; [lia|split; [lia|split]]]].
  - intros l.
    assert (Hget : obj_get l (collect repoPath root)
                   = match filesOf l visited with
                     | [] => None
                     | _ :: _ => Some (tally (filesOf l visited))
                     end).
    { rewrite Hcollect, feed_onFile_get. cbn [obj_get orZero].
      destruct (filesOf l visited); [reflexivity|]. now rewrite plus_zero. }
    unfold r, detectLanguages, summarize. cbn [breakdown totalLines].
    rewrite sort_by_get
      by (apply primaryStep_fold_distinct; cbn; constructor).
    rewrite primaryStep_fold_get by exact Hnd.
    cbn [pl_breakdown obj_get]. rewrite Hget.
    destruct (filesOf l visited); reflexivity.
  - rewrite (sumOf_permutation _ _ _ Hperm), sumOf_map, HtotalF. reflexivity.
  - rewrite (sumOf_permutation _ _ _ Hperm), sumOf_map, HtotalL. reflexivity.
Qed.

End Tallies.

(* ------------------------------------------------------------------ *)
(** ** The order of the breakdown *)

Section BreakdownOrder.

Import Spec Terms.

(** An element with the least key, met before every other element of
    that key, comes first after the sort. *)
Lemma sort_by_head {A : Type} (key : A -> Z) (cmp : A -> A -> Z)
  (x : A) (a b : list A) :
  (forall u v, cmp u v <= 0 <-> key u <= key v) ->
  (forall y, In y a -> key x < key y) ->
  (forall y, In y b -> key x <= key y) ->
  sort_by cmp (a ++ x :: b) = x :: sort_by cmp (a ++ b).
Proof.
  intros Hcmp Ha Hb. induction a as [|a0 a IH]; cbn [app].
  - change (sort_by cmp (x :: b)) with (insert_by cmp x (sort_by cmp b)).
    destruct (sort_by cmp b) as [|y s] eqn:E; [reflexivity|].
    cbn [insert_by].
    assert (Hy : In y b).
    { apply (sort_by_elem cmp). rewrite E. now left. }
    destruct (Z.leb_spec (cmp x y) 0) as [_|Hgt]; [reflexivity|].
    specialize (Hb y Hy). apply Hcmp in Hb. lia.
  - change (sort_by cmp (a0 :: a ++ x :: b))
      with (insert_by cmp a0 (sort_by cmp (a ++ x :: b))).
    rewrite IH by (intros y Hy; apply Ha; now right).
    cbn [insert_by].
    destruct (Z.leb_spec (cmp a0 x) 0) as [Hle|_]; [|reflexivity].
    apply Hcmp in Hle. specialize (Ha a0 (or_introl eq_refl)). lia.
Qed.

Lemma lines_order (a b : string * LanguageStat) :
  ls_lines (snd b) - ls_lines (snd a) <= 0
  <-> - ls_lines (snd a) <= - ls_lines (snd b).
Proof. lia. Qed.

(** X12.  The breakdown lists the languages by decreasing line count,
    languages with the same count in the order in which their first
    file was met (the keys of the statistics are the labels at their
    first occurrence, and the sort is stable); and the primary
    language, when there is one, is the first key of the breakdown. *)
Theorem breakdown_order (repoPath : string) (root : list Entry) :
  let r := detectLanguages repoPath root in
  let stats := collect repoPath root in
  descending (fun e => ls_lines (snd e)) (breakdown r)
  /\ obj_keys stats = fold_left addKey (encountered repoPath root) []
  /\ (forall n,
        obj_keys (filter (fun e => ls_lines (snd e) =? n) (breakdown r))
        = obj_keys (filter (fun e => lines (snd e) =? n) stats))
  /\ (forall l, primary r = Some l ->
        exists d rest, breakdown r = (l, d) :: rest).
Proof.
  intros r stats.
  pose proof (collect_distinct repoPath root) as Hnd. fold stats in Hnd.
  set (total := fold_left (fun sum e => sum + lines (snd e)) stats 0).
  set (copy := fun e : string * Stat => (fst e, withPercentage total (snd e))).
  assert (Hcopy : pl_breakdown
                    (fold_left (primaryStep total) stats
                       {| pl_breakdown := []; pl_maxLines := 0;
                          pl_primary := None |})
                  = map copy stats).
  { rewrite primaryStep_fold_map; [reflexivity|]. exact Hnd. }
  assert (Hb : breakdown r
               = sort_by (fun a b => ls_lines (snd b) - ls_lines (snd a))
                   (map copy stats)).
  { unfold r, detectLanguages, summarize. cbn [breakdown].
    fold stats. fold total. now rewrite Hcopy. }
  split; [|split; [apply collect_keys|split]].
  - rewrite Hb. unfold descending.
    apply (sort_by_ascending (fun e => - ls_lines (snd e)) _ lines_order).
  - intros n. rewrite Hb.
    assert (Hst : forall l : list (string * LanguageStat),
               filter (fun e => ls_lines (snd e) =? n) l
               = filter (fun e => - ls_lines (snd e) =? - n) l).
    { intros l. apply filter_ext. intros e.
      destruct (Z.eqb_spec (ls_lines (snd e)) n),
        (Z.eqb_spec (- ls_lines (snd e)) (- n)); (reflexivity || lia). }
    rewrite Hst.
    rewrite (sort_by_stable (fun e => - ls_lines (snd e)) _ lines_order).
    rewrite <- Hst. unfold copy. generalize total. clear. intros T.
    unfold obj_keys.
    induction stats as [|e l IH]; [reflexivity|]. cbn [map filter].
    cbn [snd withPercentage ls_lines].
    destruct (lines (snd e) =? n); cbn [map fst]; now rewrite IH.
  - intros l Hl.
    destruct (primaryStep_fold_primary total stats
                {| pl_breakdown := []; pl_maxLines := 0; pl_primary := None |})
      as (_ & Hall & Hprim).
    cbn [pl_maxLines pl_primary] in Hall, Hprim.
    assert (Hp : primary r
                 = pl_primary
                     (fold_left (primaryStep total) stats
                        {| pl_breakdown := []; pl_maxLines := 0;
                           pl_primary := None |})) by reflexivity.
    rewrite Hp in Hl.
    destruct Hprim
      as [(Hsame & _)|(es1 & e & es2 & Hsplit & Hpe & Hm & _ & Hlt)];
      [congruence|].
    assert (fst e = l) by congruence. subst l.
    exists (withPercentage total (snd e)),
      (sort_by (fun a b => ls_lines (snd b) - ls_lines (snd a))
         (map copy es1 ++ map copy es2)).
    rewrite Hb, Hsplit, map_app. cbn [map].
    apply (sort_by_head (fun e => - ls_lines (snd e)) _ (copy e) _ _
             lines_order).
    + intros y Hy. apply in_map_iff in Hy as (e' & <- & Hin').
      specialize (Hlt e' Hin'). cbn [copy snd withPercentage ls_lines]. lia.
    + intros y Hy. apply in_map_iff in Hy as (e' & <- & Hin').
      assert (Hin : In e' stats)
        by (rewrite Hsplit; apply in_or_app; right; now right).
      specialize (Hall e' Hin). cbn [copy snd withPercentage ls_lines]. lia.
Qed.

(** X13.  The walk never enters a directory of [IGNORE_DIRS] or one
    whose name starts with a dot, at any depth, and calls its callback
    on files only: for every callback it does on a tree what it does on
    the tree pruned of those directories and of the entries that are
    neither files nor directories.  Hence what such a directory holds
    has no part in the language statistics. *)
Theorem walkDirectory_skips_ignored :
  (forall (S : Type) (callback : string -> option FileData -> S -> S)
          (dir : string) (entries : list Entry) (s : S),
      walkDirectory callback dir (prune entries) s
      = walkDirectory callback dir entries s)
  /\ (forall repoPath root,
        detectLanguages repoPath (prune root) = detectLanguages repoPath root)
  /\ (forall repoPath name inside inside' earlier later,
        (mem name IGNORE_DIRS = true \/ startsWith name "." = true) ->
        detectLanguages repoPath (earlier ++ Dir name inside :: later)
        = detectLanguages repoPath (earlier ++ Dir name inside' :: later)).
Proof.
  assert (Hentry : forall e dir,
             flat_map (entryFiles dir) (pruneEntry e) = entryFiles dir e).
  { induction e as [name data|name|name entries IH] using Entry_nested_ind;
      intros dir; cbn [pruneEntry flat_map entryFiles entry_name];
      [apply app_nil_r|reflexivity|].
    destruct (negb (mem name IGNORE_DIRS) && negb (startsWith name "."))%bool
      eqn:E; [|reflexivity].
    cbn [flat_map entryFiles entry_name]. rewrite E, app_nil_r.
    induction entries as [|e entries IHl]; [reflexivity|].
    cbn [flat_map]. rewrite flat_map_app, IH by now left.
    f_equal. apply IHl. intros e' H. apply IH. now right. }
  assert (Hfiles : forall dir entries,
             walkFiles dir (prune entries) = walkFiles dir entries).
  { intros dir entries. unfold walkFiles, prune.
    induction entries as [|e entries IH]; [reflexivity|].
    cbn [flat_map]. now rewrite flat_map_app, Hentry, IH. }
  assert (Hwalk : forall (S : Type)
                    (callback : string -> option FileData -> S -> S)
                    (dir : string) (entries : list Entry) (s : S),
             walkDirectory callback dir (prune entries) s
             = walkDirectory callback dir entries s).
  { intros S callback dir entries s.
    now rewrite !walkDirectory_files, Hfiles. }
  assert (Hdetect : forall repoPath root,
             detectLanguages repoPath (prune root)
             = detectLanguages repoPath root).
  { intros repoPath root. unfold detectLanguages, collect.
    now rewrite Hwalk. }
  split; [exact Hwalk|split; [exact Hdetect|]].
  intros repoPath name inside inside' earlier later Hname.
  rewrite <- (Hdetect repoPath (earlier ++ Dir name inside :: later)%list).
  rewrite <- (Hdetect repoPath (earlier ++ Dir name inside' :: later)%list).
  f_equal. unfold prune. rewrite !flat_map_app. cbn [flat_map pruneEntry].
  replace (negb (mem name IGNORE_DIRS) && negb (startsWith name "."))%bool
    with false; [reflexivity|].
  destruct Hname as [-> | ->]; [reflexivity|]. now rewrite andb_false_r.
Qed.

End BreakdownOrder.

(* ------------------------------------------------------------------ *)
(** ** What the router records (router.js) *)

Section RouterRecords.

Import Router Spec.

Variable run : string -> Analyzer -> Outcome AnalysisResult.

Lemma analyzeStep_byLanguage (st : Loop) (e : string * LanguageStat) :
  obj_get (fst e) (l_byLanguage st) = None ->
  l_byLanguage (analyzeStep run st e)
  = (l_byLanguage st
     ++ match recorded run e with Some v => [(fst e, v)] | None => [] end)%list.
Proof.
  intros Hfresh. destruct e as [lang data]. unfold analyzeStep, recorded.
  cbn [fst] in *.
  destruct (ANALYZERS lang) as [a|]; [|now rewrite app_nil_r].
  destruct (run lang a); cbn [l_byLanguage]; now apply obj_set_fresh.
Qed.

Lemma analyzeStep_keys (st : Loop) (e : string * LanguageStat) (k : string) :
  In k (obj_keys (l_byLanguage (analyzeStep run st e))) ->
  k = fst e \/ In k (obj_keys (l_byLanguage st)).
Proof.
  destruct e as [lang data]. unfold analyzeStep. cbn [fst].
  destruct (ANALYZERS lang) as [a|]; [|now right].
  destruct (run lang a); cbn [l_byLanguage]; rewrite obj_keys_set;
    destruct (mem lang _); try (now right);
    rewrite in_app_iff; cbn [In]; intuition.
Qed.

Lemma fold_analyzeStep_entries (sel : list (string * LanguageStat)) :
  forall st,
    NoDup (map fst sel) ->
    (forall e, In e sel -> obj_get (fst e) (l_byLanguage st) = None) ->
    l_byLanguage (fold_left (analyzeStep run) sel st)
    = (l_byLanguage st
       ++ flat_map (fun e => match recorded run e with
                             | Some v => [(fst e, v)]
                             | None => []
                             end) sel)%list.
Proof.
  induction sel as [|e sel IH]; intros st Hnd Hfresh; cbn [fold_left flat_map].
  - now rewrite app_nil_r.
  - cbn [map] in Hnd. inversion Hnd as [|? ? Hnotin Hnd']; subst.
    rewrite IH; [|exact Hnd'|].
    + rewrite analyzeStep_byLanguage by (apply Hfresh; now left).
      now rewrite <- app_assoc.
    + intros e' Hin'. apply obj_get_None. intros Hk.
      apply analyzeStep_keys in Hk as [Hk|Hk].
      * apply Hnotin. rewrite <- Hk. now apply in_map.
      * revert Hk. apply obj_get_None. apply Hfresh. now right.
Qed.

(** X14.  [byLanguage] holds one entry for each selected language, in
    the order of the breakdown: the analyzer's result when it returned,
    [{score: 50, error}] when it threw.  At most three languages are
    selected, each supported and holding at least 5 percent, and each
    has an analyzer (the [null] entries of [ANALYZERS] are never
    reached); [analyzedLanguages] lists, in the same order, those whose
    analyzer returned. *)
Theorem runAnalyzers_records (languageStats : LanguageStats) :
  NoDup (obj_keys (breakdown languageStats)) ->
  let sel := languagesToAnalyze languageStats in
  let ca := runAnalyzers run languageStats in
  obj_keys (byLanguage ca) = map fst sel
  /\ (List.length sel <= 3)%nat
  /\ (forall e, In e sel ->
        In e (breakdown languageStats)
        /\ mem (fst e) SUPPORTED_LANGUAGES = true
        /\ 5 <= percentage (snd e)
        /\ exists analyzer,
             ANALYZERS (fst e) = Some analyzer
             /\ In (fst e,
                    match run (fst e) analyzer with
                    | Returned analysis => Analysis analysis
                    | Thrown error_message => Degraded 50 error_message
                    end) (byLanguage ca))
  /\ analyzedLanguages ca = map fst (filter (returned run) sel).
Proof.
  intros Hnd sel ca.
  pose proof (selected_NoDup languageStats Hnd) as Hsel. fold sel in Hsel.
  assert (Hrec : forall e, In e sel ->
             mem (fst e) SUPPORTED_LANGUAGES = true
             /\ 5 <= percentage (snd e)
             /\ exists analyzer,
                  ANALYZERS (fst e) = Some analyzer
                  /\ recorded run e
                     = Some match run (fst e) analyzer with
                            | Returned analysis => Analysis analysis
                            | Thrown error_message => Degraded 50 error_message
                            end).
  { intros e Hin. destruct (selected_In languageStats e Hin) as [_ Hq].
    unfold qualifies in Hq. apply andb_true_iff in Hq as [Hm Hp].
    apply Z.leb_le in Hp. split; [exact Hm|]. split; [exact Hp|].
    destruct (supported_has_analyzer _ Hm) as [a Ha]. exists a.
    split; [exact Ha|]. unfold recorded. rewrite Ha.
    now destruct (run (fst e) a). }
  assert (Hby : byLanguage ca
                = flat_map (fun e => match recorded run e with
                                     | Some v => [(fst e, v)]
                                     | None => []
                                     end) sel).
  { unfold ca, runAnalyzers. fold sel.
    destruct sel as [|e0 sel0] eqn:Esel; [reflexivity|].
    rewrite <- Esel in *.
    replace (Z.of_nat (List.length sel) =? 0) with false
      by (rewrite Esel; reflexivity).
    cbn [byLanguage].
    rewrite fold_analyzeStep_entries; [reflexivity|exact Hsel|].
    intros e _. reflexivity. }
  split; [|split; [apply selected_length|split]].
  - rewrite Hby. clear - Hrec. unfold obj_keys.
    induction sel as [|e sel IH]; [reflexivity|]. cbn [flat_map map].
    destruct (Hrec e (or_introl eq_refl)) as (_ & _ & a & _ & ->).
    cbn [app map fst]. f_equal. apply IH. intros e' H. apply Hrec. now right.
  - intros e Hin. destruct (selected_In languageStats e Hin) as [Hb _].
    destruct (Hrec e Hin) as (Hm & Hp & a & Ha & Hr).
    split; [exact Hb|]. split; [exact Hm|]. split; [exact Hp|].
    exists a. split; [exact Ha|]. rewrite Hby. apply in_flat_map.
    exists e. split; [exact Hin|]. rewrite Hr. now left.
  - apply runAnalyzers_shape.
Qed.

End RouterRecords.

Lemma runAnalyzers_records_witness :
  obj_keys (Router.byLanguage (Router.runAnalyzers run_python_throws stats_60_40))
  = [ "Python"; "C++" ].
Proof.
  apply (runAnalyzers_records run_python_throws stats_60_40).
  repeat constructor; simpl; intuition discriminate.
Defined.

(* ------------------------------------------------------------------ *)
(** ** The report's lists and summary (ingestion.js) *)

Section ReportLists.

Import Ingestion.

Lemma push_if_nil (c : bool) (x : string) (l : list string) :
  push_if c x l = [] <-> c = false /\ l = [].
Proof.
  unfold push_if. destruct c; [|intuition].
  split; [|intros [H _]; discriminate H].
  intros H. now apply app_eq_nil in H as [_ H].
Qed.

Lemma push_if_prefix (c : bool) (x : string) (l : list string) :
  exists more, push_if c x l = (l ++ more)%list.
Proof.
  unfold push_if. destruct c; [now exists [x]|].
  exists []. now rewrite app_nil_r.
Qed.

Lemma strong_languages_nil (entries : Obj Router.LanguageEntry) :
  forall acc,
    fold_left
      (fun acc e =>
         push_if (Router.entryScore (snd e) >=? 85)
           ("Strong " ++ fst e ++ " implementation") acc) entries acc = []
    <-> acc = []
        /\ forall e, In e entries -> Router.entryScore (snd e) < 85.
Proof.
  induction entries as [|e entries IH]; intros acc; cbn [fold_left].
  - split; [intros ->; split; [reflexivity|intros e []]|tauto].
  - rewrite IH, push_if_nil. split.
    + intros [[Hc ->] Hall]. split; [reflexivity|].
      intros e' [<-|Hin]; [|now apply Hall].
      destruct (Z.geb_spec (Router.entryScore (snd e)) 85); [discriminate|lia].
    + intros [-> Hall]. split.
      * split; [|reflexivity].
        destruct (Z.geb_spec (Router.entryScore (snd e)) 85) as [Hge|];
          [|reflexivity].
        specialize (Hall e (or_introl eq_refl)). lia.
      * intros e' Hin. apply Hall. now right.
Qed.

Lemma strong_languages_members (entries : Obj Router.LanguageEntry) :
  forall acc x,
    In x (fold_left
            (fun acc e =>
               push_if (Router.entryScore (snd e) >=? 85)
                 ("Strong " ++ fst e ++ " implementation") acc) entries acc) ->
    In x acc \/ exists l, x = "Strong " ++ l ++ " implementation".
Proof.
  induction entries as [|e entries IH]; intros acc x H; cbn [fold_left] in H;
    [now left|].
  apply IH in H as [H|H]; [|now right].
  unfold push_if in H. destruct (_ >=? 85); [|now left].
  apply in_app_iff in H as [H|[<-|[]]]; [now left|right]. now exists (fst e).
Qed.

(** X15.  [identifyStrengths] never returns an empty list; it returns
    the single line "Repository analyzed successfully" exactly when no
    strength was found: the README quality and the structure score are
    below 80, there is no test, CI or license, the code score is below
    80 and no language entry scores 85 or more (an analyzer that threw
    is recorded with 50, hence never counts as strong). *)
Theorem identifyStrengths_never_empty
  (projectMetrics : ProjectAnalyzer.ProjectMetrics)
  (codeAnalysis : Router.CodeAnalysis) :
  identifyStrengths projectMetrics codeAnalysis <> []
  /\ (identifyStrengths projectMetrics codeAnalysis
      = [ "Repository analyzed successfully" ]
      <-> ProjectAnalyzer.readmeQuality projectMetrics < 80
          /\ ProjectAnalyzer.hasTests projectMetrics = false
          /\ ProjectAnalyzer.hasCI projectMetrics = false
          /\ ProjectAnalyzer.hasLicense projectMetrics = false
          /\ ProjectAnalyzer.structureScore projectMetrics < 80
          /\ Router.overallScore codeAnalysis < 80
          /\ forall e, In e (Router.byLanguage codeAnalysis) ->
                       Router.entryScore (snd e) < 85).
Proof.
  unfold identifyStrengths.
  set (s6 := push_if (Router.overallScore codeAnalysis >=? 80) _ _).
  set (strengths := fold_left _ (Router.byLanguage codeAnalysis) s6).
  assert (Hnil : strengths = []
                 <-> ProjectAnalyzer.readmeQuality projectMetrics < 80
                     /\ ProjectAnalyzer.hasTests projectMetrics = false
                     /\ ProjectAnalyzer.hasCI projectMetrics = false
                     /\ ProjectAnalyzer.hasLicense projectMetrics = false
                     /\ ProjectAnalyzer.structureScore projectMetrics < 80
                     /\ Router.overallScore codeAnalysis < 80
                     /\ forall e, In e (Router.byLanguage codeAnalysis) ->
                                  Router.entryScore (snd e) < 85).
  { unfold strengths. rewrite strong_languages_nil. unfold s6.
    rewrite !push_if_nil.
    destruct (Z.geb_spec (ProjectAnalyzer.readmeQuality projectMetrics) 80),
      (Z.geb_spec (ProjectAnalyzer.structureScore projectMetrics) 80),
      (Z.geb_spec (Router.overallScore codeAnalysis) 80);
      intuition (try discriminate; try lia). }
  assert (Hmem : forall x, In x strengths ->
                   x <> "Repository analyzed successfully").
  { intros x Hx. unfold strengths in Hx.
    apply strong_languages_members in Hx as [Hx|[l ->]]; [|discriminate].
    unfold s6, push_if in Hx.
    repeat match type of Hx with
           | In _ (if ?c then _ else _) => destruct c
           | In _ (_ ++ _)%list => apply in_app_iff in Hx as [Hx|Hx]
           | In _ [_] => destruct Hx as [<-|[]]; discriminate
           | In _ [] => destruct Hx
           end. }
  destruct strengths as [|s0 rest] eqn:E.
  - cbn [List.length Z.of_nat Z.gtb Z.compare].
    split; [discriminate|]. split; [intros _; now apply Hnil|reflexivity].
  - replace (Z.of_nat (List.length (s0 :: rest)) >? 0) with true
      by (cbn [List.length]; symmetry; apply Z.gtb_lt; lia).
    split; [discriminate|]. split.
    + intros H. injection H as -> ->.
      exfalso. now apply (Hmem "Repository analyzed successfully"); [left|].
    + intros H. apply Hnil in H. discriminate H.
Qed.

(** X16.  [identifyImprovements] returns at most five lines, the advice
    on the project first: when there is no README its first line is
    "Add a README file"; and when the README (absent, or of quality
    below 50), the tests, the license, the CI and the structure (score
    below 50) all call for advice, the five lines are these, whatever
    the code analysis holds. *)
Theorem identifyImprovements_top_five
  (projectMetrics : ProjectAnalyzer.ProjectMetrics)
  (codeAnalysis : Router.CodeAnalysis) :
  (List.length (identifyImprovements projectMetrics codeAnalysis) <= 5)%nat
  /\ (ProjectAnalyzer.hasReadme projectMetrics = false ->
      hd_error (identifyImprovements projectMetrics codeAnalysis)
      = Some "Add a README file")
  /\ ((ProjectAnalyzer.hasReadme projectMetrics = false
       \/ ProjectAnalyzer.readmeQuality projectMetrics < 50) ->
      ProjectAnalyzer.hasTests projectMetrics = false ->
      ProjectAnalyzer.hasLicense projectMetrics = false ->
      ProjectAnalyzer.hasCI projectMetrics = false ->
      ProjectAnalyzer.structureScore projectMetrics < 50 ->
      identifyImprovements projectMetrics codeAnalysis
      = [ if ProjectAnalyzer.hasReadme projectMetrics
          then "Improve README documentation" else "Add a README file";
          "Add unit tests"; "Add a license file"; "Set up CI/CD pipeline";
          "Improve project organization" ]).
Proof.
  unfold identifyImprovements. cbv zeta.
  set (i5 := push_if (ProjectAnalyzer.structureScore projectMetrics <? 50) _ _).
  assert (Hprefix : forall entries acc, exists more,
             fold_left
               (fun acc e =>
                  match snd e with
                  | Router.Analysis a =>
                      push_if (Router.issuesLength a >? 5)
                        ("Address code quality issues in " ++ fst e)
                        (push_if
                           (PrimFloat.ltb 15 (Router.complexityAverage a))
                           ("Reduce complexity in " ++ fst e ++ " code") acc)
                  | Router.Degraded _ _ => acc
                  end) entries acc
             = (acc ++ more)%list).
  { induction entries as [|e entries IH]; intros acc; cbn [fold_left].
    - exists []. now rewrite app_nil_r.
    - match goal with
      | |- exists more, fold_left _ entries ?step = _ =>
          assert (Hstep : exists m, step = (acc ++ m)%list)
      end.
      { destruct (snd e) as [a|s m]; [|exists []; now rewrite app_nil_r].
        destruct (push_if_prefix
                    (PrimFloat.ltb 15 (Router.complexityAverage a))
                    ("Reduce complexity in " ++ fst e ++ " code") acc)
          as (m1 & ->).
        destruct (push_if_prefix (Router.issuesLength a >? 5)
                    ("Address code quality issues in " ++ fst e)
                    (acc ++ m1)) as (m2 & ->).
        exists (m1 ++ m2)%list. now rewrite app_assoc. }
      destruct Hstep as (m & ->). destruct (IH (acc ++ m)%list) as (m3 & ->).
      exists (m ++ m3)%list. now rewrite app_assoc. }
  destruct (Hprefix (Router.byLanguage codeAnalysis) i5) as (more & ->).
  split; [apply firstn_le_length|]. split.
  - intros Hno. unfold i5, push_if. rewrite Hno. cbn [negb].
    repeat match goal with
           | |- context [if ?c then _ else _] => destruct c
           end; reflexivity.
  - intros Hreadme Ht Hl Hc Hs. unfold i5, push_if.
    rewrite Ht, Hl, Hc. cbn [negb].
    destruct (Z.ltb_spec (ProjectAnalyzer.structureScore projectMetrics) 50);
      [|lia].
    destruct (ProjectAnalyzer.hasReadme projectMetrics); cbn [negb].
    + destruct (Z.ltb_spec (ProjectAnalyzer.readmeQuality projectMetrics) 50);
        [reflexivity|].
      destruct Hreadme; [discriminate|lia].
    + reflexivity.
Qed.

Lemma identifyImprovements_top_five_witness :
  identifyImprovements
    {| ProjectAnalyzer.hasReadme := true;
       ProjectAnalyzer.readmeQuality := 20;
       ProjectAnalyzer.hasLicense := false;
       ProjectAnalyzer.hasTests := false;
       ProjectAnalyzer.hasCI := false;
       ProjectAnalyzer.hasDocker := false;
       ProjectAnalyzer.hasPackageManager := false;
       ProjectAnalyzer.hasDocs := false;
       ProjectAnalyzer.structureScore := 35;
       ProjectAnalyzer.score := 10 |}
    {| Router.byLanguage :=
         [ ("Python",
            Router.Analysis
              {| Router.score := 40; Router.complexityAverage := 22;
                 Router.issuesLength := 9 |}) ];
       Router.overallScore := 40;
       Router.analyzedLanguages := [ "Python" ];
       Router.message := None |}
  = [ "Improve README documentation"; "Add unit tests"; "Add a license file";
      "Set up CI/CD pipeline"; "Improve project organization" ].
Proof.
  apply identifyImprovements_top_five; cbn; try reflexivity; lia.
Defined.

(** The opening sentence of the summary, by the band of the score. *)
Lemma generateSummary_opening (score : Z)
  (projectMetrics : ProjectAnalyzer.ProjectMetrics)
  (codeAnalysis : Router.CodeAnalysis) :
  let text := generateSummary score projectMetrics codeAnalysis in
  startsWith text
    "This repository demonstrates strong software engineering practices."
  = (score >=? 80)
  /\ startsWith text
       "This repository shows competent development skills with room for improvement."
     = (negb (score >=? 80) && (score >=? 60))%bool
  /\ startsWith text
       "This repository meets basic standards but needs significant improvements."
     = (negb (score >=? 80) && negb (score >=? 60) && (score >=? 40))%bool
  /\ startsWith text
       "This repository requires substantial work to meet professional standards."
     = (negb (score >=? 80) && negb (score >=? 60) && negb (score >=? 40))%bool.
Proof.
  unfold generateSummary.
  destruct (ProjectAnalyzer.hasTests projectMetrics);
    destruct (ProjectAnalyzer.hasReadme projectMetrics
              && (ProjectAnalyzer.readmeQuality projectMetrics >=? 70))%bool;
    destruct (Router.overallScore codeAnalysis >=? 75);
    destruct (score >=? 80); destruct (score >=? 60); destruct (score >=? 40);
    vm_compute; repeat split.
Qed.

(** X17.  The opening sentence of the report's summary follows the
    report's grade: "demonstrates strong ... practices" for A+, A and
    A-, "shows competent ... skills" from C+ to B+, "meets basic
    standards" from D to C, "requires substantial work" for F. *)
Theorem summary_follows_grade (now url : string)
  (languageStats : LanguageStats)
  (projectMetrics : ProjectAnalyzer.ProjectMetrics)
  (codeAnalysis : Router.CodeAnalysis) :
  let report :=
    compileReport now url languageStats projectMetrics codeAnalysis in
  let rank := Spec.gradeRank (grade report) in
  (startsWith (summary report)
     "This repository demonstrates strong software engineering practices."
   = true <-> 8 <= rank)
  /\ (startsWith (summary report)
        "This repository shows competent development skills with room for improvement."
      = true <-> 4 <= rank < 8)
  /\ (startsWith (summary report)
        "This repository meets basic standards but needs significant improvements."
      = true <-> 1 <= rank < 4)
  /\ (startsWith (summary report)
        "This repository requires substantial work to meet professional standards."
      = true <-> rank = 0 /\ grade report = F).
Proof.
  intros report rank. unfold rank, report, compileReport.
  cbn [summary grade].
  set (s := Math_round _).
  destruct (generateSummary_opening s projectMetrics codeAnalysis)
    as (H1 & H2 & H3 & H4).
  cbv zeta in H1, H2, H3, H4. rewrite H1, H2, H3, H4.
  clear H1 H2 H3 H4. unfold scoreToGrade.
  repeat match goal with
         | |- context [ (?a >=? ?b) ] =>
             let Hc := fresh "Hc" in destruct (Z.geb_spec a b) as [Hc|Hc]
         end; try lia; cbn [negb andb Spec.gradeRank];
    (split; [|split; [|split]]); (split; intros Hx);
    first [ discriminate Hx | lia | reflexivity
          | split; reflexivity
          | destruct Hx as [Hx _]; discriminate Hx ].
Qed.

End ReportLists.

(* ------------------------------------------------------------------ *)
(** ** The JavaScript average complexity (javascriptAnalyzer.js) *)

Section JavaScriptAverage.

Import JavaScriptAnalyzer.



End JavaScriptAverage.

(* ------------------------------------------------------------------ *)
(** ** The Python complexity report (pythonAnalyzer.js) *)

Section PythonComplexity.

Import PythonAnalyzer Spec.




End PythonComplexity.

(* ------------------------------------------------------------------ *)
(** ** The Python style report (pythonAnalyzer.js) *)

Section PythonStyle.

Import PythonAnalyzer Terms.

Variable parseIssues : string -> Outcome (list PylintIssue).

Lemma count_set (counts : Obj Z) (k t : string) (v : Z) :
  count (obj_set k v counts) t = if String.eqb k t then v else count counts t.
Proof.
  unfold count. destruct (String.eqb_spec k t) as [->|Hne].
  - now rewrite obj_get_set_same.
  - now rewrite obj_get_set_other.
Qed.

(** The loop of lines 134-148: every message is counted under its type,
    and the errors and warnings are stored while fewer than ten issues
    are. *)
Lemma styleStep_fold (pylintIssues : list PylintIssue) :
  forall counts kept,
    let st' := fold_left styleStep pylintIssues (counts, kept) in
    (forall t, count (fst st') t = count counts t + ofType t pylintIssues)
    /\ snd st'
       = (kept
          ++ firstn (10 - List.length kept)
               (map storedIssue (filter significant pylintIssues)))%list.
Proof.
  induction pylintIssues as [|issue rest IH]; intros counts kept;
    cbn [fold_left].
  - cbn. split; [intros t; unfold ofType; cbn; lia|].
    now rewrite firstn_nil, app_nil_r.
  - cbn zeta in *.
    set (counts' := obj_set (p_type issue) (count counts (p_type issue) + 1)
                      counts).
    assert (Hstep : styleStep (counts, kept) issue
                    = if ((Z.of_nat (List.length kept) <? 10)
                          && significant issue)%bool
                      then (counts', (kept ++ [storedIssue issue])%list)
                      else (counts', kept)) by reflexivity.
    rewrite Hstep. clear Hstep.
    assert (Hcount : forall t,
               count counts' t + ofType t rest
               = count counts t + ofType t (issue :: rest)).
    { intros t. unfold counts'. rewrite count_set. unfold ofType.
      cbn [filter]. destruct (String.eqb_spec (p_type issue) t) as [->|_];
        cbn [List.length]; lia. }
    cbn [filter map].
    destruct (Z.ltb_spec (Z.of_nat (List.length kept)) 10) as [Hlt|Hge];
      destruct (significant issue); cbn [andb];
      destruct (IH counts' kept) as (Hc & Hk);
      try destruct (IH counts' (kept ++ [storedIssue issue])%list)
        as (Hc' & Hk').
    + split; [intros t; rewrite Hc'; apply Hcount|].
      rewrite Hk', length_app. cbn [List.length map].
      rewrite <- app_assoc. cbn [app]. f_equal.
      replace (10 - List.length kept)%nat
        with (S (10 - (List.length kept + 1)))%nat by lia.
      reflexivity.
    + split; [intros t; rewrite Hc; apply Hcount|exact Hk].
    + split; [intros t; rewrite Hc; apply Hcount|].
      rewrite Hk. replace (10 - List.length kept)%nat with 0%nat by lia.
      reflexivity.
    + split; [intros t; rewrite Hc; apply Hcount|exact Hk].
Qed.

(** X20.  When pylint prints a list of messages that can be parsed,
    [analyzeStyle] counts every message under its type ([style.counts],
    whose keys start with error, warning, convention and refactor),
    stores the errors and warnings in the order of the output until
    [style.issues] holds ten, gives a style score of [0, 100], and sets
    no error. *)
Theorem analyzeStyle_counts (stdout stderr : string) (result : Result)
  (pylintIssues : list PylintIssue) :
  truthy (trim stdout) = true -> trim stdout <> "[]" ->
  parseIssues stdout = Returned pylintIssues ->
  let result' := analyzeStyle parseIssues (Resolved stdout stderr) result in
  (exists counts,
      styleCounts result' = Some counts
      /\ (forall t, count counts t = ofType t pylintIssues)
      /\ styleScore result' = styleScoreOf counts)
  /\ styleIssues result'
     = (styleIssues result
        ++ firstn (10 - List.length (styleIssues result))
             (map storedIssue (filter significant pylintIssues)))%list
  /\ (List.length (styleIssues result')
      <= Nat.max 10 (List.length (styleIssues result)))%nat
  /\ 0 <= styleScore result' <= 100
  /\ styleError result' = styleError result.
Proof.
  intros Htrim Hne Hparse result'.
  assert (Ht : truthy stdout = true).
  { destruct stdout; [discriminate Htrim|reflexivity]. }
  apply String.eqb_neq in Hne.
  unfold result', analyzeStyle, execCaught. rewrite Ht, Htrim, Hne, Hparse.
  cbn [andb negb].
  destruct (styleStep_fold pylintIssues
              [ ("error", 0); ("warning", 0); ("convention", 0);
                ("refactor", 0) ] (styleIssues result)) as (Hc & Hk).
  cbn zeta in Hc, Hk.
  destruct (fold_left styleStep pylintIssues _) as [counts kept].
  cbn [fst snd] in Hc, Hk.
  cbn [setStyle styleCounts styleScore styleIssues styleError].
  split; [|split; [exact Hk|split; [|split; [|reflexivity]]]].
  - exists counts. split; [reflexivity|]. split; [|reflexivity].
    intros t. rewrite Hc. unfold count. cbn [obj_get].
    repeat match goal with
           | |- context [String.eqb ?a t] => destruct (String.eqb a t)
           end; lia.
  - rewrite Hk, length_app.
    pose proof (firstn_le_length (10 - List.length (styleIssues result))
                  (map storedIssue (filter significant pylintIssues))).
    lia.
  - unfold styleScoreOf, Math_max, Math_min. lia.
Qed.

End PythonStyle.

Lemma analyzeStyle_counts_witness :
  PythonAnalyzer.styleScore
    (PythonAnalyzer.analyzeStyle
       (fun _ =>
          Returned
            [ {| PythonAnalyzer.p_type := "error";
                 PythonAnalyzer.p_message := "undefined variable";
                 PythonAnalyzer.p_path := "pkg/a.py";
                 PythonAnalyzer.p_line := 3;
                 PythonAnalyzer.p_symbol := "undefined-variable" |};
              {| PythonAnalyzer.p_type := "convention";
                 PythonAnalyzer.p_message := "line too long";
                 PythonAnalyzer.p_path := "pkg/a.py";
                 PythonAnalyzer.p_line := 9;
                 PythonAnalyzer.p_symbol := "line-too-long" |} ])
       (PythonAnalyzer.Resolved "[{}, {}]" "")
       PythonAnalyzer.initialResult)
  <= 100.
Proof.
  apply (analyzeStyle_counts _ "[{}, {}]" "" PythonAnalyzer.initialResult
           _ eq_refl ltac:(discriminate) eq_refl).
Defined.

(* ------------------------------------------------------------------ *)
(** ** Repository addresses (githubFetcher.js, server.js) *)

Section Addresses.

Import GithubFetcher Server Terms.

Lemma after_append (p r : string) : after p (p ++ r) = Some r.
Proof.
  induction p as [|a p IH]; cbn [append after]; [reflexivity|].
  now rewrite Ascii.eqb_refl.
Qed.

Lemma after_Some (p : string) :
  forall s r, after p s = Some r -> s = p ++ r.
Proof.
  induction p as [|a p IH]; intros s r H; cbn [after] in H.
  - now inversion H.
  - destruct s as [|b s]; [discriminate|].
    destruct (Ascii.eqb a b) eqn:E; [|discriminate].
    apply Ascii.eqb_eq in E as ->. cbn [append]. f_equal. now apply IH.
Qed.

Lemma after_prefix (p s : string) :
  String.prefix p s = false -> after p s = None.
Proof.
  revert s. induction p as [|a p IH]; intros [|b s] H;
    cbn [String.prefix after] in *; try discriminate; try reflexivity.
  destruct (ascii_dec a b) as [->|Hne].
  - rewrite Ascii.eqb_refl. now apply IH.
  - apply Ascii.eqb_neq in Hne. now rewrite Hne.
Qed.

Lemma span_spec (ok : ascii -> bool) (s : string) :
  s = fst (span ok s) ++ snd (span ok s)
  /\ every ok (fst (span ok s)) = true
  /\ stopsAt ok (snd (span ok s)) = true.
Proof.
  induction s as [|c s (IH1 & IH2 & IH3)]; cbn [span]; [now cbn|].
  destruct (ok c) eqn:Hc.
  - destruct (span ok s) as [a b]. cbn [fst snd append every] in *.
    rewrite Hc. repeat split; [now f_equal|exact IH2|exact IH3].
  - cbn [fst snd append every stopsAt]. now rewrite Hc.
Qed.

Lemma span_append (ok : ascii -> bool) (a b : string) :
  every ok a = true -> stopsAt ok b = true -> span ok (a ++ b) = (a, b).
Proof.
  intros Ha Hb. induction a as [|c a IH]; cbn [append].
  - destruct b as [|d b]; [reflexivity|]. cbn [span stopsAt] in *.
    now destruct (ok d).
  - cbn [every] in Ha. apply andb_true_iff in Ha as [Hc Ha].
    cbn [span]. now rewrite Hc, (IH Ha).
Qed.

Lemma every_weaken (ok ok' : ascii -> bool) (s : string) :
  (forall c, ok c = true -> ok' c = true) ->
  every ok s = true -> every ok' s = true.
Proof.
  intros Himp. induction s as [|c s IH]; cbn [every]; [reflexivity|].
  intros H. apply andb_true_iff in H as [Hc Hs].
  now rewrite (Himp _ Hc), (IH Hs).
Qed.

Lemma every_has_char (ok : ascii -> bool) (c : ascii) (s : string) :
  ok c = false -> every ok s = true -> has_char c s = false.
Proof.
  intros Hc. induction s as [|d s IH]; cbn [every has_char]; [reflexivity|].
  intros H. apply andb_true_iff in H as [Hd Hs]. rewrite (IH Hs), orb_false_r.
  destruct (Ascii.eqb_spec d c) as [->|]; [congruence|reflexivity].
Qed.

Lemma every_notSlash (s : string) :
  every notSlash s = true <-> has_char "/" s = false.
Proof.
  unfold notSlash. induction s as [|c s IH]; cbn [every has_char]; [easy|].
  rewrite andb_true_iff, orb_false_iff, IH, negb_true_iff. reflexivity.
Qed.

Lemma span_starts (ok : ascii -> bool) (c : ascii) (s : string) :
  ok c = true -> exists a, fst (span ok (String c s)) = String c a.
Proof.
  intros Hc. cbn [span]. rewrite Hc. destruct (span ok s) as [a b].
  now exists a.
Qed.

Lemma substring_front (a b : string) :
  String.substring 0 (String.length a) (a ++ b) = a.
Proof.
  induction a as [|c a IH]; cbn [append String.length String.substring].
  - now destruct b.
  - now rewrite IH.
Qed.

Lemma stripGit_append (name : string) : stripGit (name ++ ".git") = name.
Proof.
  unfold stripGit, endsWith. cbv zeta. rewrite length_append.
  cbn [String.length].
  replace (String.length name + 4 - 4)%nat with (String.length name) by lia.
  replace (Nat.leb 4 (String.length name + 4)) with true
    by (symmetry; apply Nat.leb_le; lia).
  change 4%nat with (String.length ".git") at 1.
  rewrite substring_append. cbn [andb]. rewrite String.eqb_refl.
  apply substring_front.
Qed.

(** What a match found is made of. *)
Lemma matchHere_Some (host s o r : string) :
  matchHere host s = Some (o, r) ->
  exists more,
    s = host ++ o ++ "/" ++ r ++ more
    /\ o <> "" /\ has_char "/" o = false
    /\ r <> "" /\ every repoChar r = true /\ stopsAt repoChar more = true.
Proof.
  unfold matchHere. destruct (after host s) as [rest|] eqn:Ea; [|discriminate].
  apply after_Some in Ea.
  destruct (span_spec notSlash rest) as (H1 & H2 & _).
  destruct (span notSlash rest) as [[|c o'] more]; [discriminate|].
  cbn [fst snd] in *.
  destruct (after "/" more) as [more'|] eqn:Eb; [|discriminate].
  apply after_Some in Eb.
  destruct (span_spec repoChar more') as (H4 & H5 & H6).
  destruct (span repoChar more') as [[|d r'] more'']; [discriminate|].
  cbn [fst snd] in *. intros H. inversion H; subst o r. exists more''.
  split; [now rewrite Ea, H1, Eb, H4|].
  repeat split; try discriminate; try assumption.
  now apply every_notSlash.
Qed.

(** A match is found where an address starts. *)
Lemma matchHere_address (host o r more : string) :
  o <> "" -> has_char "/" o = false -> r <> "" -> every repoChar r = true ->
  exists r', matchHere host (host ++ o ++ "/" ++ r ++ more) = Some (o, r')
             /\ (stopsAt repoChar more = true -> r' = r).
Proof.
  intros Ho Hs Hr He. unfold matchHere. rewrite after_append.
  rewrite (span_append notSlash o) by (now apply every_notSlash || reflexivity).
  destruct o as [|c o]; [now contradiction Ho|].
  cbn [append after]. rewrite Ascii.eqb_refl.
  destruct r as [|d r]; [now contradiction Hr|].
  pose proof He as He'. cbn [every] in He'.
  apply andb_true_iff in He' as [Hd _].
  destruct (span_starts repoChar d (r ++ more) Hd) as (a & Ha).
  change (String d r ++ more) with (String d (r ++ more)).
  destruct (span repoChar (String d (r ++ more))) as [r' more'] eqn:Es.
  cbn [fst] in Ha. subst r'. eexists. split; [reflexivity|].
  intros Hstop.
  change (String d (r ++ more)) with (String d r ++ more) in Es.
  rewrite (span_append repoChar _ _ He Hstop) in Es. now inversion Es.
Qed.

Lemma matchFirst_Some (host : string) (s o r : string) :
  matchFirst host s = Some (o, r) ->
  exists before more,
    s = before ++ host ++ o ++ "/" ++ r ++ more
    /\ o <> "" /\ has_char "/" o = false
    /\ r <> "" /\ every repoChar r = true /\ stopsAt repoChar more = true.
Proof.
  induction s as [|c s IH]; cbn [matchFirst].
  - destruct (matchHere host "") as [groups|] eqn:E; [|discriminate].
    intros H. inversion H; subst groups.
    destruct (matchHere_Some _ _ _ _ E) as (more & Hm). now exists "", more.
  - destruct (matchHere host (String c s)) as [groups|] eqn:E.
    + intros H. inversion H; subst groups.
      destruct (matchHere_Some _ _ _ _ E) as (more & Hm). now exists "", more.
    + intros H. destruct (IH H) as (before & more & -> & Hm).
      now exists (String c before), more.
Qed.

(** An address somewhere in the text is enough for a match. *)
Lemma matchFirst_address (host before o r more : string) :
  o <> "" -> has_char "/" o = false -> r <> "" -> every repoChar r = true ->
  matchFirst host (before ++ host ++ o ++ "/" ++ r ++ more) <> None.
Proof.
  intros Ho Hs Hr He.
  destruct (matchHere_address host o r more Ho Hs Hr He) as (r' & Hm & _).
  remember (host ++ o ++ "/" ++ r ++ more) as u. clear Hequ.
  induction before as [|c before IH]; cbn [append].
  - destruct u; cbn [matchFirst]; now rewrite Hm.
  - cbn [matchFirst].
    destruct (matchHere host (String c (before ++ u))); [discriminate|exact IH].
Qed.

(** A text before the host that has no letter g holds no match. *)
Lemma matchFirst_skip (host' before s : string) :
  has_char "g" before = false ->
  matchFirst (String "g" host') (before ++ s) = matchFirst (String "g" host') s.
Proof.
  intros Hg. induction before as [|c before IH]; cbn [append]; [reflexivity|].
  cbn [has_char] in Hg. apply orb_false_iff in Hg as [Hc Hg].
  cbn [matchFirst]. unfold matchHere at 1. cbn [after].
  rewrite Ascii.eqb_sym, Hc. now apply IH.
Qed.

Lemma matchFirst_exact (host o r more : string) :
  o <> "" -> has_char "/" o = false -> r <> "" -> every repoChar r = true ->
  stopsAt repoChar more = true ->
  matchFirst host (host ++ o ++ "/" ++ r ++ more) = Some (o, r).
Proof.
  intros Ho Hs Hr He Hstop.
  destruct (matchHere_address host o r more Ho Hs Hr He) as (r' & Hm & Hr').
  rewrite (Hr' Hstop) in Hm.
  remember (host ++ o ++ "/" ++ r ++ more) as u. clear Hequ.
  destruct u; cbn [matchFirst]; now rewrite Hm.
Qed.

Lemma matchFirst_absent (host s : string) :
  includes s host = false -> matchFirst host s = None.
Proof.
  induction s as [|c s IH]; cbn [includes matchFirst]; intros H;
    apply orb_false_iff in H as [Hp Hr]; unfold matchHere;
    rewrite (after_prefix _ _ Hp); [reflexivity|now apply IH].
Qed.

(** X22.  [parseGitHubUrl] returns exactly when the text holds, after
    [github.com/] or [github.com:], an owner (one character or more, no
    slash), a slash and a name (one character or more, none of them a
    slash, a question mark or a hash).  What it returns is read at such
    a place: the owner, and the name up to the next slash, question mark,
    hash or the end, less a final [.git].  Otherwise it throws
    [Invalid GitHub URL format]; it does so for every text without
    [github.com]. *)
Theorem parseGitHubUrl_parts (url : string) :
  (forall found,
      parseGitHubUrl url = Returned found ->
      exists host before name more,
        (host = "github.com/" \/ host = "github.com:")
        /\ url = before ++ host ++ owner found ++ "/" ++ name ++ more
        /\ owner found <> "" /\ has_char "/" (owner found) = false
        /\ name <> "" /\ every repoChar name = true
        /\ stopsAt repoChar more = true
        /\ repo found = stripGit name)
  /\ (forall message,
        parseGitHubUrl url = Thrown message ->
        message = "Invalid GitHub URL format"
        /\ forall host before o name more,
             host = "github.com/" \/ host = "github.com:" ->
             o <> "" -> has_char "/" o = false ->
             name <> "" -> every repoChar name = true ->
             url <> before ++ host ++ o ++ "/" ++ name ++ more)
  /\ (includes url "github.com" = false ->
      parseGitHubUrl url = Thrown "Invalid GitHub URL format").
Proof.
  unfold parseGitHubUrl. split; [|split].
  - intros found.
    destruct (matchFirst "github.com/" url) as [[o r]|] eqn:E1.
    + intros H. inversion H; subst found. cbn [owner repo].
      destruct (matchFirst_Some _ _ _ _ E1)
        as (before & more & Hu & Ho & Hs & Hr & He & Hstop).
      exists "github.com/", before, r, more. now repeat split; try left.
    + destruct (matchFirst "github.com:" url) as [[o r]|] eqn:E2;
        [|discriminate].
      intros H. inversion H; subst found. cbn [owner repo].
      destruct (matchFirst_Some _ _ _ _ E2)
        as (before & more & Hu & Ho & Hs & Hr & He & Hstop).
      exists "github.com:", before, r, more. now repeat split; try right.
  - intros message.
    destruct (matchFirst "github.com/" url) as [[o r]|] eqn:E1; [discriminate|].
    destruct (matchFirst "github.com:" url) as [[o r]|] eqn:E2; [discriminate|].
    intros H. inversion H. split; [reflexivity|].
    intros host before o name more [->| ->] Ho Hs Hr He ->.
    + now apply (matchFirst_address "github.com/" before o name more).
    + now apply (matchFirst_address "github.com:" before o name more).
  - intros Hno.
    assert (H1 : includes url "github.com/" = false).
    { destruct (includes url "github.com/") eqn:E; [|reflexivity].
      rewrite <- Hno. symmetry. apply (includes_trans _ _ _ E). reflexivity. }
    assert (H2 : includes url "github.com:" = false).
    { destruct (includes url "github.com:") eqn:E; [|reflexivity].
      rewrite <- Hno. symmetry. apply (includes_trans _ _ _ E). reflexivity. }
    now rewrite (matchFirst_absent _ _ H1), (matchFirst_absent _ _ H2).
Qed.

(** X23.  An address written after a text without the letter g (as
    [https://], [http://www.] or nothing) is read back: the owner, and
    the name less a final [.git]; what follows the name from a slash, a
    question mark or a hash on is ignored.  So the clone address, which
    ends with [.git], gives the same result as the page address. *)
Theorem parseGitHubUrl_reads_address (before o name more : string) :
  has_char "g" before = false ->
  o <> "" -> has_char "/" o = false ->
  name <> "" -> every repoChar name = true -> stopsAt repoChar more = true ->
  parseGitHubUrl (before ++ "github.com/" ++ o ++ "/" ++ name ++ more)
  = Returned {| owner := o; repo := stripGit name |}
  /\ parseGitHubUrl
       (before ++ "github.com/" ++ o ++ "/" ++ (name ++ ".git") ++ more)
     = Returned {| owner := o; repo := name |}
  /\ (endsWith name ".git" = false -> stripGit name = name).
Proof.
  intros Hg Ho Hs Hr He Hstop. unfold parseGitHubUrl. split; [|split].
  - rewrite (matchFirst_skip _ before _ Hg).
    now rewrite (matchFirst_exact "github.com/" o name more).
  - rewrite (matchFirst_skip _ before _ Hg).
    rewrite (matchFirst_exact "github.com/" o (name ++ ".git") more);
      try assumption.
    + now rewrite stripGit_append.
    + now destruct name.
    + clear - He. induction name as [|c n IH]; [reflexivity|].
      cbn [every append] in *. apply andb_true_iff in He as [Hc Hn].
      now rewrite Hc, (IH Hn).
  - unfold stripGit. now intros ->.
Qed.

Lemma parseGitHubUrl_reads_address_witness :
  parseGitHubUrl "https://github.com/octo-org/hello.world/tree/main?tab=readme"
  = Returned {| owner := "octo-org"; repo := "hello.world" |}
  /\ parseGitHubUrl "https://github.com/octo-org/hello.world.git/tree/main?tab=readme"
     = Returned {| owner := "octo-org"; repo := "hello.world" |}.
Proof.
  destruct (parseGitHubUrl_reads_address "https://" "octo-org" "hello.world"
              "/tree/main?tab=readme")
    as (H1 & H2 & _); try reflexivity; try discriminate.
  split; [exact H1|exact H2].
Defined.

Lemma ownerChar_notSlash (c : ascii) : ownerChar c = true -> notSlash c = true.
Proof. destruct c as [[] [] [] [] [] [] [] []]; now vm_compute. Qed.

Lemma nameChar_repoChar (c : ascii) : nameChar c = true -> repoChar c = true.
Proof. destruct c as [[] [] [] [] [] [] [] []]; now vm_compute. Qed.

(** X24.  An address that the server accepts is one that the fetcher can
    read: [parseGitHubUrl] does not throw on it, and returns the owner
    and the name that the pattern of the server saw, the name less a
    final [.git]. *)
Theorem accepted_address_is_parsed (url : string) :
  githubRegex url = true ->
  exists scheme o name slash,
    url = scheme ++ "github.com/" ++ o ++ "/" ++ name ++ slash
    /\ In scheme ["http://"; "https://"; "http://www."; "https://www."]
    /\ o <> "" /\ every ownerChar o = true
    /\ name <> "" /\ every nameChar name = true
    /\ (slash = "" \/ slash = "/")
    /\ parseGitHubUrl url = Returned {| owner := o; repo := stripGit name |}.
Proof.
  unfold githubRegex, optional.
  destruct (after "http" url) as [r0|] eqn:E0; [|discriminate].
  apply after_Some in E0.
  set (r0' := match after "s" r0 with Some r => r | None => r0 end).
  assert (Hs : exists s, r0 = s ++ r0' /\ (s = "" \/ s = "s")).
  { unfold r0'. destruct (after "s" r0) as [r|] eqn:E.
    - apply after_Some in E. exists "s". now split; [|right].
    - exists "". now split; [|left]. }
  destruct Hs as (s & Hs & Hs'). clearbody r0'.
  destruct (after "://" r0') as [r1|] eqn:E1; [|discriminate].
  apply after_Some in E1.
  set (r1' := match after "www." r1 with Some r => r | None => r1 end).
  assert (Hw : exists w, r1 = w ++ r1' /\ (w = "" \/ w = "www.")).
  { unfold r1'. destruct (after "www." r1) as [r|] eqn:E.
    - apply after_Some in E. exists "www.". now split; [|right].
    - exists "". now split; [|left]. }
  destruct Hw as (w & Hw & Hw'). clearbody r1'.
  destruct (after "github.com/" r1') as [r2|] eqn:E2; [|discriminate].
  apply after_Some in E2.
  destruct (span_spec ownerChar r2) as (H1 & H2 & _).
  destruct (span ownerChar r2) as [[|c o'] r3]; [discriminate|].
  cbn [fst snd] in *.
  destruct (after "/" r3) as [r4|] eqn:E3; [|discriminate].
  apply after_Some in E3.
  destruct (span_spec nameChar r4) as (H4 & H5 & _).
  destruct (span nameChar r4) as [[|d n'] r5]; [discriminate|].
  cbn [fst snd] in *. intros Hend.
  assert (Hslash : r5 = "" \/ r5 = "/")
    by (apply orb_true_iff in Hend as [H|H]; apply String.eqb_eq in H;
        [now left|now right]).
  set (o := String c o') in *. set (name := String d n') in *.
  assert (Hurl : url = ("http" ++ s ++ "://" ++ w)
                       ++ "github.com/" ++ o ++ "/" ++ name ++ r5).
  { rewrite E0, Hs, E1, Hw, E2, H1, E3, H4.
    destruct Hs' as [-> | ->], Hw' as [-> | ->]; reflexivity. }
  exists ("http" ++ s ++ "://" ++ w), o, name, r5.
  split; [exact Hurl|].
  split; [destruct Hs' as [-> | ->], Hw' as [-> | ->]; cbn; tauto|].
  split; [discriminate|]. split; [exact H2|].
  split; [discriminate|]. split; [exact H5|]. split; [exact Hslash|].
  rewrite Hurl. unfold parseGitHubUrl.
  rewrite matchFirst_skip
    by (destruct Hs' as [-> | ->], Hw' as [-> | ->]; reflexivity).
  rewrite (matchFirst_exact "github.com/" o name r5); try discriminate.
  - reflexivity.
  - apply every_notSlash.
    exact (every_weaken _ _ _ ownerChar_notSlash H2).
  - exact (every_weaken _ _ _ nameChar_repoChar H5).
  - destruct Hslash as [-> | ->]; reflexivity.
Qed.

Lemma accepted_address_is_parsed_witness :
  exists scheme o name slash,
    "https://www.github.com/octo-org/hello.world.git/"
    = scheme ++ "github.com/" ++ o ++ "/" ++ name ++ slash
    /\ In scheme ["http://"; "https://"; "http://www."; "https://www."]
    /\ o <> "" /\ every ownerChar o = true
    /\ name <> "" /\ every nameChar name = true
    /\ (slash = "" \/ slash = "/")
    /\ parseGitHubUrl "https://www.github.com/octo-org/hello.world.git/"
       = Returned {| owner := o; repo := stripGit name |}.
Proof.
  exact (accepted_address_is_parsed
           "https://www.github.com/octo-org/hello.world.git/" eq_refl).
Defined.

End Addresses.

(* ------------------------------------------------------------------ *)
(** ** Requests and retries (githubFetcher.js) *)

Section Retries.

Import GithubFetcher Terms.

Variable httpsRequest : nat -> Outcome Response.
Variable now : nat -> Z.
Variable toISOString : Z -> string.
Variable retries : nat.

(** An accepted attempt ends the loop. *)
Lemma attempts_accept (left attempt : nat) (lastError : option string)
  (st : Effects) :
  accepted (httpsRequest attempt) = true ->
  exists r,
    httpsRequest attempt = Returned r
    /\ attempts httpsRequest now toISOString retries (S left) attempt
         lastError st
       = (Fulfilled r, made st).
Proof.
  unfold accepted, made. cbn [attempts].
  destruct (httpsRequest attempt) as [r|message]; [|discriminate].
  intros H. exists r. split; [reflexivity|].
  replace (statusCode r =? 403) with false by lia.
  replace (statusCode r =? 404) with false by lia.
  replace (statusCode r >=? 400) with false by lia. reflexivity.
Qed.

(** Another attempt follows one that is not accepted: at once after a
    short wait for the rate limit, and else after the catch block. *)
Lemma attempts_retry (left attempt : nat) (lastError : option string)
  (st : Effects) :
  accepted (httpsRequest attempt) = false ->
  if shortWait (now attempt) (httpsRequest attempt) then
    attempts httpsRequest now toISOString retries (S left) attempt
      lastError st
    = attempts httpsRequest now toISOString retries left (S attempt)
        lastError
        (slept (waitTime (now attempt) (httpsRequest attempt) + 1000)
           (made st))
  else
    exists message,
      attempts httpsRequest now toISOString retries (S left) attempt
        lastError st
      = attempts httpsRequest now toISOString retries left (S attempt)
          (Some message)
          (if Nat.ltb attempt retries
           then slept (backoff attempt) (made st) else made st).
Proof.
  unfold accepted, shortWait, made, rateLimited, waitTime, backoff,
    BASE_RETRY_DELAY.
  cbn [attempts].
  destruct (httpsRequest attempt) as [r|message]; intros H.
  - destruct ((statusCode r =? 403) && (remaining r =? 0))%bool; cbn [andb].
    + destruct (Math_max 0 (reset r * 1000 - now attempt) >? 60000);
        cbn [negb]; [eexists|]; reflexivity.
    + destruct (statusCode r =? 404); [eexists; reflexivity|].
      replace (statusCode r >=? 400) with true by lia.
      eexists; reflexivity.
  - cbn [andb]. eexists; reflexivity.
Qed.

(** The requests made and the way the loop ends. *)
Lemma attempts_first (left : nat) :
  forall attempt lastError st,
    let run :=
      attempts httpsRequest now toISOString retries left attempt
        lastError st in
    match find (fun n => accepted (httpsRequest n)) (seq attempt left) with
    | Some n =>
        exists r,
          httpsRequest n = Returned r
          /\ fst run = Fulfilled r
          /\ requests (snd run) = (requests st + (n - attempt) + 1)%nat
          /\ (attempt <= n)%nat
    | None =>
        exists e,
          fst run = RejectedWith e
          /\ requests (snd run) = (requests st + left)%nat
    end.
Proof.
  induction left as [|left IH]; intros attempt lastError st; cbv zeta.
  - cbn. exists lastError. split; [reflexivity|lia].
  - cbn [seq find].
    destruct (accepted (httpsRequest attempt)) eqn:Ea.
    + destruct (attempts_accept left attempt lastError st Ea) as (r & Hr & ->).
      exists r. cbn [fst snd requests made].
      repeat split; [exact Hr|lia|lia].
    + pose proof (attempts_retry left attempt lastError st Ea) as Hstep.
      destruct (shortWait (now attempt) (httpsRequest attempt)).
      * rewrite Hstep.
        specialize (IH (S attempt) lastError
                      (slept (waitTime (now attempt) (httpsRequest attempt)
                              + 1000) (made st))).
        cbv zeta in IH.
        destruct (find _ (seq (S attempt) left)) as [n|].
        -- destruct IH as (r & H1 & H2 & H3 & H4). exists r.
           cbn [slept requests made] in H3.
           repeat split; [exact H1|exact H2|lia|lia].
        -- destruct IH as (e & H1 & H2). exists e.
           cbn [slept requests made] in H2. split; [exact H1|lia].
      * destruct Hstep as (message & ->).
        set (st' := if Nat.ltb attempt retries then _ else _).
        assert (Hreq : requests st' = S (requests st))
          by (unfold st'; now destruct (Nat.ltb attempt retries)).
        specialize (IH (S attempt) (Some message) st'). cbv zeta in IH.
        destruct (find _ (seq (S attempt) left)) as [n|].
        -- destruct IH as (r & H1 & H2 & H3 & H4). exists r.
           repeat split; [exact H1|exact H2|lia|lia].
        -- destruct IH as (e & H1 & H2). exists e. split; [exact H1|lia].
Qed.

(** When no answer is of the rate-limit kind, a delay of
    [1000 * 2 ^ attempt] ms follows every attempt that fails but the
    last one of the loop, and the error of the last failure is kept. *)
Lemma attempts_backoff (left : nat) :
  forall attempt lastError st,
    (attempt + left = S retries)%nat ->
    (forall n, (attempt <= n <= retries)%nat ->
               rateLimited (httpsRequest n) = false) ->
    let run :=
      attempts httpsRequest now toISOString retries left attempt
        lastError st in
    sleeps (snd run)
    = (sleeps st
       ++ map backoff
            (seq attempt (requests (snd run) - requests st - 1)))%list
    /\ (fst run = RejectedWith None -> lastError = None /\ left = O).
Proof.
  induction left as [|left IH]; intros attempt lastError st Hlen Hno;
    cbv zeta.
  - cbn [attempts fst snd]. rewrite Nat.sub_diag. cbn [Nat.sub seq map].
    rewrite app_nil_r. split; [reflexivity|]. intros H. now inversion H.
  - destruct (accepted (httpsRequest attempt)) eqn:Ea.
    + destruct (attempts_accept left attempt lastError st Ea) as (r & Hr & ->).
      cbn [fst snd requests sleeps made].
      replace (S (requests st) - requests st - 1)%nat with O by lia.
      cbn [seq map]. rewrite app_nil_r. split; [reflexivity|discriminate].
    + pose proof (attempts_retry left attempt lastError st Ea) as Hstep.
      unfold shortWait in Hstep. rewrite (Hno attempt) in Hstep by lia.
      cbn [andb] in Hstep. destruct Hstep as (message & ->).
      pose proof (attempts_first left (S attempt) (Some message)) as Hreq.
      destruct left as [|left].
      * replace (Nat.ltb attempt retries) with false
          by (symmetry; apply Nat.ltb_ge; lia).
        cbn [attempts fst snd requests sleeps made].
        replace (S (requests st) - requests st - 1)%nat with O by lia.
        cbn [seq map]. rewrite app_nil_r. split; [reflexivity|discriminate].
      * replace (Nat.ltb attempt retries) with true
          by (symmetry; apply Nat.ltb_lt; lia).
        specialize (IH (S attempt) (Some message)
                      (slept (backoff attempt) (made st))).
        specialize (Hreq (slept (backoff attempt) (made st))).
        cbv zeta in IH, Hreq.
        destruct IH as (IH1 & IH2); [lia|intros n Hn; apply Hno; lia|].
        set (run := attempts httpsRequest now toISOString retries (S left)
                      (S attempt) (Some message)
                      (slept (backoff attempt) (made st))) in *.
        assert (Hmore : exists k,
                   requests (snd run) = (requests st + 2 + k)%nat).
        { cbn [slept requests made] in Hreq.
          destruct (find _ (seq (S attempt) (S left))) as [n|].
          - destruct Hreq as (r & _ & _ & H & Hle).
            exists (n - S attempt)%nat. lia.
          - destruct Hreq as (e & _ & H). exists left. lia. }
        destruct Hmore as (k & Hk). split.
        -- rewrite IH1. cbn [slept requests sleeps made]. rewrite Hk.
           replace (requests st + 2 + k - S (requests st) - 1)%nat
             with k by lia.
           replace (requests st + 2 + k - requests st - 1)%nat
             with (S k) by lia.
           cbn [seq map]. now rewrite <- app_assoc.
        -- intros H. now destruct (IH2 H).
Qed.

(** The loop ends with [lastError] never set exactly when every attempt
    was answered by a short wait for the rate limit. *)
Lemma attempts_undefined (left : nat) :
  forall attempt lastError st,
    fst (attempts httpsRequest now toISOString retries left attempt
           lastError st) = RejectedWith None
    <-> lastError = None
        /\ forall n, (attempt <= n < attempt + left)%nat ->
                     shortWait (now n) (httpsRequest n) = true.
Proof.
  induction left as [|left IH]; intros attempt lastError st.
  - cbn [attempts fst]. split.
    + intros H. inversion H. split; [reflexivity|]. intros n Hn. lia.
    + now intros [-> _].
  - destruct (accepted (httpsRequest attempt)) eqn:Ea.
    + destruct (attempts_accept left attempt lastError st Ea) as (r & Hr & ->).
      cbn [fst]. split; [discriminate|]. intros [_ H].
      specialize (H attempt ltac:(lia)). exfalso. revert H Ea.
      unfold shortWait, rateLimited, accepted. rewrite Hr.
      intros H Ea. apply andb_true_iff in H as [H _].
      apply andb_true_iff in H as [H _]. lia.
    + pose proof (attempts_retry left attempt lastError st Ea) as Hstep.
      destruct (shortWait (now attempt) (httpsRequest attempt)) eqn:Ew.
      * rewrite Hstep, IH. split; intros [He H]; (split; [exact He|]);
          intros n Hn.
        -- destruct (Nat.eq_dec n attempt) as [->|Hne]; [exact Ew|].
           apply H. lia.
        -- apply H. lia.
      * destruct Hstep as (message & ->). rewrite IH. split.
        -- intros [H _]. discriminate.
        -- intros [_ H]. specialize (H attempt ltac:(lia)). congruence.
Qed.

(** X25.  [requestWithRetry] makes the requests one after another until an
    attempt answers with a status below 400, and returns that response;
    it makes [retries + 1] requests at most.  So it resolves with the
    response of the first of the attempts 0 to [retries] that is
    accepted, after as many requests as that attempt's number plus one;
    when none of them is accepted, it rejects after [retries + 1]
    requests.  A 404 is retried as any other failure is. *)
Theorem requestWithRetry_first_accepted :
  let run := requestWithRetry httpsRequest now toISOString retries in
  match find (fun n => accepted (httpsRequest n)) (seq 0 (S retries)) with
  | Some n =>
      exists r,
        httpsRequest n = Returned r
        /\ fst run = Fulfilled r
        /\ requests (snd run) = S n
        /\ (n <= retries)%nat
  | None =>
      exists e,
        fst run = RejectedWith e /\ requests (snd run) = S retries
  end.
Proof.
  unfold requestWithRetry.
  pose proof (attempts_first (S retries) 0 None
                {| requests := 0; sleeps := [] |}) as H.
  cbv zeta in *.
  destruct (find _ (seq 0 (S retries))) as [n|] eqn:E.
  - destruct H as (r & H1 & H2 & H3 & _). exists r.
    repeat split; [exact H1|exact H2|cbn [requests] in H3; lia|].
    apply find_some in E as [Hin _]. apply in_seq in Hin. lia.
  - destruct H as (e & H1 & H2). exists e. split; [exact H1|exact H2].
Qed.

(** X26.  Exponential backoff.  When no answer is of the rate-limit kind (a
    403 with no request remaining), the delays slept are 1000 ms after
    the first failed attempt and twice the delay before after each next
    one: [1000 * 2 ^ n] after attempt [n].  No delay follows the last
    request, and a rejection carries the error of a failure. *)
Theorem requestWithRetry_backoff :
  (forall n, (n <= retries)%nat -> rateLimited (httpsRequest n) = false) ->
  let run := requestWithRetry httpsRequest now toISOString retries in
  sleeps (snd run) = map backoff (seq 0 (requests (snd run) - 1))
  /\ fst run <> RejectedWith None.
Proof.
  intros Hno. unfold requestWithRetry.
  destruct (attempts_backoff (S retries) 0 None
              {| requests := 0; sleeps := [] |}) as (H1 & H2);
    [lia|intros n Hn; apply Hno; lia|].
  cbv zeta in *. cbn [requests sleeps app] in H1.
  rewrite Nat.sub_0_r in H1. split; [exact H1|].
  intros H. now destruct (H2 H).
Qed.

(** X27.  [throw lastError] throws [undefined], not an error, exactly when
    each of the [retries + 1] attempts was answered by a 403 with no
    request remaining and a reset time a minute ahead at most: the loop
    then only waits, and [lastError] is never assigned. *)
Theorem requestWithRetry_rejects_undefined :
  fst (requestWithRetry httpsRequest now toISOString retries)
  = RejectedWith None
  <-> forall n, (n <= retries)%nat ->
                rateLimited (httpsRequest n) = true
                /\ waitTime (now n) (httpsRequest n) <= 60000.
Proof.
  unfold requestWithRetry. rewrite attempts_undefined. unfold shortWait.
  split.
  - intros [_ H] n Hn. specialize (H n ltac:(lia)).
    apply andb_true_iff in H as [H1 H2]. split; [exact H1|lia].
  - intros H. split; [reflexivity|]. intros n Hn.
    destruct (H n ltac:(lia)) as [H1 H2]. rewrite H1. cbn [andb]. lia.
Qed.

End Retries.

Lemma requestWithRetry_backoff_witness :
  let notFound :=
    Returned {| GithubFetcher.statusCode := 404; GithubFetcher.data := "";
                GithubFetcher.remaining := 59; GithubFetcher.reset := 0 |} in
  let run :=
    GithubFetcher.requestWithRetry (fun _ => notFound) (fun _ => 0)
      (fun _ => "") GithubFetcher.MAX_RETRIES in
  GithubFetcher.sleeps (snd run) = [1000; 2000; 4000]
  /\ fst run <> GithubFetcher.RejectedWith None.
Proof.
  exact (requestWithRetry_backoff
           (fun _ => Returned {| GithubFetcher.statusCode := 404;
                                 GithubFetcher.data := "";
                                 GithubFetcher.remaining := 59;
                                 GithubFetcher.reset := 0 |})
           (fun _ => 0) (fun _ => "") GithubFetcher.MAX_RETRIES
           ltac:(intros n Hn; reflexivity)).
Defined.

(* ------------------------------------------------------------------ *)
(** ** Downloads (githubFetcher.js) *)

Section Downloads.

Import GithubFetcher.

Variable downloadFile : TreeItem -> bool.

(** With enough iterations the batches are the files, in their order. *)
Lemma batches_fold (files : list TreeItem) (fuel : nat) :
  forall i st,
    (List.length files <= i + BATCH_SIZE * fuel)%nat ->
    batches downloadFile fuel files i st
    = fold_left (settle downloadFile) (skipn i files) st.
Proof.
  unfold BATCH_SIZE.
  induction fuel as [|fuel IH]; intros i st Hlen; cbn [batches];
    unfold BATCH_SIZE.
  - now rewrite skipn_all2 by lia.
  - destruct (Nat.ltb_spec i (List.length files)) as [Hlt|Hge].
    + rewrite IH by lia. rewrite <- fold_left_app. f_equal.
      rewrite Nat.add_comm, <- skipn_skipn. apply firstn_skipn.
    + now rewrite skipn_all2 by lia.
Qed.

Lemma settle_fold (l : list TreeItem) :
  forall st,
    let st' := fold_left (settle downloadFile) l st in
    downloaded st'
    = downloaded st + Z.of_nat (List.length (filter downloadFile l))
    /\ failed st'
       = failed st
         + Z.of_nat
             (List.length (filter (fun file => negb (downloadFile file)) l)).
Proof.
  induction l as [|file l IH]; intros st; cbv zeta; cbn [fold_left filter].
  - cbn. lia.
  - destruct (IH (settle downloadFile st file)) as [H1 H2]. cbv zeta in *.
    rewrite H1, H2. unfold settle.
    destruct (downloadFile file); cbn [negb List.length downloaded failed];
      lia.
Qed.

(** X28.  [downloadFilesInBatches] tries every file of the list once: what
    it returns counts the files for which [downloadFile] gave true and
    those for which it gave false, and the two counts add up to the
    number of files.  The loop needs one iteration for each batch of
    ten files, so the bound on its iterations in the model is never met:
    a larger one gives the same result. *)
Theorem downloadFilesInBatches_counts (files : list TreeItem) :
  let result := downloadFilesInBatches downloadFile files in
  downloaded result = Z.of_nat (List.length (filter downloadFile files))
  /\ failed result
     = Z.of_nat
         (List.length (filter (fun file => negb (downloadFile file)) files))
  /\ downloaded result + failed result = Z.of_nat (List.length files)
  /\ forall fuel,
       (List.length files <= BATCH_SIZE * fuel)%nat ->
       batches downloadFile fuel files 0 {| downloaded := 0; failed := 0 |}
       = result.
Proof.
  cbv zeta. unfold downloadFilesInBatches.
  rewrite batches_fold by (unfold BATCH_SIZE; lia). cbn [skipn].
  destruct (settle_fold files {| downloaded := 0; failed := 0 |}) as [H1 H2].
  cbv zeta in *. cbn [downloaded failed] in H1, H2.
  split; [lia|split; [lia|split]].
  - rewrite H1, H2. clear. induction files as [|file l IH]; [reflexivity|].
    cbn [filter]. destruct (downloadFile file); cbn [negb List.length]; lia.
  - intros fuel Hfuel. now rewrite batches_fold by lia.
Qed.

End Downloads.

(* ------------------------------------------------------------------ *)
(** ** The replies of the analysis endpoint (server.js, ingestion.js) *)

Section Replies.

Import Server.

Variable clone : string -> Outcome (list Entry).
Variable clonePath : string.
Variable run : string -> Router.Analyzer -> Outcome Router.AnalysisResult.
Variable readmeScore : string -> Z.
Variable packageDeclaresTests : string -> bool.
Variable now : string.


End Replies.

(* ------------------------------------------------------------------ *)
(** ** The points of a README (projectAnalyzer.js) *)

Section ReadmeScore.

Import ProjectAnalyzer.

Variable wordCount : string -> Z.
Variable hasTitle : string -> bool.
Variable hasLink : string -> bool.
Variable packageDeclaresTests : string -> bool.





End ReadmeScore.
